(** * scabha: parameter validation, command-line compilation, output wranglers

    A shallow embedding of [scabha/validate.py] and [scabha/cargo.py].

    Layout:
    - [Py]        the Python values and built-ins the two modules rely on
                  (ordered dicts, [str], [repr], [==], truthiness,
                  [str.split], [str.join], [str.format]);
    - [Validate]  [validate.py]: [join_quote], [SubstitutionNamespace],
                  [validate_parameters];
    - [Cargo]     [cargo.py]: [ParameterPolicies], [Parameter], [get_policy],
                  [stringify_argument], [build_argument_list],
                  [apply_output_wranglers], [reset_runtime_status];
    - the properties proved about them. *)

From Stdlib Require Import ZArith List String Ascii Bool Lia.
From Stdlib Require Import Numbers.DecimalString.
Import ListNotations.
Set Warnings "-register-all".
Local Open Scope list_scope.
Local Open Scope string_scope.

(* ================================================================== *)
(** * Python values and built-ins *)
(* ================================================================== *)

Module Py.

(** Exceptions raised by the code or by the built-ins it calls.
    [OutsideModel] is not a Python exception: it marks an input whose
    behaviour this development does not describe (a format spec, an
    attribute of a built-in object, ...).  No [except] clause catches it. *)
Inductive exn : Type :=
| ParameterValidationError (msg : string)
| SchemaError (msg : string)
| ConfigAttributeError (key : string)
| KeyError (key : string)
| AttributeError (msg : string)
| IndexError (msg : string)
| ValueError (msg : string)
| TypeError (msg : string)
| RuntimeError (msg : string)
| CabValidationError (msg : string)
| OSError (msg : string)
| OutsideModel (what : string).

Inductive result (A : Type) : Type :=
| Ok (a : A)
| Raise (e : exn).
Arguments Ok {A} a.
Arguments Raise {A} e.

Definition bind {A B : Type} (m : result A) (k : A -> result B) : result B :=
  match m with
  | Ok a => k a
  | Raise e => Raise e
  end.

Declare Scope py_scope.
Delimit Scope py_scope with py.
Notation "x <- m ;; k" := (bind m (fun x => k))
  (at level 61, m at next level, right associativity) : py_scope.
Notation "' pat <- m ;; k" := (bind m (fun x => match x with pat => k end))
  (at level 61, pat pattern, m at next level, right associativity) : py_scope.

(** What [except Exception] catches. *)
Definition is_exception (e : exn) : bool :=
  match e with
  | OutsideModel _ => false
  | _ => true
  end.

(** ** Ordered dictionaries

    A Python [dict] keeps insertion order; assigning to an existing key
    keeps the key's position, assigning to a new key appends it. *)
Definition dict (V : Type) : Type := list (string * V).

Fixpoint dict_get {V} (d : dict V) (k : string) : option V :=
  match d with
  | [] => None
  | (k', v) :: d' => if String.eqb k' k then Some v else dict_get d' k
  end.

Definition dict_mem {V} (d : dict V) (k : string) : bool :=
  match dict_get d k with
  | Some _ => true
  | None => false
  end.

Fixpoint dict_set {V} (d : dict V) (k : string) (v : V) : dict V :=
  match d with
  | [] => [(k, v)]
  | (k', v') :: d' =>
      if String.eqb k' k then (k', v) :: d' else (k', v') :: dict_set d' k v
  end.

Fixpoint dict_del {V} (d : dict V) (k : string) : dict V :=
  match d with
  | [] => []
  | (k', v') :: d' =>
      if String.eqb k' k then d' else (k', v') :: dict_del d' k
  end.

(** [d.update] with the entries of [e] as keyword arguments *)
Definition dict_update {V} (d e : dict V) : dict V :=
  fold_left (fun acc kv => dict_set acc (fst kv) (snd kv)) e d.

Definition dict_keys {V} (d : dict V) : list string := map fst d.

(** ** Values *)

(** The three mapping classes that reach the code: a plain [dict], a
    [SubstitutionNamespace] (a [dict] subclass with attribute access), and
    an OmegaConf [DictConfig]. *)
Inductive map_kind : Type := KDict | KNamespace | KConfig.

(** [VError] is [validate.Error], a subclass of [str]; [VUnresolved] is the
    dataclass [validate.Unresolved]. *)
Inductive pyval : Type :=
| VNone
| VBool (b : bool)
| VInt (z : Z)
| VStr (s : string)
| VError (s : string)
| VUnresolved (s : string)
| VList (l : list pyval)
| VMap (kind : map_kind) (d : list (string * pyval)).

(** [isinstance(v, str)] *)
Definition is_str_instance (v : pyval) : bool :=
  match v with
  | VStr _ | VError _ => true
  | _ => false
  end.

(** [isinstance(v, Error)] *)
Definition is_Error (v : pyval) : bool :=
  match v with
  | VError _ => true
  | _ => false
  end.

Definition is_None (v : pyval) : bool :=
  match v with
  | VNone => true
  | _ => false
  end.

(** [bool(v)] *)
Definition truthy (v : pyval) : bool :=
  match v with
  | VNone => false
  | VBool b => b
  | VInt z => negb (Z.eqb z 0)
  | VStr s | VError s => negb (String.eqb s "")
  | VUnresolved _ => true
  | VList l => match l with [] => false | _ => true end
  | VMap _ d => match d with [] => false | _ => true end
  end.

(** [bool(s)] for an [Optional[str]] *)
Definition truthy_str (o : option string) : bool :=
  match o with
  | Some s => negb (String.eqb s "")
  | None => false
  end.

(** ** Text *)

Definition str_of_Z (z : Z) : string := NilZero.string_of_int (Z.to_int z).

Definition chr (n : nat) : string := String (ascii_of_nat n) "".

Definition hex_digit (n : nat) : string :=
  match n with
  | 0 => "0" | 1 => "1" | 2 => "2" | 3 => "3" | 4 => "4" | 5 => "5"
  | 6 => "6" | 7 => "7" | 8 => "8" | 9 => "9" | 10 => "a" | 11 => "b"
  | 12 => "c" | 13 => "d" | 14 => "e" | _ => "f"
  end.

Fixpoint contains_char (c : ascii) (s : string) : bool :=
  match s with
  | EmptyString => false
  | String c' s' => Ascii.eqb c c' || contains_char c s'
  end.

(** One character of [repr] of an ASCII string delimited by [quote]. *)
Definition repr_char (quote c : ascii) : string :=
  let n := nat_of_ascii c in
  if Ascii.eqb c quote || Ascii.eqb c "\"%char then String "\"%char (String c "")
  else if Nat.eqb n 9 then "\t"
  else if Nat.eqb n 10 then "\n"
  else if Nat.eqb n 13 then "\r"
  else if Nat.ltb n 32 || Nat.leb 127 n
       then "\x" ++ hex_digit (n / 16) ++ hex_digit (n mod 16)
  else String c "".

Fixpoint repr_chars (quote : ascii) (s : string) : string :=
  match s with
  | EmptyString => EmptyString
  | String c s' => repr_char quote c ++ repr_chars quote s'
  end.

(** [repr(s)] for an ASCII string: single quotes, unless the text has a
    single quote and no double quote. *)
Definition repr_str (s : string) : string :=
  let quote :=
    if contains_char "'"%char s && negb (contains_char (ascii_of_nat 34) s)
    then ascii_of_nat 34 else "'"%char in
  String quote (repr_chars quote s ++ String quote "").

Definition join (sep : string) (l : list string) : string := String.concat sep l.

(** [repr(v)] *)
Fixpoint repr (v : pyval) : string :=
  match v with
  | VNone => "None"
  | VBool true => "True"
  | VBool false => "False"
  | VInt z => str_of_Z z
  | VStr s => repr_str s
  | VError s => repr_str s
  | VUnresolved s => "Unresolved(value=" ++ repr_str s ++ ")"
  | VList l => "[" ++ join ", " (map repr l) ++ "]"
  | VMap _ d =>
      "{" ++ join ", "
               (map (fun kv : string * pyval =>
                       let (k, x) := kv in (repr_str k ++ ": " ++ repr x)%string)
                    d) ++ "}"
  end.

(** [str(v)], which is also [format(v, "")] and what an f-string prints. *)
Definition str (v : pyval) : string :=
  match v with
  | VStr s => s
  | VError s => s
  | VUnresolved s => "Unresolved(" ++ s ++ ")"
  | _ => repr v
  end.

(** [a == b] *)
Fixpoint eq (a b : pyval) {struct a} : bool :=
  match a, b with
  | VNone, VNone => true
  | VBool x, VBool y => Bool.eqb x y
  | VBool x, VInt y => Z.eqb (if x then 1 else 0) y
  | VInt x, VBool y => Z.eqb x (if y then 1 else 0)
  | VInt x, VInt y => Z.eqb x y
  | (VStr x | VError x), (VStr y | VError y) => String.eqb x y
  | VUnresolved x, VUnresolved y => String.eqb x y
  | VList xs, VList ys =>
      (fix go (xs ys : list pyval) {struct xs} : bool :=
         match xs, ys with
         | [], [] => true
         | x :: xs', y :: ys' => eq x y && go xs' ys'
         | _, _ => false
         end) xs ys
  | VMap _ d, VMap _ e =>
      Nat.eqb (List.length d) (List.length e) &&
      (fix go (d : list (string * pyval)) {struct d} : bool :=
         match d with
         | [] => true
         | (k, x) :: d' =>
             match dict_get e k with
             | Some y => eq x y && go d'
             | None => false
             end
         end) d
  | _, _ => false
  end.

(** [v in l] *)
Definition contains (l : list pyval) (v : pyval) : bool :=
  existsb (fun c => eq v c) l.

(** ** [str.split] and [os.path.dirname] *)

Fixpoint prefix_of (p s : string) : bool :=
  match p, s with
  | EmptyString, _ => true
  | String a p', String b s' => Ascii.eqb a b && prefix_of p' s'
  | String _ _, EmptyString => false
  end.

(** [split_go sep skip cur s]: [cur] is the piece being read; [skip]
    counts the characters of a separator occurrence still to be dropped. *)
Fixpoint split_go (sep : string) (skip : nat) (cur s : string) : list string :=
  match s with
  | EmptyString => [cur]
  | String c s' =>
      match skip with
      | S k => split_go sep k cur s'
      | O =>
          if prefix_of sep s
          then cur :: split_go sep (String.length sep - 1) "" s'
          else split_go sep 0 (cur ++ String c "") s'
      end
  end.

(** [s.split(sep)] for a non-empty separator. *)
Definition split (sep s : string) : list string := split_go sep 0 "" s.

(** Index just past the last [/] of [s], the string being read from
    position [i]. *)
Fixpoint rfind_slash (s : string) (i last : nat) : nat :=
  match s with
  | EmptyString => last
  | String c s' =>
      rfind_slash s' (S i) (if Ascii.eqb c "/"%char then S i else last)
  end.

Fixpoint all_slashes (s : string) : bool :=
  match s with
  | EmptyString => true
  | String c s' => Ascii.eqb c "/"%char && all_slashes s'
  end.

(** [s.rstrip("/")], written on the reversed reading of [s]. *)
Fixpoint rstrip_slash (s : string) : string :=
  match s with
  | EmptyString => EmptyString
  | String c s' =>
      let r := rstrip_slash s' in
      if Ascii.eqb c "/"%char && String.eqb r "" then "" else String c r
  end.

(** [os.path.dirname] of [posixpath]. *)
Definition dirname (p : string) : string :=
  let head := String.substring 0 (rfind_slash p 0 0) p in
  if negb (String.eqb head "") && negb (all_slashes head)
  then rstrip_slash head else head.

(** [sorted] on strings. *)
Fixpoint insert_sorted (x : string) (l : list string) : list string :=
  match l with
  | [] => [x]
  | y :: l' => if String.leb x y then x :: l else y :: insert_sorted x l'
  end.

Definition sorted (l : list string) : list string :=
  fold_right insert_sorted [] l.

(** ** Attribute access

    [SubstitutionNamespace.__getattr__] is reached only for a name that
    is not an attribute of [dict] itself; it returns the entry or raises
    [AttributeError(name)] (the [_forgiving_] instance attribute is
    [False] on every namespace [validate_parameters] builds).  A
    [DictConfig] raises [ConfigAttributeError] carrying the key. *)
Definition dict_attribute (name : string) : bool :=
  prefix_of "_" name ||
  existsb (String.eqb name)
    ["clear"; "copy"; "fromkeys"; "get"; "items"; "keys"; "pop"; "popitem";
     "setdefault"; "update"; "values"].

Definition getattr (obj : pyval) (name : string) : result pyval :=
  match obj with
  | VMap KNamespace d =>
      if dict_attribute name
      then Raise (OutsideModel "attribute of the dict class")
      else match dict_get d name with
           | Some v => Ok v
           | None => Raise (AttributeError name)
           end
  | VMap KConfig d =>
      if dict_attribute name
      then Raise (OutsideModel "attribute of the DictConfig class")
      else match dict_get d name with
           | Some v => Ok v
           | None => Raise (ConfigAttributeError name)
           end
  | _ => Raise (OutsideModel "attribute of a built-in object")
  end.

(** ** [str.format]

    The replacement fields described are [{}], [{index}], [{key}] and
    attribute chains [{key.attr.attr}]; [{{] and [}}] are the escapes.
    A field with a conversion ([!]), a format spec ([:]) or an index
    ([[]]) is [OutsideModel].  Errors are raised in reading order, as
    the formatter renders each field before it reads on. *)

Inductive auto_number : Type :=
| ANS_INIT
| ANS_AUTO (next : nat)
| ANS_MANUAL.

Fixpoint is_digits (s : string) : bool :=
  match s with
  | EmptyString => true
  | String c s' =>
      let n := nat_of_ascii c in
      Nat.leb 48 n && Nat.leb n 57 && is_digits s'
  end.

Fixpoint nat_of_digits (acc : nat) (s : string) : nat :=
  match s with
  | EmptyString => acc
  | String c s' => nat_of_digits (10 * acc + (nat_of_ascii c - 48)) s'
  end.

(** The object a field's first part names, and the numbering state after. *)
Definition first_object (first : string) (an : auto_number)
    (args : list pyval) (kwargs : dict pyval) : result (pyval * auto_number) :=
  let positional (i : nat) (an' : auto_number) :=
    match nth_error args i with
    | Some v => Ok (v, an')
    | None =>
        Raise (IndexError ("Replacement index " ++ str_of_Z (Z.of_nat i)
                           ++ " out of range for positional args tuple"))
    end in
  if String.eqb first "" then
    match an with
    | ANS_INIT => positional 0 (ANS_AUTO 1)
    | ANS_AUTO n => positional n (ANS_AUTO (S n))
    | ANS_MANUAL =>
        Raise (ValueError
          "cannot switch from manual field specification to automatic field numbering")
    end
  else if is_digits first then
    if Nat.ltb 18 (String.length first)
    then Raise (OutsideModel "index beyond the machine word")
    else
    match an with
    | ANS_AUTO _ =>
        Raise (ValueError
          "cannot switch from automatic field numbering to manual field specification")
    | _ => positional (nat_of_digits 0 first) ANS_MANUAL
    end
  else
    match dict_get kwargs first with
    | Some v => Ok (v, an)
    | None => Raise (KeyError first)
    end.

Fixpoint get_attrs (obj : pyval) (attrs : list string) : result pyval :=
  match attrs with
  | [] => Ok obj
  | a :: attrs' =>
      if String.eqb a ""
      then Raise (ValueError "Empty attribute in format string")
      else (o <- getattr obj a ;; get_attrs o attrs')%py
  end.

Definition get_field (name : string) (an : auto_number)
    (args : list pyval) (kwargs : dict pyval) : result (string * auto_number) :=
  match split "." name with
  | [] => Raise (OutsideModel "unreachable: split returns a piece")
  | first :: attrs =>
      ('(obj, an') <- first_object first an args kwargs ;;
       o <- get_attrs obj attrs ;;
       Ok (str o, an'))%py
  end.

Inductive format_mode : Type :=
| FText
| FOpen
| FClose
| FField (name : string).

Fixpoint format_go (args : list pyval) (kwargs : dict pyval)
    (s : string) (mode : format_mode) (an : auto_number) (out : string)
    : result string :=
  match s with
  | EmptyString =>
      match mode with
      | FText => Ok out
      | FOpen => Raise (ValueError "Single '{' encountered in format string")
      | FClose => Raise (ValueError "Single '}' encountered in format string")
      | FField _ => Raise (ValueError "expected '}' before end of string")
      end
  | String c s' =>
      let in_field (name : string) :=
        if Ascii.eqb c "{"%char
        then Raise (ValueError "unexpected '{' in field name")
        else if Ascii.eqb c "}"%char
        then ('(text, an') <- get_field name an args kwargs ;;
              format_go args kwargs s' FText an' (out ++ text))%py
        else if Ascii.eqb c ":"%char || Ascii.eqb c "!"%char
        then Raise (OutsideModel "conversion or format spec")
        else if Ascii.eqb c "["%char
        then Raise (OutsideModel "index in a replacement field")
        else format_go args kwargs s' (FField (name ++ String c "")) an out in
      match mode with
      | FText =>
          if Ascii.eqb c "{"%char then format_go args kwargs s' FOpen an out
          else if Ascii.eqb c "}"%char then format_go args kwargs s' FClose an out
          else format_go args kwargs s' FText an (out ++ String c "")
      | FOpen =>
          if Ascii.eqb c "{"%char
          then format_go args kwargs s' FText an (out ++ "{")
          else in_field ""
      | FClose =>
          if Ascii.eqb c "}"%char
          then format_go args kwargs s' FText an (out ++ "}")
          else Raise (ValueError "Single '}' encountered in format string")
      | FField name => in_field name
      end
  end.

(** [template.format], called with positional arguments [args] and
    keyword arguments [kwargs]. *)
Definition format (template : string) (args : list pyval) (kwargs : dict pyval)
    : result string :=
  format_go args kwargs template FText ANS_INIT "".

(** [str(exc)].  The text of a [ConfigAttributeError] is never printed by
    the code, whose handler reads [exc.key]. *)
Definition exn_str (e : exn) : string :=
  match e with
  | KeyError k => repr_str k
  | ConfigAttributeError k => "Missing key " ++ k
  | ParameterValidationError m | SchemaError m | AttributeError m
  | IndexError m | ValueError m | TypeError m | RuntimeError m
  | CabValidationError m | OSError m | OutsideModel m => m
  end.

End Py.

(* ================================================================== *)
(** * The schema dataclasses of [cargo.py] *)
(* ================================================================== *)

Module Schema.
Import Py.

(** [ParameterPolicies].  [skip] and [skip_implicits] are plain [bool]
    fields; every other field is [Optional] and defaults to [None]. *)
Record ParameterPolicies : Type := {
  positional : option bool;
  positional_head : option bool;
  repeat : option string;
  prefix : option string;
  skip : bool;
  skip_implicits : bool;
  split : option string;
  format : option string;
  format_list : option (list string)
}.

(** [ParameterPolicies()] *)
Definition default_policies : ParameterPolicies := {|
  positional := None;
  positional_head := None;
  repeat := None;
  prefix := None;
  skip := false;
  skip_implicits := true;
  split := None;
  format := None;
  format_list := None
|}.

(** The dataclass [Parameter] ([Parameter] is a reserved word here, hence
    [ParameterSchema]): [info], [writeable], [dtype], [implicit], [tags],
    [required], [choices], [alias] and [policies]; its field [pattern] is
    never read and is left out. *)
Record ParameterSchema : Type := {
  info : string;
  writeable : bool;
  dtype : string;
  implicit : option string;
  tags : list string;
  required : bool;
  choices : list pyval;
  alias : option string;
  policies : ParameterPolicies
}.

(** [schema.default] and [schema.mkdir], which [validate_parameters]
    reads: the dataclass declares neither attribute, so reading one
    raises. *)
Definition default (schema : ParameterSchema) : result pyval :=
  Raise (AttributeError "'Parameter' object has no attribute 'default'").

Definition mkdir (schema : ParameterSchema) : result pyval :=
  Raise (AttributeError "'Parameter' object has no attribute 'mkdir'").

(** [Parameter(dtype=..., required=...)], every other field at its default. *)
Definition parameter (dtype : string) (required : bool) : ParameterSchema := {|
  info := "";
  writeable := false;
  dtype := dtype;
  implicit := None;
  tags := [];
  required := required;
  choices := [];
  alias := Some "";
  policies := default_policies
|}.

Definition with_choices (p : ParameterSchema) (c : list pyval) : ParameterSchema := {|
  info := info p; writeable := writeable p; dtype := dtype p;
  implicit := implicit p; tags := tags p; required := required p;
  choices := c; alias := alias p; policies := policies p
|}.

Definition with_policies (p : ParameterSchema) (q : ParameterPolicies) : ParameterSchema := {|
  info := info p; writeable := writeable p; dtype := dtype p;
  implicit := implicit p; tags := tags p; required := required p;
  choices := choices p; alias := alias p; policies := q
|}.

End Schema.

(* ================================================================== *)
(** * [validate.py] *)
(* ================================================================== *)

Module Validate.
Import Py Schema.

Definition join_quote (values : list string) : string :=
  match values with
  | [] => ""
  | _ => "'" ++ join "', '" values ++ "'"
  end.

(** ** [SubstitutionNamespace] *)

(** The message is the one of Python 3.10 and later. *)
Definition multiple_self : exn :=
  TypeError
    "SubstitutionNamespace.__init__() got multiple values for argument 'self'".

(** What [_add_] stores for [v]: a plain [dict] becomes a namespace, built
    entry by entry, and then receives the entry [_forgiving_] through the
    overridden [__setattr__].  The constructor takes its entries as
    keyword arguments next to [self], so an entry named [self] is a
    [TypeError]. *)
Fixpoint namespace_value (v : pyval) : result pyval :=
  match v with
  | VMap KDict d =>
      if dict_mem d "self" then Raise multiple_self
      else
        (d' <- (fix entries (d : list (string * pyval)) : result (dict pyval) :=
                  match d with
                  | [] => Ok []
                  | (k, x) :: rest =>
                      (x' <- namespace_value x ;;
                       rest' <- entries rest ;;
                       Ok ((k, x') :: rest'))%py
                  end) d ;;
         Ok (VMap KNamespace (dict_set d' "_forgiving_" (VBool false))))%py
  | _ => Ok v
  end.

Fixpoint namespace_entries (kw : dict pyval) : result (dict pyval) :=
  match kw with
  | [] => Ok []
  | (k, x) :: rest =>
      (x' <- namespace_value x ;;
       rest' <- namespace_entries rest ;;
       Ok ((k, x') :: rest'))%py
  end.

(** [SubstitutionNamespace] called with the entries of [kw]. *)
Definition SubstitutionNamespace (kw : dict pyval) : result (dict pyval) :=
  if dict_mem kw "self" then Raise multiple_self else namespace_entries kw.

(** [ns[k] = v] *)
Definition ns_setitem (ns : dict pyval) (k : string) (v : pyval)
    : result (dict pyval) :=
  (v' <- namespace_value v ;; Ok (dict_set ns k v'))%py.

(** ** The substitution loop of [validate_parameters]

    [subst1] is the caller's namespace with the entry [self] set to
    [subst1_self], the mirror of the parameter values; the mirror is one
    object, updated as the pass goes, so a later parameter of the same pass
    reads the values the earlier ones were given. *)

Definition recursion_limit : exn :=
  ParameterValidationError
    "recursion limit exceeded while evaluating {}-substitutions. This is usally caused by cyclic (cross-)references.".

(** The body of the [try] statement for one string value: the new value and
    the text stored in the mirror. *)
Definition substitute_value (subst1 : dict pyval) (value : string)
    : result (pyval * string) :=
  match Py.format value [] subst1 with
  | Ok newvalue => Ok (VStr newvalue, newvalue)
  | Raise (ConfigAttributeError key) =>
      Ok (VError ("ERR (" ++ key ++ ")"), "ERR (" ++ key ++ ")")
  | Raise exc =>
      if is_exception exc then Ok (VError (exn_str exc), "ERR") else Raise exc
  end.

(** One pass over [inputs.items()]. *)
Fixpoint substitute_pass (subst1 : dict pyval) (inputs : dict pyval)
    (subst1_self : dict pyval) (changed : bool)
    : result (dict pyval * dict pyval * bool) :=
  match inputs with
  | [] => Ok ([], subst1_self, changed)
  | (name, value) :: rest =>
      match value with
      | VStr s =>
          ('(newvalue, mirror) <-
              substitute_value
                (dict_set subst1 "self" (VMap KNamespace subst1_self)) s ;;
           let subst1_self' := dict_set subst1_self name (VStr mirror) in
           if negb (eq newvalue value)
           then
             ('(rest', self', changed') <-
                 substitute_pass subst1 rest subst1_self' true ;;
              Ok ((name, newvalue) :: rest', self', changed'))
           else
             ('(rest', self', changed') <-
                 substitute_pass subst1 rest subst1_self' changed ;;
              Ok ((name, value) :: rest', self', changed')))%py
      | _ =>
          ('(rest', self', changed') <-
              substitute_pass subst1 rest subst1_self changed ;;
           Ok ((name, value) :: rest', self', changed'))%py
      end
  end.

(** [for i in range(n): ... else: raise]; [i] is the number of passes
    already made.  The result carries the number of passes made. *)
Fixpoint substitute_loop (n i : nat) (subst1 : dict pyval)
    (inputs subst1_self : dict pyval) : result (dict pyval * nat) :=
  match n with
  | O => Raise recursion_limit
  | S n' =>
      ('(inputs', self', changed) <-
          substitute_pass subst1 inputs subst1_self false ;;
       if changed
       then substitute_loop n' (S i) subst1 inputs' self'
       else Ok (inputs', S i))%py
  end.

(** The branch [if subst is not None]. *)
Definition substitute (subst inputs : dict pyval) : result (dict pyval * nat) :=
  (subst1 <- SubstitutionNamespace subst ;;
   subst1_self <- SubstitutionNamespace inputs ;;
   substitute_loop 10 0 subst1 inputs subst1_self)%py.

(** [re.search("{[^{]", s)]: an opening brace followed by a character that
    is not an opening brace. *)
Fixpoint has_substitution (s : string) : bool :=
  match s with
  | EmptyString => false
  | String c s' =>
      match s' with
      | EmptyString => false
      | String c' _ =>
          (Ascii.eqb c "{"%char && negb (Ascii.eqb c' "{"%char))
          || has_substitution s'
      end
  end.

(** The [else] branch: string values with a substitution move from
    [inputs] to [unresolved]. *)
Fixpoint move_unresolved (items : dict pyval) (inputs unresolved : dict pyval)
    : dict pyval * dict pyval :=
  match items with
  | [] => (inputs, unresolved)
  | (name, value) :: rest =>
      match value with
      | VStr s =>
          if has_substitution s
          then move_unresolved rest (dict_del inputs name)
                 (dict_set unresolved name (VUnresolved s))
          else move_unresolved rest inputs unresolved
      | _ => move_unresolved rest inputs unresolved
      end
  end.

(** ** Declared types

    [eval(schema.dtype, globals())] on the type names described here: the
    scalar kinds [str], [int], [bool], the path classes [File],
    [Directory], [MS], and [List] of each.  The empty expression does not
    evaluate; any other text is outside this description. *)
Inductive dtype_impl : Type :=
| TStr | TInt | TBool | TFile | TDirectory | TMS
| TList (elem : dtype_impl).

Inductive evaluated : Type :=
| Evaluated (t : dtype_impl)
| EvalRaises
| EvalOutside.

Definition scalar_dtype (s : string) : option dtype_impl :=
  if String.eqb s "str" then Some TStr
  else if String.eqb s "int" then Some TInt
  else if String.eqb s "bool" then Some TBool
  else if String.eqb s "File" then Some TFile
  else if String.eqb s "Directory" then Some TDirectory
  else if String.eqb s "MS" then Some TMS
  else None.

Definition eval_dtype (s : string) : evaluated :=
  match scalar_dtype s with
  | Some t => Evaluated t
  | None =>
      if String.eqb s "" then EvalRaises
      else if prefix_of "List[" s
              && String.eqb (String.substring (String.length s - 1) 1 s) "]"
      then match scalar_dtype (String.substring 5 (String.length s - 6) s) with
           | Some t => Evaluated (TList t)
           | None => EvalOutside
           end
      else EvalOutside
  end.

Definition is_file (t : dtype_impl) : bool :=
  match t with
  | TFile | TDirectory | TMS => true
  | _ => false
  end.

Definition is_file_list (t : dtype_impl) : bool :=
  match t with
  | TList (TFile | TDirectory | TMS) => true
  | _ => false
  end.

(** ** The typed record (pydantic, version 1 validators)

    A field of type [str], or of a subclass of [str] such as [File], takes
    a [str] instance as it is (an [Error] stays an [Error]) and prints a
    number; [int] and [bool] fields parse strings. *)
Inductive outcome : Type :=
| Valid (v : pyval)
| Invalid (errors : list (list nat * string))
| Unknown (what : string).

Definition lower_char (c : ascii) : ascii :=
  let n := nat_of_ascii c in
  if Nat.leb 65 n && Nat.leb n 90 then ascii_of_nat (n + 32) else c.

Fixpoint lower (s : string) : string :=
  match s with
  | EmptyString => EmptyString
  | String c s' => String (lower_char c) (lower s')
  end.

Definition BOOL_FALSE : list string := ["0"; "off"; "f"; "false"; "n"; "no"].
Definition BOOL_TRUE : list string := ["1"; "on"; "t"; "true"; "y"; "yes"].

(** Characters that settle that a text is no integer: the visible ASCII
    characters other than digits, signs and the underscore. *)
Definition not_numeric (c : ascii) : bool :=
  let n := nat_of_ascii c in
  Nat.leb 33 n && Nat.leb n 126
  && negb (Nat.leb 48 n && Nat.leb n 57)
  && negb (Nat.eqb n 43) && negb (Nat.eqb n 45) && negb (Nat.eqb n 95).

Fixpoint any_char (p : ascii -> bool) (s : string) : bool :=
  match s with
  | EmptyString => false
  | String c s' => p c || any_char p s'
  end.

(** [int(s)] on a string. *)
Definition int_of_str (s : string) : outcome :=
  let digits (sign : Z) (d : string) :=
    if negb (String.eqb d "") && is_digits d
    then Valid (VInt (sign * Z.of_nat (nat_of_digits 0 d)))
    else if any_char not_numeric s
    then Invalid [([], "value is not a valid integer")]
    else Unknown "integer literal with blanks or underscores" in
  match s with
  | String "+" d => digits 1%Z d
  | String "-" d => digits (-1)%Z d
  | _ => digits 1%Z s
  end.

Definition validate_scalar (t : dtype_impl) (v : pyval) : outcome :=
  match v with
  | VNone => Invalid [([], "none is not an allowed value")]
  | _ =>
    match t with
    | TStr | TFile | TDirectory | TMS =>
        match v with
        | VStr _ | VError _ => Valid v
        | VInt _ | VBool _ => Valid (VStr (str v))
        | _ => Invalid [([], "str type expected")]
        end
    | TInt =>
        match v with
        | VInt _ => Valid v
        | VBool b => Valid (VInt (if b then 1 else 0))
        | VStr s | VError s => int_of_str s
        | _ => Invalid [([], "value is not a valid integer")]
        end
    | TBool =>
        let bad := Invalid [([], "value could not be parsed to a boolean")] in
        match v with
        | VBool _ => Valid v
        | VInt 1 => Valid (VBool true)
        | VInt 0 => Valid (VBool false)
        | VStr s | VError s =>
            if existsb (String.eqb (lower s)) BOOL_TRUE then Valid (VBool true)
            else if existsb (String.eqb (lower s)) BOOL_FALSE then Valid (VBool false)
            else bad
        | _ => bad
        end
    | TList _ => Unknown "nested list type"
    end
  end.

(** The elements of a list field, element [i] reported at location [i]. *)
Fixpoint validate_elements (t : dtype_impl) (i : nat) (l : list pyval)
    : outcome * list pyval :=
  match l with
  | [] => (Valid VNone, [])
  | x :: l' =>
      let (o, vs) := validate_elements t (S i) l' in
      match validate_scalar t x, o with
      | Unknown w, _ => (Unknown w, [])
      | _, Unknown w => (Unknown w, [])
      | Valid v, Valid _ => (Valid VNone, v :: vs)
      | Valid _, Invalid es => (Invalid es, [])
      | Invalid e, Valid _ =>
          (Invalid (map (fun e => ((i :: fst e)%list, snd e)) e), [])
      | Invalid e, Invalid es =>
          (Invalid (map (fun e => ((i :: fst e)%list, snd e)) e ++ es)%list, [])
      end
  end.

Definition validate_field (t : dtype_impl) (v : pyval) : outcome :=
  match t with
  | TList e =>
      match v with
      | VList l =>
          match validate_elements e 0 l with
          | (Valid _, vs) => Valid (VList vs)
          | (o, _) => o
          end
      | _ => Invalid [([], "value is not a valid list")]
      end
  | _ => validate_scalar t v
  end.

(** One entry of [errors]: the location joined with dots, which is a
    [TypeError] when the location holds a list index. *)
Definition error_text (name : string) (e : list nat * string) : result string :=
  match fst e with
  | [] => Ok ("'" ++ name ++ "': " ++ snd e)
  | _ => Raise (TypeError "sequence item 1: expected str instance, int found")
  end.

Fixpoint error_texts (name : string) (es : list (list nat * string))
    : result (list string) :=
  match es with
  | [] => Ok []
  | e :: es' =>
      (t <- error_text name e ;; ts <- error_texts name es' ;; Ok (t :: ts))%py
  end.

(** [pcls] called with the present values: the validated fields, or the
    error texts of all fields, in field order. *)
Fixpoint validate_fields (fields : dict dtype_impl) (inputs : dict pyval)
    : result (dict pyval * list string) :=
  match fields with
  | [] => Ok ([], [])
  | (name, t) :: fields' =>
      match dict_get inputs name with
      | None | Some VNone =>
          (* a TypeError of the constructor, whose wording is not described *)
          Raise (OutsideModel "a field of the record is given no value")
      | Some v =>
          match validate_field t v with
          | Unknown w => Raise (OutsideModel w)
          | Valid v' =>
              ('(vs, errs) <- validate_fields fields' inputs ;;
               Ok ((name, v') :: vs, errs))%py
          | Invalid es =>
              ('(vs, errs) <- validate_fields fields' inputs ;;
               ts <- error_texts name es ;;
               Ok (vs, (ts ++ errs)%list))%py
          end
      end
  end.

(** [OmegaConf.to_container] on a [DictConfig]. *)
Fixpoint to_container (v : pyval) : pyval :=
  match v with
  | VMap KConfig d =>
      VMap KDict (map (fun kv : string * pyval =>
                         let (k, x) := kv in (k, to_container x)) d)
  | _ => v
  end.

(** [type(v)] as an f-string prints it. *)
Definition type_repr (v : pyval) : string :=
  "<class '" ++
  match v with
  | VNone => "NoneType"
  | VBool _ => "bool"
  | VInt _ => "int"
  | VStr _ => "str"
  | VError _ => "scabha.validate.Error"
  | VUnresolved _ => "scabha.validate.Unresolved"
  | VList _ => "list"
  | VMap KDict _ => "dict"
  | VMap KNamespace _ => "scabha.validate.SubstitutionNamespace"
  | VMap KConfig _ => "omegaconf.dictconfig.DictConfig"
  end ++ "'>".

(** ** The file system and the YAML reader

    What the code asks of its environment: [glob.glob], [os.path.isfile],
    [os.path.isdir], [os.makedirs] with [exist_ok=True] (which changes the
    file system, or raises), and [yaml.safe_load], of which the code only
    uses whether the text loads as a list ([Some l]) or not. *)
Record System (FS : Type) : Type := {
  glob_glob : FS -> string -> list string;
  isfile : FS -> string -> bool;
  isdir : FS -> string -> bool;
  makedirs : FS -> string -> result FS;
  yaml_safe_load : string -> option (list pyval)
}.
Arguments glob_glob {FS} _ _ _.
Arguments isfile {FS} _ _ _.
Arguments isdir {FS} _ _ _.
Arguments makedirs {FS} _ _ _.
Arguments yaml_safe_load {FS} _ _.

Section WithSystem.

Context {FS : Type} (sys : System FS).

(** Computations that read and change the file system and may raise. *)
Definition io (A : Type) : Type := FS -> result A * FS.

Definition ret {A} (a : A) : io A := fun fs => (Ok a, fs).

Definition raise {A} (e : exn) : io A := fun fs => (Raise e, fs).

Definition lift {A} (r : result A) : io A := fun fs => (r, fs).

Definition io_bind {A B} (m : io A) (k : A -> io B) : io B :=
  fun fs =>
    match m fs with
    | (Ok a, fs') => k a fs'
    | (Raise e, fs') => (Raise e, fs')
    end.

Declare Scope io_scope.
Delimit Scope io_scope with io.
Local Notation "x <- m ;; k" := (io_bind m (fun x => k))
  (at level 61, m at next level, right associativity) : io_scope.
Local Notation "' pat <- m ;; k" :=
  (io_bind m (fun x => match x with pat => k end))
  (at level 61, pat pattern, m at next level, right associativity) : io_scope.
Local Notation "m ;;; k" := (io_bind m (fun _ => k))
  (at level 61, right associativity) : io_scope.

Definition when (b : bool) (m : io unit) : io unit :=
  if b then m else ret tt.

(** A path handed to [os.path]: a string. *)
Definition as_path (v : pyval) : result string :=
  match v with
  | VStr s | VError s => Ok s
  | _ => Raise (OutsideModel "path that is not a string")
  end.

Definition path_isfile (v : pyval) : io bool :=
  fun fs => (bind (as_path v) (fun p => Ok (isfile sys fs p)), fs).

Definition path_isdir (v : pyval) : io bool :=
  fun fs => (bind (as_path v) (fun p => Ok (isdir sys fs p)), fs).

(** [all(test(f) for f in files)] *)
Fixpoint all_paths (test : pyval -> io bool) (files : list pyval) : io bool :=
  match files with
  | [] => ret true
  | f :: files' =>
      (b <- test f ;; if b then all_paths test files' else ret false)%io
  end.

(** [dirname = os.path.dirname(path); if dirname: os.makedirs(dirname, exist_ok=True)] *)
Definition make_parent (path : pyval) : io unit :=
  fun fs =>
    match as_path path with
    | Raise e => (Raise e, fs)
    | Ok p =>
        let d := dirname p in
        if String.eqb d "" then (Ok tt, fs)
        else match makedirs sys fs d with
             | Ok fs' => (Ok tt, fs')
             | Raise e => (Raise e, fs)
             end
    end.

Fixpoint make_parents (paths : list pyval) : io unit :=
  match paths with
  | [] => ret tt
  | p :: paths' => (make_parent p ;;; make_parents paths')%io
  end.

(** The files a value of a file type stands for. *)
Definition find_files (expand_globs : bool) (name : string) (value : pyval)
    : io (list pyval) :=
  fun fs =>
    match value with
    | VStr s =>
        match yaml_safe_load sys s with
        | Some files => (Ok files, fs)
        | None =>
            (Ok (if expand_globs
                 then map VStr (sorted (glob_glob sys fs s))
                 else [value]), fs)
        end
    | VList files => (Ok files, fs)
    | _ =>
        (Raise (ParameterValidationError
                  ("'" ++ name ++ "': invalid type '" ++ type_repr value ++ "'")),
         fs)
    end.

Definition fail {A} (msg : string) : io A :=
  raise (ParameterValidationError msg).

(** The body of the loop that checks files and expands globs, for an entry
    that has a schema and a value: the value [inputs[name]] holds after it. *)
Definition check_files (check_exist expand_globs create_dirs : bool)
    (name : string) (value : pyval) (schema : ParameterSchema)
    (dtype : dtype_impl) : io pyval :=
  if is_file dtype || is_file_list dtype then
    (files <- find_files expand_globs name value ;;
     match files with
     | [] =>
         if required schema && check_exist
         then fail ("'" ++ name ++ "': no files found for '" ++ str value ++ "'")
         else ret (if is_file_list dtype then VList [] else VStr "")
     | first :: others =>
         if is_file dtype then
           match others with
           | _ :: _ =>
               fail ("'" ++ name ++ "': multiple files given ('" ++ str value ++ "')")
           | [] =>
               (if check_exist then
                  match dtype with
                  | TFile =>
                      (b <- path_isfile first ;;
                       if b then ret tt
                       else fail ("'" ++ name ++ "': '" ++ str value
                                  ++ "' is not a regular file"))
                  | _ =>
                      (b <- path_isdir first ;;
                       if b then ret tt
                       else fail ("'" ++ name ++ "': '" ++ str value
                                  ++ "' is not a directory"))
                  end
                else ret tt) ;;;
               when create_dirs (make_parent first) ;;;
               ret first
           end
         else
           (if check_exist then
              match dtype with
              | TList TFile =>
                  (b <- all_paths path_isfile files ;;
                   if b then ret tt
                   else fail (name ++ ": '" ++ str value ++ "' matches non-files"))
              | _ =>
                  (b <- all_paths path_isdir files ;;
                   if b then ret tt
                   else fail (name ++ ": '" ++ str value
                              ++ "' matches non-directories"))
              end
            else ret tt) ;;;
           when create_dirs (make_parents files) ;;;
           ret (VList files)
     end)%io
  else ret value.

(** The loop over [inputs.items()] that checks files and expands globs. *)
Fixpoint file_pass (check_exist expand_globs create_dirs : bool)
    (schemas : dict ParameterSchema) (dtypes : dict dtype_impl)
    (inputs : dict pyval) : io (dict pyval) :=
  match inputs with
  | [] => ret []
  | (name, value) :: rest =>
      let continue (v : pyval) :=
        (rest' <- file_pass check_exist expand_globs create_dirs
                    schemas dtypes rest ;;
         ret ((name, v) :: rest'))%io in
      match dict_get schemas name with
      | None => continue value
      | Some schema =>
          if is_None value || is_Error value then continue value
          else
            match dict_get dtypes name with
            | None => raise (KeyError name)
            | Some dtype =>
                (v <- check_files check_exist expand_globs create_dirs
                        name value schema dtype ;;
                 continue v)%io
            end
      end
  end.

(** The [mkdir] directives. *)
Fixpoint mkdir_pass (schemas : dict ParameterSchema) (validated : dict pyval)
    : io unit :=
  match validated with
  | [] => ret tt
  | (name, value) :: rest =>
      match dict_get schemas name with
      | None => raise (KeyError name)
      | Some schema =>
          (flag <- lift (mkdir schema) ;;
           when (truthy flag) (make_parent value) ;;;
           mkdir_pass schemas rest)%io
      end
  end.

(** ** [validate_parameters], stage by stage *)

(** [for name in params: if name not in schemas: raise] *)
Fixpoint check_unknown (params : dict pyval) (schemas : dict ParameterSchema)
    : result unit :=
  match params with
  | [] => Ok tt
  | (name, _) :: rest =>
      if dict_mem schemas name then check_unknown rest schemas
      else Raise (ParameterValidationError ("unknown parameter '" ++ name ++ "'"))
  end.

Definition is_Unresolved (v : pyval) : bool :=
  match v with
  | VUnresolved _ => true
  | _ => false
  end.

(** [inputs.get(name) is None] *)
Definition get_is_None (inputs : dict pyval) (name : string) : bool :=
  match dict_get inputs name with
  | None | Some VNone => true
  | Some _ => false
  end.

(** The loop that adds missing defaults. *)
Fixpoint add_defaults (schemas : dict ParameterSchema) (defaults inputs : dict pyval)
    : result (dict pyval) :=
  match schemas with
  | [] => Ok inputs
  | (name, schema) :: rest =>
      if get_is_None inputs name then
        match dict_get defaults name with
        | Some d => add_defaults rest defaults (dict_set inputs name d)
        | None =>
            (own <- default schema ;;
             if negb (is_None own)
             then add_defaults rest defaults (dict_set inputs name own)
             else add_defaults rest defaults inputs)%py
        end
      else add_defaults rest defaults inputs
  end.

(** The list [missing] of the required-parameter check. *)
Definition missing_required (schemas : dict ParameterSchema)
    (inputs unresolved : dict pyval) : list string :=
  map fst
    (filter (fun ns : string * ParameterSchema =>
               required (snd ns) && get_is_None inputs (fst ns)
               && negb (dict_mem unresolved (fst ns)))
            schemas).

(** The loop that evaluates the declared types of the entries with a value
    and turns OmegaConf containers into plain ones. *)
Fixpoint make_fields (schemas : dict ParameterSchema) (inputs : dict pyval)
    : result (dict dtype_impl * dict pyval) :=
  match schemas with
  | [] => Ok ([], inputs)
  | (name, schema) :: rest =>
      match dict_get inputs name with
      | None | Some VNone => make_fields rest inputs
      | Some value =>
          match eval_dtype (dtype schema) with
          | EvalRaises =>
              Raise (SchemaError ("invalid " ++ name ++ ".dtype = " ++ dtype schema))
          | EvalOutside => Raise (OutsideModel "declared type")
          | Evaluated dtype_impl =>
              ('(fields, inputs') <-
                  make_fields rest (dict_set inputs name (to_container value)) ;;
               Ok ((name, dtype_impl) :: fields, inputs'))%py
          end
      end
  end.

(** ** The record class

    [dataclasses.make_dataclass] wants every field name to be an
    identifier that is no keyword and that occurs once.  Names are read as
    ASCII text; what [str.isidentifier] says of other text is outside this
    description. *)
Fixpoint all_chars (p : ascii -> bool) (s : string) : bool :=
  match s with
  | EmptyString => true
  | String c s' => p c && all_chars p s'
  end.

Definition is_ascii (s : string) : bool :=
  all_chars (fun c => Nat.ltb (nat_of_ascii c) 128) s.

Definition identifier_start (c : ascii) : bool :=
  let n := nat_of_ascii c in
  (Nat.leb 65 n && Nat.leb n 90) || (Nat.leb 97 n && Nat.leb n 122)
  || Nat.eqb n 95.

Definition identifier_part (c : ascii) : bool :=
  let n := nat_of_ascii c in
  identifier_start c || (Nat.leb 48 n && Nat.leb n 57).

(** [name.isidentifier()] *)
Definition isidentifier (name : string) : bool :=
  match name with
  | EmptyString => false
  | String c rest => identifier_start c && all_chars identifier_part rest
  end.

(** [keyword.kwlist] *)
Definition kwlist : list string :=
  ["False"; "None"; "True"; "and"; "as"; "assert"; "async"; "await";
   "break"; "class"; "continue"; "def"; "del"; "elif"; "else"; "except";
   "finally"; "for"; "from"; "global"; "if"; "import"; "in"; "is";
   "lambda"; "nonlocal"; "not"; "or"; "pass"; "raise"; "return"; "try";
   "while"; "with"; "yield"].

Definition iskeyword (name : string) : bool := existsb (String.eqb name) kwlist.

(** The loop of [make_dataclass] over [fields]. *)
Fixpoint check_field_names (seen : list string) (fields : dict dtype_impl)
    : result unit :=
  match fields with
  | [] => Ok tt
  | (name, _) :: rest =>
      if negb (is_ascii name)
      then Raise (OutsideModel "field name that is not ASCII text")
      else if negb (isidentifier name)
      then Raise (TypeError ("Field names must be valid identifiers: "
                             ++ repr_str name))
      else if iskeyword name
      then Raise (TypeError ("Field names must not be keywords: "
                             ++ repr_str name))
      else if existsb (String.eqb name) seen
      then Raise (TypeError ("Field name duplicated: " ++ repr_str name))
      else check_field_names (name :: seen) rest
  end.

(** [dataclasses.make_dataclass("Parameters", fields)] *)
Definition make_dataclass (fields : dict dtype_impl) : result unit :=
  check_field_names [] fields.

(** Names that pydantic does not take as a plain field: one that starts
    with an underscore is ignored with a warning, and one that is an
    attribute of its model class, or the name of the receiver of a call,
    is refused.  A record with such a field is outside this description. *)
Definition special_names : list string :=
  ["Config"; "construct"; "copy"; "dict"; "fields"; "from_orm"; "json";
   "parse_file"; "parse_obj"; "parse_raw"; "schema"; "schema_json";
   "update_forward_refs"; "validate"; "self"; "cls"; "args"; "kwargs";
   "values"; "config"].

Definition special_name (name : string) : bool :=
  match name with
  | String "_" _ => true
  | _ => existsb (String.eqb name) special_names
  end.

(** [pydantic.dataclasses.dataclass(dcls)] *)
Definition pydantic_dataclass (fields : dict dtype_impl) : result unit :=
  if existsb (fun field : string * dtype_impl => special_name (fst field)) fields
  then Raise (OutsideModel "field name that pydantic treats specially")
  else Ok tt.

(** The check of choice-type parameters. *)
Fixpoint check_choices (schemas : dict ParameterSchema) (validated : dict pyval)
    : result unit :=
  match validated with
  | [] => Ok tt
  | (name, value) :: rest =>
      match dict_get schemas name with
      | None => Raise (KeyError name)
      | Some schema =>
          if truthy (VList (choices schema)) && negb (contains (choices schema) value)
          then Raise (ParameterValidationError
                        (name ++ ": invalid value '" ++ str value ++ "'"))
          else check_choices schemas rest
      end
  end.

(** Everything up to the required-parameter check: the concrete inputs and
    the unresolved entries, with the number of substitution passes made. *)
Definition resolve_inputs (params : dict pyval) (schemas : dict ParameterSchema)
    (subst defaults : option (dict pyval)) (check_unknowns : bool)
    : result (dict pyval * dict pyval * nat) :=
  (_ <- (if check_unknowns then check_unknown params schemas else Ok tt) ;;
   let inputs := filter (fun nv => negb (is_Unresolved (snd nv))) params in
   let unresolved := filter (fun nv => is_Unresolved (snd nv)) params in
   let defaults := match defaults with Some d => d | None => [] end in
   inputs <- add_defaults schemas defaults inputs ;;
   match subst with
   | Some subst =>
       ('(inputs', passes) <- substitute subst inputs ;;
        Ok (inputs', unresolved, passes))
   | None =>
       let (inputs', unresolved') := move_unresolved inputs inputs unresolved in
       Ok (inputs', unresolved', 0)
   end)%py.

(** From the required-parameter check to the end. *)
Definition validate_resolved (schemas : dict ParameterSchema)
    (check_required check_exist expand_globs create_dirs : bool)
    (inputs unresolved : dict pyval) : io (dict pyval) :=
  ((* check that required args are present *)
   (let missing := missing_required schemas inputs unresolved in
    match missing with
    | _ :: _ =>
        if check_required
        then fail ("missing required parameters: " ++ join_quote missing)
        else ret tt
    | [] => ret tt
    end) ;;;
   (* create dataclass from parameter schema *)
   '(fields, inputs) <- lift (make_fields schemas inputs) ;;
   lift (make_dataclass fields) ;;;
   (* convert this to a pydantic dataclass which does validation *)
   lift (pydantic_dataclass fields) ;;;
   (* check Files etc. and expand globs *)
   inputs <- file_pass check_exist expand_globs create_dirs schemas fields inputs ;;
   (* validate *)
   '(validated, errors) <- lift (validate_fields fields inputs) ;;
   match errors with
   | _ :: _ => fail (join ", " errors)
   | [] =>
       (* check choice-type parameters *)
       lift (check_choices schemas validated) ;;;
       (* check for mkdir directives *)
       when create_dirs (mkdir_pass schemas validated) ;;;
       (* add in unresolved values *)
       ret (dict_update validated unresolved)
   end)%io.

Definition validate_parameters (params : dict pyval)
    (schemas : dict ParameterSchema)
    (subst defaults : option (dict pyval))
    (check_unknowns check_required check_exist expand_globs create_dirs : bool)
    : io (dict pyval) :=
  ('(inputs, unresolved, _) <-
      lift (resolve_inputs params schemas subst defaults check_unknowns) ;;
   validate_resolved schemas check_required check_exist expand_globs create_dirs
     inputs unresolved)%io.

End WithSystem.

End Validate.

(* ================================================================== *)
(** * [cargo.py]: the methods of [Cab] *)
(* ================================================================== *)

Module Cargo.
Import Py Schema.

(** ** Policies *)

(** The names [get_policy] is called with, and the fields of
    [ParameterPolicies] by name. *)
Inductive policy_name : Type :=
| POSITIONAL | POSITIONAL_HEAD | REPEAT | PREFIX | SKIP | SKIP_IMPLICITS
| SPLIT | FORMAT | FORMAT_LIST.

Definition policy_type (policy : policy_name) : Type :=
  match policy with
  | POSITIONAL | POSITIONAL_HEAD | SKIP | SKIP_IMPLICITS => bool
  | REPEAT | PREFIX | SPLIT | FORMAT => string
  | FORMAT_LIST => list string
  end.

(** [policies[policy]]: [None] is Python's [None]; the two [bool] fields
    always hold a value. *)
Definition getitem (p : ParameterPolicies) (policy : policy_name)
    : option (policy_type policy) :=
  match policy with
  | POSITIONAL => positional p
  | POSITIONAL_HEAD => positional_head p
  | REPEAT => repeat p
  | PREFIX => prefix p
  | SKIP => Some (skip p)
  | SKIP_IMPLICITS => Some (skip_implicits p)
  | SPLIT => split p
  | FORMAT => Schema.format p
  | FORMAT_LIST => format_list p
  end.

(** [get_policy], a closure over [self]: [policies] is [self.policies],
    the task-level policies. *)
Definition get_policy (policies : ParameterPolicies)
    (schema : ParameterSchema) (policy : policy_name)
    : option (policy_type policy) :=
  match getitem (Schema.policies schema) policy with
  | Some v => Some v
  | None => getitem policies policy
  end.

(** Truth of an [Optional[bool]] and of an [Optional[List[str]]]. *)
Definition truthy_bool (o : option bool) : bool :=
  match o with
  | Some b => b
  | None => false
  end.

Definition truthy_list (o : option (list string)) : bool :=
  match o with
  | Some (_ :: _) => true
  | _ => false
  end.

(** ** [stringify_argument] *)

Fixpoint chars (s : string) : list pyval :=
  match s with
  | EmptyString => []
  | String c s' => VStr (String c "") :: chars s'
  end.

(** [hasattr(value, '__iter__') and type(value) is not str], with the
    elements the value iterates over: a list, the characters of an [Error]
    (a [str] subclass), the keys of a mapping. *)
Definition iterate (value : pyval) : option (list pyval) :=
  match value with
  | VList l => Some l
  | VError s => Some (chars s)
  | VMap _ d => Some (map (fun kv => VStr (fst kv)) d)
  | _ => None
  end.

Fixpoint map_result {A B} (f : A -> result B) (l : list A) : result (list B) :=
  match l with
  | [] => Ok []
  | x :: l' => (y <- f x ;; ys <- map_result f l' ;; Ok (y :: ys))%py
  end.

Definition strs (l : list string) : list pyval := map VStr l.

(** [o] when it is a true value (set and not empty). *)
Definition if_str (o : option string) : option string :=
  match o with
  | Some s => if String.eqb s "" then None else Some s
  | None => None
  end.

Definition if_list (o : option (list string)) : option (list string) :=
  match o with
  | Some (x :: l) => Some (x :: l)
  | _ => None
  end.

(** [value_dict] is the variable of [build_argument_list] the closure
    reads; [option] is [None] for a positional argument.  The result is
    [None], a list of tokens, or a single string.  The last branch of the
    source, for a repeat policy that is neither a string nor [None], cannot
    be reached with the declared field type [Optional[str]]. *)
Definition stringify_argument (policies : ParameterPolicies)
    (value_dict : dict pyval) (name : string) (value : pyval)
    (schema : ParameterSchema) (option : Datatypes.option string)
    : result pyval :=
  if is_None value then Ok VNone
  else if String.eqb (dtype schema) "bool" && negb (truthy value) then Ok VNone
  else
    let format_policy := if_str (get_policy policies schema FORMAT) in
    let format_list_policy := if_list (get_policy policies schema FORMAT_LIST) in
    let split_policy := if_str (get_policy policies schema SPLIT) in
    let is_list :=
      match value, split_policy with
      | VStr s, Some sep => Some (strs (Py.split sep s))
      | _, _ => iterate value
      end in
    (* apply formatting policies *)
    (formatted <-
       match is_list with
       | Some value =>
           match format_list_policy, format_policy with
           | Some fl, _ =>
               if negb (Nat.eqb (List.length fl) (List.length value))
               then Raise (SchemaError
                      "length of format_list_policy does not match length of '{name}'")
               else (l <- map_result (fun fmt => Py.format fmt value value_dict) fl ;;
                     Ok (inl l))
           | None, Some fmt =>
               (l <- map_result (fun x => Py.format fmt [x] value_dict) value ;;
                Ok (inl l))
           | None, None => Ok (inl (map str value))
           end
       | None =>
           match format_list_policy, format_policy with
           | Some fl, _ =>
               (l <- map_result (fun fmt => Py.format fmt [value] value_dict) fl ;;
                Ok (inl l))
           | None, Some fmt =>
               (s <- Py.format fmt [value] value_dict ;; Ok (inr s))
           | None, None => Ok (inr (str value))
           end
       end ;;
     match formatted with
     | inl value =>
         (* check repeat policy and form up representation *)
         match get_policy policies schema REPEAT with
         | Some repeat_policy =>
             if String.eqb repeat_policy "list" then
               Ok (match if_str option with
                   | Some o => VList (VStr o :: strs value)
                   | None => VList (strs value)
                   end)
             else if String.eqb repeat_policy "repeat" then
               (* list(itertools.chain(g)) of the one generator g lists
                  the items of g, each the two-element list [option, x] *)
               Ok (match if_str option with
                   | Some o => VList (map (fun x => VList [VStr o; VStr x]) value)
                   | None => VList (strs value)
                   end)
             else
               Ok (match if_str option with
                   | Some o => VList [VStr o; VStr (join repeat_policy value)]
                   | None => VStr (join repeat_policy value)
                   end)
         | None =>
             Raise (TypeError ("list-type parameter '" ++ name
                               ++ "' does not have a repeat policy set"))
         end
     | inr value =>
         Ok (match if_str option with
             | Some o => VList [VStr o; VStr value]
             | None => VList [VStr value]
             end)
     end)%py.

(** ** [build_argument_list] *)

(** A wrangler action: a logging level (an [int]), or one of the three
    constants [ACTION_SUPPRESS], [ACTION_DECLARE_SUCCESS] and
    [ACTION_DECLARE_FAILURE], which the code tells apart by identity. *)
Inductive action : Type :=
| Level (severity : Z)
| ACTION_SUPPRESS
| ACTION_DECLARE_SUCCESS
| ACTION_DECLARE_FAILURE.

(** The attributes of a [Cab] its methods read and write: [self.policies],
    [self.inputs_outputs], [self.params], [self._wranglers] (compiled
    pattern, replacement, actions) and [self._runtime_status] ([None]
    unknown, [True] success, [False] failure). *)
Record Cab (regex : Type) : Type := {
  self_policies : ParameterPolicies;
  self_inputs_outputs : dict ParameterSchema;
  self_params : dict pyval;
  self_wranglers : list (regex * option string * list action);
  self_runtime_status : option bool
}.
Arguments self_policies {regex} _.
Arguments self_inputs_outputs {regex} _.
Arguments self_params {regex} _.
Arguments self_wranglers {regex} _.
Arguments self_runtime_status {regex} _.

(** [skip] as both loops compute it. *)
Definition skipped (policies : ParameterPolicies) (schema : ParameterSchema)
    : bool :=
  truthy_bool (get_policy policies schema SKIP)
  || (truthy_str (implicit schema)
      && truthy_bool (get_policy policies schema SKIP_IMPLICITS)).

(** [pargs += value] for a list, [pargs.append(value)] for another value
    that is not [None]. *)
Definition add_tokens (args : list pyval) (value : pyval) : list pyval :=
  match value with
  | VList l => (args ++ l)%list
  | VNone => args
  | _ => (args ++ [value])%list
  end.

(** The first loop: missing parameters and positionals.  The state is
    [pos_args] (head, tail) and [value_dict]. *)
Fixpoint collect_positionals (policies : ParameterPolicies)
    (schemas : dict ParameterSchema)
    (pos_args : list pyval * list pyval) (value_dict : dict pyval)
    : result (list pyval * list pyval * dict pyval) :=
  match schemas with
  | [] => Ok (pos_args, value_dict)
  | (name, schema) :: rest =>
      match dict_get value_dict name with
      | None =>
          if required schema
          then Raise (RuntimeError ("required parameter '" ++ name ++ "' is missing"))
          else collect_positionals policies rest pos_args value_dict
      | Some v =>
          let positional_first :=
            truthy_bool (get_policy policies schema POSITIONAL_HEAD) in
          let positional :=
            truthy_bool (get_policy policies schema POSITIONAL)
            || positional_first in
          if positional then
            (pos_args' <-
               (if negb (skipped policies schema) then
                  (value <- stringify_argument policies value_dict
                              name v schema None ;;
                   Ok (if positional_first
                       then (add_tokens (fst pos_args) value, snd pos_args)
                       else (fst pos_args, add_tokens (snd pos_args) value)))
                else Ok pos_args) ;;
             collect_positionals policies rest pos_args'
               (dict_del value_dict name))%py
          else collect_positionals policies rest pos_args value_dict
      end
  end.

(** The second loop, over the parameters that remain in [value_dict];
    [items] is what is left of [value_dict.items()]. *)
Fixpoint collect_options (policies : ParameterPolicies)
    (schemas : dict ParameterSchema) (value_dict items : dict pyval)
    (args : list pyval) : result (list pyval) :=
  match items with
  | [] => Ok args
  | (name, value) :: rest =>
      match dict_get schemas name with
      | None => Raise (RuntimeError ("unknown parameter '" ++ name ++ "'"))
      | Some schema =>
          if skipped policies schema
          then collect_options policies schemas value_dict rest args
          else
            let option :=
              match if_str (get_policy policies schema PREFIX) with
              | Some p => p
              | None => "--"
              end ++
              match if_str (alias schema) with
              | Some a => a
              | None => name
              end in
            (* True values map to a single option *)
            if String.eqb (dtype schema) "bool" && truthy value
            then collect_options policies schemas value_dict rest
                   (args ++ [VStr option])%list
            else
              (value' <- stringify_argument policies value_dict
                           name value schema (Some option) ;;
               collect_options policies schemas value_dict rest
                 (add_tokens args value'))%py
      end
  end.

Definition build_argument_list {regex} (self : Cab regex) : result (list pyval) :=
  let value_dict := self_params self in
  ('(pos_args, value_dict) <-
      collect_positionals (self_policies self) (self_inputs_outputs self)
        ([], []) value_dict ;;
   args <- collect_options (self_policies self) (self_inputs_outputs self)
             value_dict value_dict [] ;;
   Ok (fst pos_args ++ args ++ snd pos_args)%list)%py.

(** ** Output wranglers *)

(** [wrangler_actions]: the upper-case integer constants of [logging], then
    the three literal constants. *)
Definition wrangler_actions : dict action :=
  [("CRITICAL", Level 50); ("FATAL", Level 50); ("ERROR", Level 40);
   ("WARNING", Level 30); ("WARN", Level 30); ("INFO", Level 20);
   ("DEBUG", Level 10); ("NOTSET", Level 0);
   ("SUPPRESS", ACTION_SUPPRESS);
   ("DECLARE_SUCCESS", ACTION_DECLARE_SUCCESS);
   ("DECLARE_FAILURE", ACTION_DECLARE_FAILURE)].

Definition logging_ERROR : Z := 40.

Section Wranglers.

(** The regular expressions of [re]: [re_compile p] is the compiled
    pattern ([None] when [re.compile] raises), [re_search r s] tells
    whether [r.search(s)] finds a match, [re_sub r repl s] is
    [r.sub(repl, s)], which raises on a malformed replacement. *)
Context {regex : Type}.
Variable re_compile : string -> option regex.
Variable re_search : regex -> string -> bool.
Variable re_sub : regex -> string -> string -> result string.

(** The loop over the actions of one entry of [management.wranglers] in
    [__post_init__]: the replacement named last, or the unknown action. *)
Fixpoint scan_actions (pattern : string) (actions : list string)
    (replace : option string) : result (option string) :=
  match actions with
  | [] => Ok replace
  | a :: actions' =>
      if prefix_of "replace:" a
      then scan_actions pattern actions'
             (Some (String.substring 8 (String.length a - 8) a))
      else if dict_mem wrangler_actions a
      then scan_actions pattern actions' replace
      else Raise (CabValidationError
                    ("wrangler entry " ++ pattern ++ ": unknown action '" ++ a ++ "'"))
  end.

Definition known_actions (actions : list string) : list action :=
  flat_map (fun a => match dict_get wrangler_actions a with
                     | Some act => [act]
                     | None => []
                     end) actions.

(** The wrangler set-up of [__post_init__], for entries whose actions are
    given as lists. *)
Fixpoint setup_wranglers (wranglers : dict (list string))
    : result (list (regex * option string * list action)) :=
  match wranglers with
  | [] => Ok []
  | (pattern, actions) :: rest =>
      (replace <- scan_actions pattern actions None ;;
       match re_compile pattern with
       | None =>
           Raise (CabValidationError
                    ("wrangler entry " ++ pattern
                     ++ " is not a valid regular expression"))
       | Some r =>
           (ws <- setup_wranglers rest ;;
            Ok ((r, replace, known_actions actions) :: ws))
       end)%py
  end.

(** The local variables of [apply_output_wranglers], with
    [self._runtime_status]. *)
Record wrangling : Type := {
  suppress : bool;
  modified_output : string;
  severity : Z;
  runtime_status : option bool
}.

(** One round of [for action in actions]. *)
Definition apply_action (w : wrangling) (a : action) : wrangling :=
  match a with
  | Level n =>
      {| suppress := suppress w; modified_output := modified_output w;
         severity := n; runtime_status := runtime_status w |}
  | ACTION_SUPPRESS =>
      {| suppress := true; modified_output := modified_output w;
         severity := severity w; runtime_status := runtime_status w |}
  | ACTION_DECLARE_FAILURE =>
      match runtime_status w with
      | None =>
          {| suppress := suppress w;
             modified_output := "[FAILURE] " ++ modified_output w;
             severity := logging_ERROR; runtime_status := Some false |}
      | Some _ => w
      end
  | ACTION_DECLARE_SUCCESS =>
      match runtime_status w with
      | None =>
          {| suppress := suppress w;
             modified_output := "[SUCCESS] " ++ modified_output w;
             severity := severity w; runtime_status := Some true |}
      | Some _ => w
      end
  end.

(** [for regex, replace, actions in self._wranglers].  When a replacement
    raises, the status set so far stays set. *)
Fixpoint wrangle (output : string)
    (wranglers : list (regex * option string * list action)) (w : wrangling)
    : result wrangling * option bool :=
  match wranglers with
  | [] => (Ok w, runtime_status w)
  | (r, replace, actions) :: rest =>
      if re_search r output then
        match match replace with
              | Some repl => re_sub r repl output
              | None => Ok (modified_output w)
              end with
        | Raise e => (Raise e, runtime_status w)
        | Ok m =>
            wrangle output rest
              (fold_left apply_action actions
                 {| suppress := suppress w; modified_output := m;
                    severity := severity w; runtime_status := runtime_status w |})
        end
      else wrangle output rest w
  end.

Definition set_runtime_status (self : Cab regex) (status : option bool)
    : Cab regex :=
  {| self_policies := self_policies self;
     self_inputs_outputs := self_inputs_outputs self;
     self_params := self_params self;
     self_wranglers := self_wranglers self;
     self_runtime_status := status |}.

Definition reset_runtime_status (self : Cab regex) : Cab regex :=
  set_runtime_status self None.

(** The returned pair is [(None, 0)] or [(modified_output, severity)]. *)
Definition apply_output_wranglers (self : Cab regex) (output : string)
    (severity : Z) : result (option string * Z) * Cab regex :=
  let (r, status) :=
    wrangle output (self_wranglers self)
      {| suppress := false; modified_output := output;
         severity := severity; runtime_status := self_runtime_status self |} in
  (match r with
   | Ok (Build_wrangling suppress modified_output severity _) =>
       Ok (if suppress then (None, 0%Z) else (Some modified_output, severity))
   | Raise e => Raise e
   end,
   set_runtime_status self status).

(** A run of the task's output through the wranglers, line by line. *)
Fixpoint feed (self : Cab regex) (lines : list (string * Z)) : Cab regex :=
  match lines with
  | [] => self
  | (output, severity) :: rest =>
      feed (snd (apply_output_wranglers self output severity)) rest
  end.

End Wranglers.

End Cargo.

(* ================================================================== *)
(** * [cargo.py]: the methods of [Cargo], and [Cab.validate] *)
(* ================================================================== *)

Module Task.
Import Py Schema Validate Cargo.

(** [DefinitionError], which [Cargo.__post_init__] raises. *)
Inductive definition_error : Type :=
| DefinitionError (msg : string).

(** The loop of [Cargo.__post_init__] over [self.inputs.keys()]: the
    first input name that is also an output is an error.  It runs before
    the like loop of [Cab.__post_init__], which therefore never raises. *)
Fixpoint check_inputs_outputs (inputs outputs : dict ParameterSchema)
    : definition_error + unit :=
  match inputs with
  | [] => inr tt
  | (name, _) :: rest =>
      if dict_mem outputs name
      then inl (DefinitionError (name ++ " appears in both inputs and outputs"))
      else check_inputs_outputs rest outputs
  end.

(** The property [inputs_outputs]: a copy of the inputs, updated with the
    outputs. *)
Definition inputs_outputs (inputs outputs : dict ParameterSchema)
    : dict ParameterSchema :=
  dict_update inputs outputs.

(** The property [invalid_params]. *)
Definition invalid_params (params : dict pyval) : list string :=
  map fst (filter (fun nv => is_Error (snd nv)) params).

(** The property [missing_params]. *)
Definition missing_params (inputs_outputs : dict ParameterSchema)
    (params : dict pyval) : dict ParameterSchema :=
  filter (fun ns => required (snd ns) && negb (dict_mem params (fst ns)))
         inputs_outputs.

Definition update_parameter (params : dict pyval) (name : string) (value : pyval)
    : dict pyval :=
  dict_set params name value.

(** [make_substitition_namespace]: the dictionary [ns] handed to
    [OmegaConf.create], whose result is a [DictConfig] with these entries. *)
Definition substitition_entries (inputs_outputs : dict ParameterSchema)
    (params : dict pyval) : dict pyval :=
  dict_update
    (map (fun nv => (fst nv, VStr (str (snd nv)))) params)
    (map (fun ns => (fst ns, VStr "MISSING"))
         (missing_params inputs_outputs params)).

Definition make_substitition_namespace (inputs_outputs : dict ParameterSchema)
    (params : dict pyval) : pyval :=
  VMap KConfig (substitition_entries inputs_outputs params).

(** The property [summary] of a cab called [name]. *)
Definition summary (name : string) (inputs_outputs : dict ParameterSchema)
    (params : dict pyval) : list string :=
  let line (name value : string) := "  " ++ name ++ " = " ++ value in
  ("cab " ++ name ++ ":")
  :: (map (fun nv => line (fst nv) (str (snd nv))) params
      ++ map (fun ns => line (fst ns) "???")
           (missing_params inputs_outputs params))%list.

Definition set_params {regex} (self : Cab regex) (params : dict pyval)
    : Cab regex :=
  {| self_policies := self_policies self;
     self_inputs_outputs := self_inputs_outputs self;
     self_params := params;
     self_wranglers := self_wranglers self;
     self_runtime_status := self_runtime_status self |}.

(** [Cab.validate]: [validate_parameters] with the flags at their
    defaults; [defaults] is [self.defaults].  The cab after the call holds
    the validated parameters; when the validation raises, the cab is as it
    was. *)
Definition validate {FS : Type} (sys : System FS) {regex} (self : Cab regex)
    (defaults : dict pyval) (params : dict pyval) (subst : option (dict pyval))
    : FS -> result (Cab regex) * FS :=
  fun fs =>
    match validate_parameters sys params (self_inputs_outputs self)
            subst (Some defaults) true true true true false fs with
    | (Ok validated, fs') => (Ok (set_params self validated), fs')
    | (Raise e, fs') => (Raise e, fs')
    end.

End Task.

(* ================================================================== *)
(** * Environments for the examples *)
(* ================================================================== *)

(** Regular expressions without special characters: a non-empty literal
    pattern matches where its text occurs, and a replacement without
    backslashes is put in place of every occurrence, left to right. *)
Module Literal.
Import Py.

Definition compile (pattern : string) : option string := Some pattern.

Definition search (pattern s : string) : bool :=
  match split pattern s with
  | _ :: _ :: _ => true
  | _ => false
  end.

Definition sub (pattern repl s : string) : result string :=
  Ok (join repl (split pattern s)).

End Literal.

(** A file system in which no path exists and making a directory changes
    nothing, and a YAML reader that finds no list. *)
Definition no_files : Validate.System unit := {|
  Validate.glob_glob := fun _ _ => [];
  Validate.isfile := fun _ _ => false;
  Validate.isdir := fun _ _ => false;
  Validate.makedirs := fun fs _ => Py.Ok fs;
  Validate.yaml_safe_load := fun _ => None
|}.

(* ================================================================== *)
(** * Examples, and notions used in the statements *)
(* ================================================================== *)

Module Examples.
Import Py Schema Validate Cargo.

Definition with_repeat (r : option string) : ParameterPolicies := {|
  positional := None; positional_head := None; repeat := r; prefix := None;
  skip := false; skip_implicits := true; split := None;
  format := None; format_list := None
|}.

(** The task of the example: one parameter [n] of value [[1, 2]], no
    task-level policy, the repeat policy [r] on the parameter. *)
Definition cab_n (r : option string) : Cab string := {|
  self_policies := default_policies;
  self_inputs_outputs :=
    [("n", with_policies (parameter "List[int]" false) (with_repeat r))];
  self_params := [("n", VList [VInt 1; VInt 2])];
  self_wranglers := [];
  self_runtime_status := None
|}.

Section Cumulative.

Context {regex : Type}.
Variable re_search : regex -> string -> bool.
Variable re_sub : regex -> string -> string -> result string.

(** The reading of the rules in which each firing rule matches against and
    rewrites the line as the earlier firing rules left it; it differs from
    [Cargo.wrangle] only in the text given to [re_search] and [re_sub]. *)
Fixpoint wrangle_cumulative (wranglers : list (regex * option string * list action))
    (w : wrangling) : result wrangling * option bool :=
  match wranglers with
  | [] => (Ok w, runtime_status w)
  | (r, replace, actions) :: rest =>
      if re_search r (modified_output w) then
        match match replace with
              | Some repl => re_sub r repl (modified_output w)
              | None => Ok (modified_output w)
              end with
        | Raise e => (Raise e, runtime_status w)
        | Ok m =>
            wrangle_cumulative rest
              (fold_left apply_action actions
                 {| suppress := suppress w; modified_output := m;
                    severity := severity w; runtime_status := runtime_status w |})
        end
      else wrangle_cumulative rest w
  end.

End Cumulative.

(** Two rewriting rules: [x] becomes [1], [y] becomes [2]. *)
Definition two_rewrites : list (string * option string * list action) :=
  [("x", Some "1", []); ("y", Some "2", [])].

Definition start (output : string) (sev : Z) (status : option bool) : wrangling :=
  {| suppress := false; modified_output := output;
     severity := sev; runtime_status := status |}.

(** A task with a failure rule and a success rule. *)
Definition cab_verdicts : Cab string := {|
  self_policies := default_policies;
  self_inputs_outputs := [];
  self_params := [];
  self_wranglers :=
    [("failed", None, [ACTION_DECLARE_FAILURE]);
     ("done", None, [ACTION_DECLARE_SUCCESS])];
  self_runtime_status := None
|}.

(** Two parameters of type [str]. *)
Definition schemas_ab : dict ParameterSchema :=
  [("a", parameter "str" false); ("b", parameter "str" false)].

End Examples.

(* ================================================================== *)
(** * Further notions and examples *)
(* ================================================================== *)

Module Notions.
Import Py Schema Validate Cargo Task.

(** The policies of a parameter with each unset field taken from the
    task-level policies [task]: what [get_policy] resolves, as a record. *)
Definition effective_policies (task : ParameterPolicies) (schema : ParameterSchema)
    : ParameterPolicies := {|
  positional := get_policy task schema POSITIONAL;
  positional_head := get_policy task schema POSITIONAL_HEAD;
  repeat := get_policy task schema REPEAT;
  prefix := get_policy task schema PREFIX;
  skip := skip (Schema.policies schema);
  skip_implicits := skip_implicits (Schema.policies schema);
  split := get_policy task schema SPLIT;
  format := get_policy task schema FORMAT;
  format_list := get_policy task schema FORMAT_LIST
|}.

Definition with_effective_policies (task : ParameterPolicies)
    (entry : string * ParameterSchema) : string * ParameterSchema :=
  (fst entry, with_policies (snd entry) (effective_policies task (snd entry))).

Definition set_policies {regex} (self : Cab regex) (task : ParameterPolicies)
    (schemas : dict ParameterSchema) : Cab regex :=
  {| self_policies := task;
     self_inputs_outputs := schemas;
     self_params := self_params self;
     self_wranglers := self_wranglers self;
     self_runtime_status := self_runtime_status self |}.

(** The task-level policies [task] with other values of [skip] and
    [skip_implicits]. *)
Definition with_skip (task : ParameterPolicies) (s si : bool) : ParameterPolicies := {|
  positional := positional task;
  positional_head := positional_head task;
  repeat := repeat task;
  prefix := prefix task;
  skip := s;
  skip_implicits := si;
  split := split task;
  format := Schema.format task;
  format_list := format_list task
|}.

(** The flag of an optional parameter. *)
Definition option_flag (task : ParameterPolicies) (name : string)
    (schema : ParameterSchema) : string :=
  match if_str (get_policy task schema PREFIX) with
  | Some p => p
  | None => "--"
  end ++
  match if_str (alias schema) with
  | Some a => a
  | None => name
  end.

(** A task with the parameters [params], the schemas [schemas] and the
    task-level policies [task]. *)
Definition cab_of (task : ParameterPolicies) (schemas : dict ParameterSchema)
    (params : dict pyval) : Cab string :=
  {| self_policies := task;
     self_inputs_outputs := schemas;
     self_params := params;
     self_wranglers := [];
     self_runtime_status := None |}.

(** A parameter declared with nothing but a type that is not [bool] and a
    requiredness. *)
Definition plain (schema : ParameterSchema) : Prop :=
  schema = parameter (dtype schema) (required schema)
  /\ String.eqb (dtype schema) "bool" = false.

(** An action that declares a verdict. *)
Definition declares (a : action) : bool :=
  match a with
  | ACTION_DECLARE_SUCCESS | ACTION_DECLARE_FAILURE => true
  | _ => false
  end.

(** A task with a rule that drops the lines that hold [noise]. *)
Definition cab_noise : Cab string :=
  {| self_policies := default_policies;
     self_inputs_outputs := [];
     self_params := [];
     self_wranglers :=
       [("noise", Some "-", [Level 10]); ("noise", None, [ACTION_SUPPRESS])];
     self_runtime_status := None |}.

(** Two schemas that differ in their policies at most, under task-level
    policies that make them resolve alike. *)
Definition alike (p1 p2 : ParameterPolicies) (e1 e2 : string * ParameterSchema)
    : Prop :=
  fst e1 = fst e2
  /\ dtype (snd e1) = dtype (snd e2)
  /\ implicit (snd e1) = implicit (snd e2)
  /\ alias (snd e1) = alias (snd e2)
  /\ required (snd e1) = required (snd e2)
  /\ forall policy, get_policy p1 (snd e1) policy = get_policy p2 (snd e2) policy.

(** The tokens of an optional parameter declared with a type and a
    requiredness only, in a task without task-level policies: the bare
    flag for a true [bool], nothing for a false [bool] or for [None], the
    flag and the text of the value otherwise. *)
Definition default_tokens (schemas : dict ParameterSchema)
    (entry : string * pyval) : list pyval :=
  let (name, value) := entry in
  match dict_get schemas name with
  | Some schema =>
      if String.eqb (dtype schema) "bool"
      then if truthy value then [VStr ("--" ++ name)] else []
      else if is_None value then []
      else [VStr ("--" ++ name); VStr (str value)]
  | None => []
  end.

(** The value after substitution of a value: a string stays a string (an
    [Error] is one), anything else is the same value. *)
Definition substituted (before after : string * pyval) : Prop :=
  fst before = fst after
  /\ match snd before with
     | VStr _ => is_str_instance (snd after) = true
     | v => snd after = v
     end.

(** A computation that leaves the file system as it is. *)
Definition reads_only {FS A} (m : FS -> result A * FS) : Prop :=
  forall fs, snd (m fs) = fs.

(** The value [v] is a path that exists in [fs] the way the type [t] asks
    for: a regular file for [File], a directory for the other types. *)
Definition path_exists {FS} (sys : System FS) (fs : FS) (t : dtype_impl)
    (v : pyval) : bool :=
  match as_path v with
  | Ok p =>
      match t with
      | TFile => isfile sys fs p
      | _ => isdir sys fs p
      end
  | Raise _ => false
  end.

(** A file system that holds the regular file [data.txt] and the directory
    [out] and nothing else; a pattern without wildcards matches the path it
    spells, when that exists. *)
Definition small_disk : System unit := {|
  glob_glob := fun _ pattern =>
    if String.eqb pattern "data.txt" || String.eqb pattern "out"
    then [pattern] else [];
  isfile := fun _ path => String.eqb path "data.txt";
  isdir := fun _ path => String.eqb path "out";
  makedirs := fun fs _ => Ok fs;
  yaml_safe_load := fun _ => None
|}.

(** A name that [make_dataclass] and pydantic take as a plain field: an
    ASCII identifier that is no keyword and none of the names pydantic
    treats specially. *)
Definition field_name (name : string) : bool :=
  is_ascii name && isidentifier name && negb (iskeyword name)
  && negb (special_name name).

(** The claim's words for the resolution of one policy field: the
    parameter-level value when it is set, else the task-level one. *)
Definition first_set {A} (own task : option A) : option A :=
  match own with
  | Some v => Some v
  | None => task
  end.

(** The policies resolved field by field in the claim's words, written on
    the fields of the two records.  [skip] and [skip_implicits] are plain
    [bool]s, hence always set at the parameter level. *)
Definition resolved_policies (task own : ParameterPolicies) : ParameterPolicies := {|
  positional := first_set (positional own) (positional task);
  positional_head := first_set (positional_head own) (positional_head task);
  repeat := first_set (repeat own) (repeat task);
  prefix := first_set (prefix own) (prefix task);
  skip := skip own;
  skip_implicits := skip_implicits own;
  split := first_set (split own) (split task);
  format := first_set (Schema.format own) (Schema.format task);
  format_list := first_set (format_list own) (format_list task)
|}.

Definition with_resolved_policies (task : ParameterPolicies)
    (entry : string * ParameterSchema) : string * ParameterSchema :=
  (fst entry,
   with_policies (snd entry)
     (resolved_policies task (Schema.policies (snd entry)))).

(** The state of the substitution loop after [k] passes that each changed
    a value: the inputs and the [self] namespace as the loop has them when
    it starts the next pass. *)
Fixpoint changing_passes (k : nat) (subst1 inputs subst1_self : dict pyval)
    : option (dict pyval * dict pyval) :=
  match k with
  | O => Some (inputs, subst1_self)
  | S k' =>
      match substitute_pass subst1 inputs subst1_self false with
      | Ok (inputs', self', true) => changing_passes k' subst1 inputs' self'
      | _ => None
      end
  end.

End Notions.

(* ================================================================== *)
(** * Properties of the command compiler *)
(* ================================================================== *)

Module CargoFacts.
Import Py Schema Cargo Examples.

(** ** List rendering *)

(** How a list value without formatting policies is rendered next to an
    option flag, for each repeat policy. *)
Lemma stringify_list_with_option :
  forall policies value_dict name xs schema o,
    if_list (get_policy policies schema FORMAT_LIST) = None ->
    if_str (get_policy policies schema FORMAT) = None ->
    String.eqb (dtype schema) "bool" && negb (truthy (VList xs)) = false ->
    if_str (Some o) = Some o ->
    stringify_argument policies value_dict name (VList xs) schema (Some o) =
    match get_policy policies schema REPEAT with
    | Some r =>
        if String.eqb r "list" then Ok (VList (VStr o :: strs (map str xs)))
        else if String.eqb r "repeat"
        then Ok (VList (map (fun x => VList [VStr o; VStr x]) (map str xs)))
        else Ok (VList [VStr o; VStr (join r (map str xs))])
    | None =>
        Raise (TypeError ("list-type parameter '" ++ name
                          ++ "' does not have a repeat policy set"))
    end.
Proof.
  intros policies value_dict name xs schema o Hfl Hf Hbool Ho.
  unfold stringify_argument.
  cbn [is_None]. rewrite Hbool, Hfl, Hf.
  destruct (if_str (get_policy policies schema SPLIT)) as [sep|];
    cbn [iterate bind]; rewrite Ho.
  all: destruct (get_policy policies schema REPEAT) as [r|]; [|reflexivity].
  all: destruct (String.eqb r "list"); [reflexivity|].
  all: destruct (String.eqb r "repeat"); reflexivity.
Qed.

(** C1.  With value [[1, 2]], option name [n] and prefix [--]: the policy
    [list] gives the flat tokens [--n 1 2], a separator [,] gives
    [--n 1,2], and no policy is a [TypeError]; the policy [repeat] gives
    the two lists [[--n, 1]] and [[--n, 2]] as the two items of the
    argument list, not the flat tokens [--n 1 --n 2]. *)
Theorem repeat_policy_yields_nested_lists :
  build_argument_list (cab_n (Some "list"))
    = Ok [VStr "--n"; VStr "1"; VStr "2"]
  /\ build_argument_list (cab_n (Some ","))
    = Ok [VStr "--n"; VStr "1,2"]
  /\ build_argument_list (cab_n None)
    = Raise (TypeError "list-type parameter 'n' does not have a repeat policy set")
  /\ build_argument_list (cab_n (Some "repeat"))
    = Ok [VList [VStr "--n"; VStr "1"]; VList [VStr "--n"; VStr "2"]].
Proof.
  repeat split; vm_compute; reflexivity.
Qed.

End CargoFacts.

(* ================================================================== *)
(** * Properties of the output wranglers *)
(* ================================================================== *)

Module WranglerFacts.
Import Py Schema Cargo Examples.

Section Facts.

Context {regex : Type}.
Variable re_search : regex -> string -> bool.
Variable re_sub : regex -> string -> string -> result string.

Local Abbreviation wrangle := (wrangle re_search re_sub) (only parsing).
Local Abbreviation apply_output_wranglers :=
  (apply_output_wranglers re_search re_sub) (only parsing).
Local Abbreviation feed := (feed re_search re_sub) (only parsing).

(** ** The rules are run one after the other *)

Lemma wrangle_app :
  forall output rules1 rules2 w,
    wrangle output (rules1 ++ rules2) w =
    match wrangle output rules1 w with
    | (Ok w1, _) => wrangle output rules2 w1
    | (Raise e, s) => (Raise e, s)
    end.
Proof.
  intros output rules1 rules2.
  induction rules1 as [|[[r replace] actions] rules1 IH]; intros w.
  - reflexivity.
  - cbn [app Cargo.wrangle].
    destruct (re_search r output); [|apply IH].
    destruct replace as [repl|].
    + destruct (re_sub r repl output); [apply IH | reflexivity].
    + apply IH.
Qed.

(** ** A verdict, once given, stays *)

Lemma apply_action_keeps_verdict :
  forall w a b,
    runtime_status w = Some b -> runtime_status (apply_action w a) = Some b.
Proof.
  intros w a b H. destruct a; cbn; try exact H; rewrite H; exact H.
Qed.

Lemma actions_keep_verdict :
  forall actions w b,
    runtime_status w = Some b ->
    runtime_status (fold_left apply_action actions w) = Some b.
Proof.
  induction actions as [|a actions IH]; intros w b H; cbn.
  - exact H.
  - apply IH, apply_action_keeps_verdict, H.
Qed.

Lemma wrangle_keeps_verdict :
  forall output rules w b,
    runtime_status w = Some b -> snd (wrangle output rules w) = Some b.
Proof.
  intros output rules.
  induction rules as [|[[r replace] actions] rules IH]; intros w b H.
  - exact H.
  - cbn [Cargo.wrangle].
    destruct (re_search r output); [|apply IH, H].
    destruct replace as [repl|].
    + destruct (re_sub r repl output); [|exact H].
      apply IH, actions_keep_verdict. exact H.
    + apply IH, actions_keep_verdict. exact H.
Qed.

Lemma apply_output_wranglers_status :
  forall self output sev,
    self_runtime_status (snd (apply_output_wranglers self output sev))
    = snd (wrangle output (self_wranglers self)
             (start output sev (self_runtime_status self))).
Proof.
  intros self output sev. unfold Cargo.apply_output_wranglers, start.
  destruct (wrangle output (self_wranglers self) _) as [r status].
  reflexivity.
Qed.

Lemma apply_output_wranglers_keeps_verdict :
  forall self output sev b,
    self_runtime_status self = Some b ->
    self_runtime_status (snd (apply_output_wranglers self output sev)) = Some b.
Proof.
  intros self output sev b H.
  rewrite apply_output_wranglers_status.
  apply wrangle_keeps_verdict. exact H.
Qed.

(** C5.  Once the runtime status is success or failure, no sequence of
    calls of [apply_output_wranglers] changes it, whatever the rules and
    the lines; [reset_runtime_status] returns it to unknown. *)
Theorem first_verdict_wins :
  forall (self : Cab regex) (b : bool) (lines : list (string * Z)),
    self_runtime_status self = Some b ->
    self_runtime_status (feed self lines) = Some b
    /\ self_runtime_status (reset_runtime_status (feed self lines)) = None.
Proof.
  intros self b lines H. split; [|reflexivity].
  revert self H.
  induction lines as [|[output sev] lines IH]; intros self H.
  - exact H.
  - cbn [Cargo.feed].
    apply IH, apply_output_wranglers_keeps_verdict, H.
Qed.

(** C4, as the code has it.  Whether a rule fires is decided on the line
    as it was passed in, and the replacement of a firing rule rewrites that
    same line: the text the earlier rules produced is replaced, and only
    the verdict markers of the rule's own actions are put before the new
    text. *)
Theorem wranglers_read_the_original_line :
  forall output rules r replace actions w w1 s1,
    wrangle output rules w = (Ok w1, s1) ->
    wrangle output (rules ++ [(r, replace, actions)]) w =
    if re_search r output then
      match match replace with
            | Some repl => re_sub r repl output
            | None => Ok (modified_output w1)
            end with
      | Ok m =>
          let w2 :=
            fold_left apply_action actions
              {| suppress := suppress w1; modified_output := m;
                 severity := severity w1; runtime_status := runtime_status w1 |} in
          (Ok w2, runtime_status w2)
      | Raise e => (Raise e, runtime_status w1)
      end
    else (Ok w1, runtime_status w1).
Proof.
  intros output rules r replace actions w w1 s1 H.
  rewrite wrangle_app, H. cbn [Cargo.wrangle].
  destruct (re_search r output); [|reflexivity].
  destruct replace as [repl|]; [destruct (re_sub r repl output)|]; reflexivity.
Qed.

End Facts.

(** The failure line, then the success line: the verdict is failure. *)
Lemma first_verdict_wins_witness :
  self_runtime_status
    (feed Literal.search Literal.sub cab_verdicts
       [("task failed", 20%Z); ("task done", 20%Z)]) = Some false
  /\ self_runtime_status
       (reset_runtime_status
          (feed Literal.search Literal.sub cab_verdicts
             [("task failed", 20%Z); ("task done", 20%Z)])) = None.
Proof.
  apply (first_verdict_wins Literal.search Literal.sub
           (snd (apply_output_wranglers Literal.search Literal.sub
                   cab_verdicts "task failed" 20%Z))
           false [("task done", 20%Z)]).
  reflexivity.
Defined.

(** On the line [xy], the rule for [y] rewrites [xy], not the [1y] the rule
    for [x] left: the result is [x2]. *)
Lemma wranglers_read_the_original_line_witness :
  wrangle Literal.search Literal.sub "xy" two_rewrites (start "xy" 20 None)
  = (Ok (start "x2" 20 None), None).
Proof.
  apply (wranglers_read_the_original_line Literal.search Literal.sub
           "xy" [("x", Some "1", [])] "y" (Some "2") []
           (start "xy" 20 None) (start "1y" 20 None) None).
  reflexivity.
Defined.

(** C4, as stated, fails on the line [xy] with the two rewriting rules: the
    code returns [x2], where rules that see the line as the earlier ones
    rewrote it return [12]. *)
Lemma later_rule_discards_earlier_rewrite :
  wrangle Literal.search Literal.sub "xy" two_rewrites (start "xy" 20 None)
    = (Ok (start "x2" 20 None), None)
  /\ wrangle_cumulative Literal.search Literal.sub two_rewrites (start "xy" 20 None)
    = (Ok (start "12" 20 None), None).
Proof. split; reflexivity. Qed.

End WranglerFacts.

(* ================================================================== *)
(** * Properties of the validator *)
(* ================================================================== *)

Module ValidateFacts.
Import Py Schema Validate Examples Notions.

(** ** Dictionaries *)

Lemma dict_get_set_same :
  forall {V} (d : dict V) k v, dict_get (dict_set d k v) k = Some v.
Proof.
  intros V d k v. induction d as [|[k' v'] d IH]; cbn.
  - rewrite String.eqb_refl. reflexivity.
  - destruct (String.eqb k' k) eqn:E; cbn; rewrite E; [reflexivity | exact IH].
Qed.

Lemma dict_get_set_other :
  forall {V} (d : dict V) k k' v,
    String.eqb k k' = false -> dict_get (dict_set d k v) k' = dict_get d k'.
Proof.
  intros V d k k' v Hk. induction d as [|[k0 v0] d IH]; cbn.
  - rewrite Hk. reflexivity.
  - destruct (String.eqb k0 k) eqn:E; cbn.
    + apply String.eqb_eq in E. subst k0. rewrite Hk. reflexivity.
    + destruct (String.eqb k0 k'); [reflexivity | exact IH].
Qed.

Lemma dict_get_In :
  forall {V} (d : dict V) k v, dict_get d k = Some v -> In (k, v) d.
Proof.
  intros V d k v. induction d as [|[k' v'] d IH]; cbn; [discriminate|].
  destruct (String.eqb k' k) eqn:E.
  - apply String.eqb_eq in E. intros [= ->]. subst. left. reflexivity.
  - intros H. right. exact (IH H).
Qed.

Lemma dict_get_None_not_In :
  forall {V} (d : dict V) k, dict_get d k = None -> ~ In k (dict_keys d).
Proof.
  intros V d k. induction d as [|[k' v'] d IH]; cbn; [tauto|].
  destruct (String.eqb k' k) eqn:E; [discriminate|].
  apply String.eqb_neq in E. intros H [Hk|Hk]; [exact (E Hk) | exact (IH H Hk)].
Qed.

Lemma not_In_dict_get :
  forall {V} (d : dict V) k, ~ In k (dict_keys d) -> dict_get d k = None.
Proof.
  intros V d k. induction d as [|[k' v'] d IH]; cbn; [reflexivity|].
  intros H. destruct (String.eqb k' k) eqn:E.
  - apply String.eqb_eq in E. tauto.
  - apply IH. tauto.
Qed.

(** ** Defaults *)

Lemma get_is_None_set_other :
  forall inputs k k' v,
    String.eqb k k' = false ->
    get_is_None (dict_set inputs k v) k' = get_is_None inputs k'.
Proof.
  intros. unfold get_is_None. rewrite dict_get_set_other by assumption.
  reflexivity.
Qed.

(** When every schema entry has a value, the loop reads no default and
    leaves the inputs as they are. *)
Lemma add_defaults_present :
  forall schemas defaults inputs,
    (forall name schema, In (name, schema) schemas ->
                         get_is_None inputs name = false) ->
    add_defaults schemas defaults inputs = Ok inputs.
Proof.
  induction schemas as [|[k s] schemas IH]; intros defaults inputs H;
    [reflexivity|].
  cbn [add_defaults]. rewrite (H k s (or_introl eq_refl)).
  apply IH. intros name schema Hin. exact (H name schema (or_intror Hin)).
Qed.

(** The loop raises at the first schema entry that has no value and no
    per-call default, and such an entry stays one until the loop reaches
    it. *)
Lemma add_defaults_raises :
  forall schemas defaults inputs name schema,
    In (name, schema) schemas ->
    get_is_None inputs name = true ->
    dict_get defaults name = None ->
    add_defaults schemas defaults inputs
    = Raise (AttributeError "'Parameter' object has no attribute 'default'").
Proof.
  induction schemas as [|[k s] schemas IH];
    intros defaults inputs name schema Hin Hn Hd; [contradiction|].
  cbn [add_defaults].
  destruct (get_is_None inputs k) eqn:Ek.
  - destruct (dict_get defaults k) as [d|] eqn:Edk; [|reflexivity].
    assert (Hk : String.eqb k name = false).
    { apply String.eqb_neq. intros ->. congruence. }
    destruct Hin as [Heq|Hin].
    + injection Heq as -> _. rewrite String.eqb_refl in Hk. discriminate.
    + apply (IH _ _ name schema Hin); [|exact Hd].
      rewrite get_is_None_set_other by exact Hk. exact Hn.
  - destruct Hin as [Heq|Hin].
    + injection Heq as -> _. congruence.
    + exact (IH _ _ name schema Hin Hn Hd).
Qed.

(** A per-call default, once given to a name, is what the loop leaves
    under that name. *)
Lemma add_defaults_keeps_default :
  forall schemas defaults inputs inputs' name d,
    dict_get defaults name = Some d ->
    dict_get inputs name = Some d ->
    add_defaults schemas defaults inputs = Ok inputs' ->
    dict_get inputs' name = Some d.
Proof.
  induction schemas as [|[k s] schemas IH];
    intros defaults inputs inputs' name d Hd Hi H.
  - injection H as <-. exact Hi.
  - cbn [add_defaults] in H.
    destruct (get_is_None inputs k); [|exact (IH _ _ _ _ _ Hd Hi H)].
    destruct (dict_get defaults k) as [dk|] eqn:Edk; [|discriminate].
    apply (IH _ _ _ _ _ Hd) in H; [exact H|].
    destruct (String.eqb k name) eqn:E.
    + apply String.eqb_eq in E. subst k.
      rewrite dict_get_set_same. congruence.
    + rewrite dict_get_set_other by exact E. exact Hi.
Qed.

Lemma add_defaults_takes_default :
  forall schemas defaults inputs inputs' name schema d,
    In (name, schema) schemas ->
    get_is_None inputs name = true ->
    dict_get defaults name = Some d ->
    add_defaults schemas defaults inputs = Ok inputs' ->
    dict_get inputs' name = Some d.
Proof.
  induction schemas as [|[k s] schemas IH];
    intros defaults inputs inputs' name schema d Hin Hn Hd H; [contradiction|].
  cbn [add_defaults] in H.
  destruct (String.eqb k name) eqn:E.
  - apply String.eqb_eq in E. subst k. rewrite Hn, Hd in H.
    apply (add_defaults_keeps_default _ _ _ _ _ _ Hd) in H; [exact H|].
    apply dict_get_set_same.
  - destruct Hin as [Heq|Hin].
    { injection Heq as -> _. rewrite String.eqb_refl in E. discriminate. }
    destruct (get_is_None inputs k).
    + destruct (dict_get defaults k) as [dk|]; [|discriminate].
      apply (IH _ _ _ _ _ d Hin) with (3 := H); [|exact Hd].
      rewrite get_is_None_set_other by exact E. exact Hn.
    + exact (IH _ _ _ _ _ _ Hin Hn Hd H).
Qed.

(** C9.  A schema entry whose supplied value is [None] and one that was
    not supplied take the same branch of the loop that adds defaults.
    With a per-call default, the entry holds that default after the loop,
    when the loop ends.  With none, the loop reads [schema.default], which
    the dataclass [Parameter] does not declare: the read raises an
    [AttributeError], where the claim has the schema's own default
    taken. *)
Theorem schema_default_is_not_an_attribute :
  forall (schemas : dict ParameterSchema) (defaults inputs : dict pyval)
         (name : string) (schema : ParameterSchema),
    In (name, schema) schemas ->
    get_is_None inputs name = true ->
    match dict_get defaults name with
    | Some d =>
        forall inputs',
          add_defaults schemas defaults inputs = Ok inputs' ->
          dict_get inputs' name = Some d
    | None =>
        add_defaults schemas defaults inputs
        = Raise (AttributeError "'Parameter' object has no attribute 'default'")
    end.
Proof.
  intros schemas defaults inputs name schema Hin Hn.
  destruct (dict_get defaults name) as [d|] eqn:Ed.
  - intros inputs' H.
    exact (add_defaults_takes_default _ _ _ _ _ _ _ Hin Hn Ed H).
  - exact (add_defaults_raises _ _ _ _ _ Hin Hn Ed).
Qed.

(** An explicit [None] with no per-call default. *)
Lemma schema_default_is_not_an_attribute_witness :
  add_defaults [("x", parameter "str" false)] [] [("x", VNone)]
  = Raise (AttributeError "'Parameter' object has no attribute 'default'").
Proof.
  apply (schema_default_is_not_an_attribute
           [("x", parameter "str" false)] [] [("x", VNone)] "x"
           (parameter "str" false)).
  - left. reflexivity.
  - reflexivity.
Defined.

(** The whole validation at this input, for an explicit [None] and for an
    omitted parameter, and with the per-call default [call]. *)
Lemma none_and_omission_at_the_default :
  validate_parameters no_files [("x", VNone)] [("x", parameter "str" false)]
      (Some []) None true true true true false tt
    = (Raise (AttributeError "'Parameter' object has no attribute 'default'"), tt)
  /\ validate_parameters no_files [] [("x", parameter "str" false)]
      (Some []) None true true true true false tt
    = (Raise (AttributeError "'Parameter' object has no attribute 'default'"), tt)
  /\ validate_parameters no_files [("x", VNone)] [("x", parameter "str" false)]
      (Some []) (Some [("x", VStr "call")]) true true true true false tt
    = (Ok [("x", VStr "call")], tt)
  /\ validate_parameters no_files [] [("x", parameter "str" false)]
      (Some []) (Some [("x", VStr "call")]) true true true true false tt
    = (Ok [("x", VStr "call")], tt).
Proof. repeat split; vm_compute; reflexivity. Qed.

(** ** A parameter validated alone *)

Section SingleParameter.

Context {FS : Type} (sys : System FS).
Variables (name : string) (schema : ParameterSchema).

Lemma check_unknown_single :
  forall value, check_unknown [(name, value)] [(name, schema)] = Ok tt.
Proof.
  intros value. cbn. unfold dict_mem. cbn. rewrite String.eqb_refl. reflexivity.
Qed.

Lemma add_defaults_single :
  forall defaults value,
    is_None value = false ->
    add_defaults [(name, schema)] defaults [(name, value)] = Ok [(name, value)].
Proof.
  intros defaults value H. cbn. unfold get_is_None. cbn.
  rewrite String.eqb_refl. destruct value; try reflexivity. discriminate.
Qed.

Lemma missing_required_single :
  forall value unresolved,
    is_None value = false ->
    missing_required [(name, schema)] [(name, value)] unresolved = [].
Proof.
  intros value unresolved H. unfold missing_required, get_is_None. cbn.
  rewrite String.eqb_refl.
  destruct value; try discriminate; rewrite Bool.andb_false_r; reflexivity.
Qed.

Lemma make_fields_single :
  forall value t,
    is_None value = false ->
    eval_dtype (dtype schema) = Evaluated t ->
    make_fields [(name, schema)] [(name, value)]
    = Ok ([(name, t)], [(name, to_container value)]).
Proof.
  intros value t H Ht. cbn [make_fields dict_get]. rewrite String.eqb_refl, Ht.
  destruct value; try discriminate; cbn [dict_set]; rewrite String.eqb_refl;
    reflexivity.
Qed.

(** The record class of a single field with a plain name. *)
Lemma make_dataclass_single :
  forall t,
    field_name name = true ->
    make_dataclass [(name, t)] = Ok tt /\ pydantic_dataclass [(name, t)] = Ok tt.
Proof.
  intros t H. unfold field_name in H.
  apply andb_prop in H as [H Hs]. apply andb_prop in H as [H Hk].
  apply andb_prop in H as [Ha Hi].
  apply negb_true_iff in Hs. apply negb_true_iff in Hk.
  unfold make_dataclass, pydantic_dataclass.
  cbn [check_field_names existsb fst]. rewrite Ha, Hi, Hk, Hs. split; reflexivity.
Qed.

Lemma file_pass_single :
  forall check_exist expand_globs create_dirs t value fs,
    file_pass sys check_exist expand_globs create_dirs
      [(name, schema)] [(name, t)] [(name, value)] fs
    = if is_None value || is_Error value then (Ok [(name, value)], fs)
      else match check_files sys check_exist expand_globs create_dirs
                   name value schema t fs with
           | (Ok v, fs') => (Ok [(name, v)], fs')
           | (Raise e, fs') => (Raise e, fs')
           end.
Proof.
  intros. cbn [file_pass dict_get]. rewrite !String.eqb_refl.
  destruct (is_None value || is_Error value); [reflexivity|].
  unfold io_bind.
  destruct (check_files sys check_exist expand_globs create_dirs
              name value schema t fs) as [[v|e] fs']; reflexivity.
Qed.

Lemma validate_fields_single :
  forall t value,
    is_None value = false ->
    validate_fields [(name, t)] [(name, value)]
    = match validate_field t value with
      | Valid v => Ok ([(name, v)], [])
      | Invalid es => bind (error_texts name es) (fun ts => Ok ([], (ts ++ [])%list))
      | Unknown w => Raise (OutsideModel w)
      end.
Proof.
  intros t value H. cbn [validate_fields dict_get]. rewrite String.eqb_refl.
  destruct value; try discriminate;
    match goal with |- context [validate_field t ?v] =>
      destruct (validate_field t v) end; reflexivity.
Qed.

Lemma check_choices_single :
  forall value,
    check_choices [(name, schema)] [(name, value)]
    = if truthy (VList (choices schema)) && negb (contains (choices schema) value)
      then Raise (ParameterValidationError
                    (name ++ ": invalid value '" ++ str value ++ "'"))
      else Ok tt.
Proof.
  intros value. cbn [check_choices dict_get]. rewrite String.eqb_refl.
  destruct (truthy (VList (choices schema)) && negb (contains (choices schema) value));
    reflexivity.
Qed.

(** With [create_dirs], the directives are read for the first validated
    entry, and the read raises. *)
Lemma mkdir_pass_single :
  forall value fs,
    mkdir_pass sys [(name, schema)] [(name, value)] fs
    = (Raise (AttributeError "'Parameter' object has no attribute 'mkdir'"), fs).
Proof.
  intros value fs. cbn [mkdir_pass dict_get]. rewrite String.eqb_refl.
  reflexivity.
Qed.

Lemma resolve_inputs_single :
  forall value defaults check_unknowns,
    is_None value = false ->
    is_Unresolved value = false ->
    match value with VStr s => has_substitution s = false | _ => True end ->
    resolve_inputs [(name, value)] [(name, schema)] None defaults check_unknowns
    = Ok ([(name, value)], [], 0).
Proof.
  intros value defaults cu Hn Hu Hs. unfold resolve_inputs.
  rewrite check_unknown_single.
  replace (if cu then Ok tt else Ok tt) with (@Ok unit tt) by (destruct cu; reflexivity).
  cbn [bind filter snd]. rewrite Hu. cbn [negb].
  rewrite add_defaults_single by exact Hn. cbn [bind].
  destruct value; try reflexivity.
  cbn [move_unresolved]. rewrite Hs. reflexivity.
Qed.

(** The stages after resolution, without [create_dirs], for a parameter
    with a plain name whose value the file check leaves as [value']. *)
Lemma validate_resolved_single :
  forall check_required check_exist expand_globs t value value' fs,
    field_name name = true ->
    is_None value = false ->
    eval_dtype (dtype schema) = Evaluated t ->
    file_pass sys check_exist expand_globs false
      [(name, schema)] [(name, t)] [(name, to_container value)] fs
      = (Ok [(name, value')], fs) ->
    is_None value' = false ->
    validate_resolved sys [(name, schema)]
      check_required check_exist expand_globs false [(name, value)] [] fs
    = match validate_field t value' with
      | Valid v =>
          if truthy (VList (choices schema)) && negb (contains (choices schema) v)
          then (Raise (ParameterValidationError
                         (name ++ ": invalid value '" ++ str v ++ "'")), fs)
          else (Ok [(name, v)], fs)
      | Invalid es =>
          match error_texts name es with
          | Ok [] => (Ok [], fs)
          | Ok (t :: ts) =>
              (Raise (ParameterValidationError (join ", " (t :: ts))), fs)
          | Raise e => (Raise e, fs)
          end
      | Unknown w => (Raise (OutsideModel w), fs)
      end.
Proof.
  intros cr ce eg t value value' fs Hname Hv Ht Hfile Hv'.
  destruct (make_dataclass_single t Hname) as [Hmd Hpd].
  unfold validate_resolved, io_bind, lift.
  rewrite missing_required_single by exact Hv.
  cbn [ret]. rewrite (make_fields_single value t Hv Ht), Hmd, Hpd, Hfile.
  rewrite validate_fields_single by exact Hv'.
  destruct (validate_field t value') as [v|es|w]; [| |reflexivity].
  - rewrite check_choices_single.
    destruct (truthy (VList (choices schema)) && negb (contains (choices schema) v));
      reflexivity.
  - cbn [bind]. destruct (error_texts name es) as [ts|e]; [|reflexivity].
    cbn [bind]. rewrite app_nil_r. destruct ts; reflexivity.
Qed.

End SingleParameter.

(** ** Files that are not found *)

(** C8.  For a value of a file type (scalar or list) that is a pattern the
    YAML reader does not take for a list and that matches no path: when the
    parameter is required and [check_exist] is set, the check raises a
    [ParameterValidationError]; otherwise the value becomes the empty string
    (the empty list for a list-of-files type) and nothing else is done for
    the parameter: no existence check, no directory made.  For a parameter
    of type [File] with a plain name, validated alone without
    [create_dirs], the whole validation fails in the first case and
    returns the empty string in the second. *)
Theorem no_files_found :
  forall (FS : Type) (sys : System FS) (fs : FS)
         (check_unknowns check_required check_exist create_dirs : bool)
         (name pattern : string) (schema : ParameterSchema) (dtype : dtype_impl)
         (is_required : bool),
    is_file dtype || is_file_list dtype = true ->
    yaml_safe_load sys pattern = None ->
    glob_glob sys fs pattern = [] ->
    has_substitution pattern = false ->
    field_name name = true ->
    check_files sys check_exist true create_dirs name (VStr pattern) schema dtype fs
    = (if required schema && check_exist
       then (Raise (ParameterValidationError
                      ("'" ++ name ++ "': no files found for '" ++ pattern ++ "'")),
             fs)
       else (Ok (if is_file_list dtype then VList [] else VStr ""), fs))
    /\ validate_parameters sys [(name, VStr pattern)]
         [(name, parameter "File" is_required)] None None
         check_unknowns check_required check_exist true false fs
       = (if is_required && check_exist
          then (Raise (ParameterValidationError
                         ("'" ++ name ++ "': no files found for '" ++ pattern ++ "'")),
                fs)
          else (Ok [(name, VStr "")], fs)).
Proof.
  intros FS sys fs cu cr ce cd name pattern schema dtype req
    Hft Hyaml Hglob Hsub Hname.
  assert (Hcheck : forall cd schema dtype,
            is_file dtype || is_file_list dtype = true ->
            check_files sys ce true cd name (VStr pattern) schema dtype fs
            = (if required schema && ce
               then (Raise (ParameterValidationError
                              ("'" ++ name ++ "': no files found for '"
                               ++ pattern ++ "'")), fs)
               else (Ok (if is_file_list dtype then VList [] else VStr ""), fs))).
  { intros cd' schema' dtype' H. unfold check_files, io_bind, find_files.
    rewrite H, Hyaml, Hglob. cbn [sorted fold_right map].
    destruct (required schema' && ce); reflexivity. }
  split; [apply Hcheck, Hft|].
  destruct (make_dataclass_single name TFile Hname) as [Hmd Hpd].
  unfold validate_parameters, io_bind, lift.
  rewrite resolve_inputs_single by (reflexivity || exact Hsub).
  unfold validate_resolved, io_bind, lift.
  rewrite missing_required_single by reflexivity. cbn [ret].
  rewrite (make_fields_single name _ (VStr pattern) TFile) by reflexivity.
  rewrite Hmd, Hpd.
  cbn [to_container]. rewrite file_pass_single. cbn [is_None is_Error orb].
  rewrite Hcheck by reflexivity. cbn [required parameter is_file_list].
  destruct (req && ce); [reflexivity|].
  rewrite validate_fields_single by reflexivity.
  cbn [validate_field validate_scalar]. rewrite check_choices_single.
  reflexivity.
Qed.

(** With [no_files], the required parameter [a] of value [*.txt] fails
    when existence is checked, and becomes the empty string when not. *)
Lemma no_files_found_witness :
  validate_parameters no_files [("a", VStr "*.txt")]
      [("a", parameter "File" true)] None None true true true true false tt
    = (Raise (ParameterValidationError "'a': no files found for '*.txt'"), tt)
  /\ validate_parameters no_files [("a", VStr "*.txt")]
      [("a", parameter "File" true)] None None true true false true false tt
    = (Ok [("a", VStr "")], tt).
Proof.
  split.
  - apply (no_files_found unit no_files tt true true true false
             "a" "*.txt" (parameter "File" true) TFile true);
      reflexivity.
  - apply (no_files_found unit no_files tt true true false false
             "a" "*.txt" (parameter "File" true) TFile true);
      reflexivity.
Defined.

(** ** Substitutions that fail *)

Lemma substitute_pass_skips_Error :
  forall subst1 name m rest subst1_self changed,
    substitute_pass subst1 ((name, VError m) :: rest) subst1_self changed
    = bind (substitute_pass subst1 rest subst1_self changed)
        (fun x => match x with
                  | (rest', self', changed') =>
                      Ok ((name, VError m) :: rest', self', changed')
                  end).
Proof. reflexivity. Qed.

Lemma file_pass_skips_Error :
  forall (FS : Type) (sys : System FS) check_exist expand_globs create_dirs
         schemas dtypes name m rest fs,
    file_pass sys check_exist expand_globs create_dirs schemas dtypes
      ((name, VError m) :: rest) fs
    = match file_pass sys check_exist expand_globs create_dirs schemas dtypes
              rest fs with
      | (Ok rest', fs') => (Ok ((name, VError m) :: rest'), fs')
      | (Raise e, fs') => (Raise e, fs')
      end.
Proof.
  intros. cbn [file_pass]. destruct (dict_get schemas name); reflexivity.
Qed.

Section FailedSubstitution.

Context {FS : Type} (sys : System FS).
Variables (name : string) (schema : ParameterSchema).

Lemma resolve_inputs_failed :
  forall subst ns template m mirror defaults check_unknowns,
    SubstitutionNamespace subst = Ok ns ->
    String.eqb name "self" = false ->
    substitute_value
      (dict_set ns "self" (VMap KNamespace [(name, VStr template)])) template
      = Ok (VError m, mirror) ->
    String.eqb m template = false ->
    resolve_inputs [(name, VStr template)] [(name, schema)]
      (Some subst) defaults check_unknowns
    = Ok ([(name, VError m)], [], 2).
Proof.
  intros subst ns template m mirror defaults cu Hns Hself Hsub Hneq.
  unfold resolve_inputs. rewrite check_unknown_single.
  replace (if cu then Ok tt else Ok tt) with (@Ok unit tt) by (destruct cu; reflexivity).
  cbn [bind filter snd is_Unresolved negb].
  rewrite add_defaults_single by reflexivity. cbn [bind].
  unfold substitute. rewrite Hns. cbn [bind].
  unfold SubstitutionNamespace, dict_mem. cbn [dict_get]. rewrite Hself.
  cbn [namespace_entries namespace_value bind substitute_loop substitute_pass].
  rewrite Hsub. cbn [bind eq]. rewrite Hneq. reflexivity.
Qed.

End FailedSubstitution.

(** C10, as the code has it.  An [Error] left by a failed substitution is
    passed over by the later substitution passes and by the file check, and
    it is given to the typed record and to the choice check like any
    value: a field of type [str] or of a file type takes it as it is, and
    the validation then fails the choice check when the schema has choices
    and the text of the [Error] is not one of them; when the text is one of
    them, or there are no choices, the [Error] is returned to the caller;
    and a field of another type parses the text first, which fails the
    typed record before any choice is looked at.  Stated for a parameter
    with a plain name, validated alone without [create_dirs]. *)
Theorem failed_substitution_reaches_the_checks :
  forall (FS : Type) (sys : System FS) (fs : FS)
         (subst ns : dict pyval) (name template m mirror : string)
         (schema : ParameterSchema) (t : dtype_impl)
         (check_unknowns check_required check_exist expand_globs : bool),
    SubstitutionNamespace subst = Ok ns ->
    String.eqb name "self" = false ->
    field_name name = true ->
    substitute_value
      (dict_set ns "self" (VMap KNamespace [(name, VStr template)])) template
      = Ok (VError m, mirror) ->
    String.eqb m template = false ->
    eval_dtype (dtype schema) = Evaluated t ->
    validate_parameters sys [(name, VStr template)] [(name, schema)]
      (Some subst) None
      check_unknowns check_required check_exist expand_globs false fs
    = match validate_field t (VError m) with
      | Valid v =>
          if truthy (VList (choices schema)) && negb (contains (choices schema) v)
          then (Raise (ParameterValidationError
                         (name ++ ": invalid value '" ++ str v ++ "'")), fs)
          else (Ok [(name, v)], fs)
      | Invalid es =>
          match error_texts name es with
          | Ok [] => (Ok [], fs)
          | Ok (e :: errors) =>
              (Raise (ParameterValidationError (join ", " (e :: errors))), fs)
          | Raise e => (Raise e, fs)
          end
      | Unknown w => (Raise (OutsideModel w), fs)
      end
    /\ (t = TStr \/ is_file t = true -> validate_field t (VError m) = Valid (VError m)).
Proof.
  intros FS sys fs subst ns name template m mirror schema t cu cr ce eg
    Hns Hself Hname Hsub Hneq Ht.
  split.
  - unfold validate_parameters, io_bind, lift.
    rewrite (resolve_inputs_failed name schema subst ns template m mirror)
      by assumption.
    apply (validate_resolved_single sys name schema cr ce eg t
             (VError m) (VError m) fs); try assumption; try reflexivity.
    cbn [to_container]. rewrite file_pass_single. reflexivity.
  - intros [-> | H]; [reflexivity|].
    destruct t; try discriminate; reflexivity.
Qed.

(** The parameter [a] of value [{b}], with nothing named [b] to
    substitute, and the choice [x]: the choice check fails on the text of
    the [KeyError]. *)
Lemma failed_substitution_reaches_the_checks_witness :
  validate_parameters no_files [("a", VStr "{b}")]
      [("a", with_choices (parameter "str" false) [VStr "x"])]
      (Some []) None true true true true false tt
  = (Raise (ParameterValidationError "a: invalid value ''b''"), tt).
Proof.
  apply (failed_substitution_reaches_the_checks unit no_files tt
           [] [] "a" "{b}" "'b'" "ERR"
           (with_choices (parameter "str" false) [VStr "x"]) TStr
           true true true true);
    reflexivity.
Defined.

(** C10, as stated, fails: an [Error] whose text is one of the choices
    passes the choice check and is returned, and an [Error] in a field of
    type [int] is refused by the typed record, not by the choice check. *)
Lemma failed_substitution_can_pass_the_choice_check :
  validate_parameters no_files [("a", VStr "{b}")]
      [("a", with_choices (parameter "str" false) [VStr "'b'"])]
      (Some []) None true true true true false tt
    = (Ok [("a", VError "'b'")], tt)
  /\ validate_parameters no_files [("n", VStr "{b}")]
      [("n", with_choices (parameter "int" false) [VInt 1; VInt 2])]
      (Some []) None true true true true false tt
    = (Raise (ParameterValidationError "'n': value is not a valid integer"), tt).
Proof. split; vm_compute; reflexivity. Qed.

(** ** Substitution among parameters *)

(** The namespace keeps the names of the entries it is built from. *)
Lemma namespace_entries_get_None :
  forall kw ns k,
    namespace_entries kw = Ok ns -> dict_get kw k = None -> dict_get ns k = None.
Proof.
  induction kw as [|[k' x] kw IH]; intros ns k H Hk.
  - injection H as <-. reflexivity.
  - cbn [namespace_entries] in H. cbn [dict_get] in Hk.
    destruct (namespace_value x) as [x'|]; [|discriminate]. cbn [bind] in H.
    destruct (namespace_entries kw) as [rest|] eqn:E; [|discriminate].
    injection H as <-. cbn [dict_get].
    destruct (String.eqb k' k); [discriminate|]. exact (IH rest k eq_refl Hk).
Qed.

Lemma namespace_entries_get_str :
  forall kw ns k s,
    namespace_entries kw = Ok ns ->
    dict_get kw k = Some (VStr s) -> dict_get ns k = Some (VStr s).
Proof.
  induction kw as [|[k' x] kw IH]; intros ns k s H Hk.
  - discriminate.
  - cbn [namespace_entries] in H. cbn [dict_get] in Hk.
    destruct (namespace_value x) as [x'|] eqn:Ex; [|discriminate]. cbn [bind] in H.
    destruct (namespace_entries kw) as [rest|] eqn:E; [|discriminate].
    injection H as <-. cbn [dict_get].
    destruct (String.eqb k' k).
    + injection Hk as ->. cbn in Ex. injection Ex as <-. reflexivity.
    + exact (IH rest k s eq_refl Hk).
Qed.

Lemma SubstitutionNamespace_entries :
  forall kw ns, SubstitutionNamespace kw = Ok ns -> namespace_entries kw = Ok ns.
Proof.
  intros kw ns. unfold SubstitutionNamespace.
  destruct (dict_mem kw "self"); [discriminate | tauto].
Qed.

(** The templates of the examples, against any keyword arguments. *)
Lemma format_self_b :
  forall kw d,
    dict_get kw "self" = Some (VMap KNamespace d) ->
    Py.format "{self.b}" [] kw
    = match dict_get d "b" with
      | Some v => Ok (str v)
      | None => Raise (AttributeError "b")
      end.
Proof.
  intros kw d H. cbv - [dict_get str]. rewrite H.
  cbv - [dict_get str]. destruct (dict_get d "b"); reflexivity.
Qed.

Lemma format_self_a :
  forall kw d,
    dict_get kw "self" = Some (VMap KNamespace d) ->
    Py.format "{self.a}" [] kw
    = match dict_get d "a" with
      | Some v => Ok (str v)
      | None => Raise (AttributeError "a")
      end.
Proof.
  intros kw d H. cbv - [dict_get str]. rewrite H.
  cbv - [dict_get str]. destruct (dict_get d "a"); reflexivity.
Qed.

Lemma format_key_b :
  forall kw,
    Py.format "{b}" [] kw
    = match dict_get kw "b" with
      | Some v => Ok (str v)
      | None => Raise (KeyError "b")
      end.
Proof.
  intros kw. cbv - [dict_get str]. destruct (dict_get kw "b"); reflexivity.
Qed.

Lemma format_key_a :
  forall kw,
    Py.format "{a}" [] kw
    = match dict_get kw "a" with
      | Some v => Ok (str v)
      | None => Raise (KeyError "a")
      end.
Proof.
  intros kw. cbv - [dict_get str]. destruct (dict_get kw "a"); reflexivity.
Qed.

Lemma format_literal : forall kw, Py.format "literal" [] kw = Ok "literal".
Proof. reflexivity. Qed.


Lemma substitute_loop_two_passes :
  forall n i subst1 inputs mirror inputs1 mirror1 inputs2 mirror2,
    substitute_pass subst1 inputs mirror false = Ok (inputs1, mirror1, true) ->
    substitute_pass subst1 inputs1 mirror1 false = Ok (inputs2, mirror2, false) ->
    substitute_loop (S (S n)) i subst1 inputs mirror = Ok (inputs2, S (S i)).
Proof.
  intros n i subst1 inputs mirror inputs1 mirror1 inputs2 mirror2 H1 H2.
  cbn [substitute_loop]. rewrite H1. cbn [bind]. rewrite H2. reflexivity.
Qed.

(** The stages before the substitution loop, for inputs that need no
    default and hold no [self]. *)
Lemma resolve_inputs_substitute :
  forall params schemas subst ns check_unknowns,
    check_unknown params schemas = Ok tt ->
    filter (fun nv => negb (is_Unresolved (snd nv))) params = params ->
    filter (fun nv => is_Unresolved (snd nv)) params = [] ->
    add_defaults schemas [] params = Ok params ->
    SubstitutionNamespace subst = Ok ns ->
    SubstitutionNamespace params = Ok params ->
    resolve_inputs params schemas (Some subst) None check_unknowns
    = bind (substitute_loop 10 0 ns params params)
        (fun r => Ok (fst r, [], snd r)).
Proof.
  intros params schemas subst ns cu Hu Hf1 Hf2 Hd Hns Hp.
  unfold resolve_inputs. rewrite Hu.
  replace (if cu then Ok tt else Ok tt) with (@Ok unit tt) by (destruct cu; reflexivity).
  cbn [bind]. rewrite Hf1, Hf2, Hd. cbn [bind]. unfold substitute. rewrite Hns, Hp.
  cbn [bind]. destruct (substitute_loop 10 0 ns params params) as [[r n]|];
    reflexivity.
Qed.

Ltac pass_step :=
  cbn [substitute_pass]; unfold substitute_value;
  repeat first
    [ rewrite (format_self_b _ _ (dict_get_set_same _ "self" _))
    | rewrite (format_self_a _ _ (dict_get_set_same _ "self" _))
    | rewrite format_literal
    | rewrite format_key_a, dict_get_set_other by reflexivity
    | rewrite format_key_b, dict_get_set_other by reflexivity
    | progress cbn [dict_get dict_set String.eqb Ascii.eqb Bool.eqb str repr
                    bind eq negb substitute_pass is_exception exn_str] ].

Lemma KeyError_text_a : exn_str (KeyError "a") = "'a'".
Proof. reflexivity. Qed.

Lemma KeyError_text_b : exn_str (KeyError "b") = "'b'".
Proof. reflexivity. Qed.

(** C3, as the code has it.  A parameter refers to another through the
    [self] entry of the namespace: for [a = {self.b}] and [b = literal],
    with any namespace supplied, the substitution reaches the fixed point
    [a = literal], [b = literal] in two passes, the second finding nothing
    to change, and both values are returned as plain strings.  The text
    [{b}] is looked up in the supplied namespace itself: it gives the same
    result when that namespace has [b = literal], and leaves [a] an
    [Error] when that namespace has no [b].  The validations are stated
    without [create_dirs]. *)
Theorem reference_resolves_in_two_passes :
  forall (FS : Type) (sys : System FS) (fs : FS) (subst ns : dict pyval)
         (check_unknowns check_required check_exist expand_globs : bool),
    SubstitutionNamespace subst = Ok ns ->
    resolve_inputs [("a", VStr "{self.b}"); ("b", VStr "literal")] schemas_ab
      (Some subst) None check_unknowns
      = Ok ([("a", VStr "literal"); ("b", VStr "literal")], [], 2)
    /\ validate_parameters sys [("a", VStr "{self.b}"); ("b", VStr "literal")]
         schemas_ab (Some subst) None
         check_unknowns check_required check_exist expand_globs false fs
       = (Ok [("a", VStr "literal"); ("b", VStr "literal")], fs)
    /\ (dict_get subst "b" = Some (VStr "literal") ->
        validate_parameters sys [("a", VStr "{b}"); ("b", VStr "literal")]
          schemas_ab (Some subst) None
          check_unknowns check_required check_exist expand_globs false fs
        = (Ok [("a", VStr "literal"); ("b", VStr "literal")], fs))
    /\ (dict_get subst "b" = None ->
        validate_parameters sys [("a", VStr "{b}"); ("b", VStr "literal")]
          schemas_ab (Some subst) None
          check_unknowns check_required check_exist expand_globs false fs
        = (Ok [("a", VError "'b'"); ("b", VStr "literal")], fs)).
Proof.
  intros FS sys fs subst ns cu cr ce eg Hns.
  assert (H1 : resolve_inputs [("a", VStr "{self.b}"); ("b", VStr "literal")]
                 schemas_ab (Some subst) None cu
               = Ok ([("a", VStr "literal"); ("b", VStr "literal")], [], 2)).
  { rewrite (resolve_inputs_substitute _ _ subst ns) by (reflexivity || exact Hns).
    rewrite (substitute_loop_two_passes 8 0 ns _ _
               [("a", VStr "literal"); ("b", VStr "literal")]
               [("a", VStr "literal"); ("b", VStr "literal")]
               [("a", VStr "literal"); ("b", VStr "literal")]
               [("a", VStr "literal"); ("b", VStr "literal")]);
      [reflexivity | pass_step; reflexivity | pass_step; reflexivity]. }
  split; [exact H1|]. split; [|split].
  - unfold validate_parameters, io_bind, lift. rewrite H1. reflexivity.
  - intros Hb.
    pose proof (namespace_entries_get_str subst ns "b" "literal"
                  (SubstitutionNamespace_entries _ _ Hns) Hb) as Hnb.
    unfold validate_parameters, io_bind, lift.
    rewrite (resolve_inputs_substitute _ _ subst ns) by (reflexivity || exact Hns).
    rewrite (substitute_loop_two_passes 8 0 ns _ _
               [("a", VStr "literal"); ("b", VStr "literal")]
               [("a", VStr "literal"); ("b", VStr "literal")]
               [("a", VStr "literal"); ("b", VStr "literal")]
               [("a", VStr "literal"); ("b", VStr "literal")]);
      [reflexivity | pass_step; rewrite Hnb; pass_step; reflexivity
      | pass_step; reflexivity].
  - intros Hb.
    pose proof (namespace_entries_get_None subst ns "b"
                  (SubstitutionNamespace_entries _ _ Hns) Hb) as Hnb.
    unfold validate_parameters, io_bind, lift.
    rewrite (resolve_inputs_substitute _ _ subst ns) by (reflexivity || exact Hns).
    rewrite (substitute_loop_two_passes 8 0 ns _ _
               [("a", VError "'b'"); ("b", VStr "literal")]
               [("a", VStr "ERR"); ("b", VStr "literal")]
               [("a", VError "'b'"); ("b", VStr "literal")]
               [("a", VStr "ERR"); ("b", VStr "literal")]);
      [reflexivity | | reflexivity].
    cbn [substitute_pass]. unfold substitute_value.
    rewrite format_key_b, dict_get_set_other, Hnb by reflexivity.
    cbn [is_exception]. rewrite KeyError_text_b.
    cbn [bind eq String.eqb Ascii.eqb Bool.eqb negb dict_set substitute_pass].
    rewrite format_literal. reflexivity.
Qed.

(** With the empty namespace supplied. *)
Lemma reference_resolves_in_two_passes_witness :
  validate_parameters no_files [("a", VStr "{self.b}"); ("b", VStr "literal")]
    schemas_ab (Some []) None true true true true false tt
  = (Ok [("a", VStr "literal"); ("b", VStr "literal")], tt).
Proof.
  apply (reference_resolves_in_two_passes unit no_files tt [] []
           true true true true).
  reflexivity.
Defined.

(** C3, as stated, fails when the supplied namespace has no [b]: [{b}] is
    then a [KeyError], and [a] is returned as an [Error]. *)
Lemma bare_reference_is_an_error :
  validate_parameters no_files [("a", VStr "{b}"); ("b", VStr "literal")]
    schemas_ab (Some []) None true true true true false tt
  = (Ok [("a", VError "'b'"); ("b", VStr "literal")], tt).
Proof. vm_compute. reflexivity. Qed.

(** The loop makes at least one pass and at most [n]. *)
Lemma substitute_loop_passes :
  forall n i subst1 inputs mirror r k,
    substitute_loop n i subst1 inputs mirror = Ok (r, k) ->
    i < k /\ k <= i + n.
Proof.
  induction n as [|n IH]; intros i subst1 inputs mirror r k H.
  - discriminate.
  - cbn [substitute_loop] in H.
    destruct (substitute_pass subst1 inputs mirror false)
      as [[[inputs' mirror'] changed]|]; [|discriminate].
    cbn [bind] in H. destruct changed.
    + apply IH in H. lia.
    + injection H as _ <-. lia.
Qed.

(** C2.  The mutual reference [a = {self.b}], [b = {self.a}] is not
    detected: with any namespace supplied, and without [create_dirs], the
    validation returns after two passes with both values the text
    [{self.a}], and raises nothing.  The texts [{b}] and [{a}] of the
    claim are looked up in the supplied namespace: when it has neither
    name, each is a [KeyError], both values become [Error]s in the first
    pass and are returned.  The loop never makes more than ten passes, and
    it raises the recursion-limit error when each of the ten changed a
    value, as for [a = x{self.a}]. *)
Theorem mutual_references_are_not_detected :
  forall (FS : Type) (sys : System FS) (fs : FS) (subst ns : dict pyval)
         (check_unknowns check_required check_exist expand_globs : bool),
    SubstitutionNamespace subst = Ok ns ->
    validate_parameters sys [("a", VStr "{self.b}"); ("b", VStr "{self.a}")]
        schemas_ab (Some subst) None
        check_unknowns check_required check_exist expand_globs false fs
      = (Ok [("a", VStr "{self.a}"); ("b", VStr "{self.a}")], fs)
    /\ (dict_get subst "a" = None -> dict_get subst "b" = None ->
        validate_parameters sys [("a", VStr "{b}"); ("b", VStr "{a}")]
          schemas_ab (Some subst) None
          check_unknowns check_required check_exist expand_globs false fs
        = (Ok [("a", VError "'b'"); ("b", VError "'a'")], fs))
    /\ (forall inputs r passes,
          substitute subst inputs = Ok (r, passes) -> 1 <= passes <= 10)
    /\ validate_parameters sys [("a", VStr "x{self.a}")]
        [("a", parameter "str" false)] (Some []) None
        check_unknowns check_required check_exist expand_globs false fs
      = (Raise recursion_limit, fs).
Proof.
  intros FS sys fs subst ns cu cr ce eg Hns.
  split; [|split; [|split]].
  - unfold validate_parameters, io_bind, lift.
    rewrite (resolve_inputs_substitute _ _ subst ns) by (reflexivity || exact Hns).
    rewrite (substitute_loop_two_passes 8 0 ns _ _
               [("a", VStr "{self.a}"); ("b", VStr "{self.a}")]
               [("a", VStr "{self.a}"); ("b", VStr "{self.a}")]
               [("a", VStr "{self.a}"); ("b", VStr "{self.a}")]
               [("a", VStr "{self.a}"); ("b", VStr "{self.a}")]).
    + reflexivity.
    + pass_step. reflexivity.
    + pass_step. reflexivity.
  - intros Ha Hb.
    pose proof (namespace_entries_get_None subst ns "a"
                  (SubstitutionNamespace_entries _ _ Hns) Ha) as Hna.
    pose proof (namespace_entries_get_None subst ns "b"
                  (SubstitutionNamespace_entries _ _ Hns) Hb) as Hnb.
    unfold validate_parameters, io_bind, lift.
    rewrite (resolve_inputs_substitute _ _ subst ns) by (reflexivity || exact Hns).
    rewrite (substitute_loop_two_passes 8 0 ns _ _
               [("a", VError "'b'"); ("b", VError "'a'")]
               [("a", VStr "ERR"); ("b", VStr "ERR")]
               [("a", VError "'b'"); ("b", VError "'a'")]
               [("a", VStr "ERR"); ("b", VStr "ERR")]).
    + reflexivity.
    + cbn [substitute_pass]. unfold substitute_value.
      rewrite format_key_b, dict_get_set_other, Hnb by reflexivity.
      cbn [is_exception]. rewrite KeyError_text_b.
      cbn [bind eq String.eqb Ascii.eqb Bool.eqb negb dict_set substitute_pass].
      rewrite format_key_a, dict_get_set_other, Hna by reflexivity.
      cbn [is_exception]. rewrite KeyError_text_a. reflexivity.
    + reflexivity.
  - intros inputs r passes H. unfold substitute in H. rewrite Hns in H.
    cbn [bind] in H.
    destruct (SubstitutionNamespace inputs); [|discriminate]. cbn [bind] in H.
    apply substitute_loop_passes in H. lia.
  - unfold validate_parameters, io_bind, lift.
    destruct cu; vm_compute; reflexivity.
Qed.

(** With the empty namespace supplied. *)
Lemma mutual_references_are_not_detected_witness :
  validate_parameters no_files [("a", VStr "{self.b}"); ("b", VStr "{self.a}")]
    schemas_ab (Some []) None true true true true false tt
  = (Ok [("a", VStr "{self.a}"); ("b", VStr "{self.a}")], tt).
Proof.
  apply (mutual_references_are_not_detected unit no_files tt [] []
           true true true true); reflexivity.
Defined.

(** ** Required parameters *)

Lemma In_dict_get :
  forall {V} (d : dict V) k v,
    NoDup (dict_keys d) -> In (k, v) d -> dict_get d k = Some v.
Proof.
  intros V d k v. induction d as [|[k' v'] d IH]; intros Hnd Hin; [contradiction|].
  cbn in Hnd. inversion Hnd as [|? ? Hk Hnd']. subst.
  cbn [dict_get]. destruct Hin as [[= -> ->]|Hin].
  - rewrite String.eqb_refl. reflexivity.
  - destruct (String.eqb k' k) eqn:E; [|exact (IH Hnd' Hin)].
    apply String.eqb_eq in E. subst k'. exfalso. apply Hk.
    change k with (fst (k, v)). apply in_map, Hin.
Qed.

(** A value that is [None] or absent in the parameters is so among the
    concrete inputs. *)
Lemma get_is_None_concrete :
  forall (params : dict pyval) name,
    get_is_None params name = true ->
    get_is_None (filter (fun nv => negb (is_Unresolved (snd nv))) params) name
    = true.
Proof.
  induction params as [|[k v] params IH]; intros name H; [reflexivity|].
  unfold get_is_None in *. cbn [dict_get] in H. cbn [filter snd].
  destruct (String.eqb k name) eqn:E.
  - destruct v; try discriminate. cbn [is_Unresolved negb dict_get].
    rewrite E. reflexivity.
  - destruct (negb (is_Unresolved v)); [|exact (IH name H)].
    cbn [dict_get]. rewrite E. exact (IH name H).
Qed.

(** C7.  The required-parameter check is not reached by a parameter
    without a value: when a schema entry, required or not, is given no
    value (it is absent from the parameters or [None]) and has no per-call
    default, and the parameters pass the check for unknown names, the
    validation raises the [AttributeError] of the read of
    [schema.default], for every setting of the other arguments, and not
    the [ParameterValidationError] of the missing parameters. *)
Theorem required_check_is_not_reached :
  forall (FS : Type) (sys : System FS) (fs : FS)
         (params : dict pyval) (schemas : dict ParameterSchema)
         (subst defaults : option (dict pyval))
         (check_unknowns check_required check_exist expand_globs create_dirs : bool)
         (name : string) (schema : ParameterSchema),
    (if check_unknowns then check_unknown params schemas else Ok tt) = Ok tt ->
    In (name, schema) schemas ->
    get_is_None params name = true ->
    dict_get (match defaults with Some d => d | None => [] end) name = None ->
    validate_parameters sys params schemas subst defaults
      check_unknowns check_required check_exist expand_globs create_dirs fs
    = (Raise (AttributeError "'Parameter' object has no attribute 'default'"),
       fs).
Proof.
  intros FS sys fs params schemas subst defaults cu cr ce eg cd name schema
    Hu Hin Hn Hd.
  unfold validate_parameters, io_bind, lift, resolve_inputs.
  rewrite Hu. cbn [bind].
  rewrite (add_defaults_raises _ _ _ name schema Hin
             (get_is_None_concrete _ _ Hn) Hd).
  reflexivity.
Qed.

(** The required parameter [a], not given. *)
Lemma required_check_is_not_reached_witness :
  validate_parameters no_files [] [("a", parameter "str" true)] None None
    true true true true false tt
  = (Raise (AttributeError "'Parameter' object has no attribute 'default'"), tt).
Proof.
  apply (required_check_is_not_reached unit no_files tt
           [] [("a", parameter "str" true)] None None true true true true false
           "a" (parameter "str" true)).
  - reflexivity.
  - left. reflexivity.
  - reflexivity.
  - reflexivity.
Defined.

(** The check itself, reached through a per-call default that is [None]:
    the message names the parameter. *)
Lemma required_check_with_a_None_default :
  validate_parameters no_files [] [("a", parameter "str" true)] None
    (Some [("a", VNone)]) true true true true false tt
  = (Raise (ParameterValidationError "missing required parameters: 'a'"), tt).
Proof. vm_compute. reflexivity. Qed.

End ValidateFacts.


(* ================================================================== *)
(** * More on the output wranglers *)
(* ================================================================== *)

Module WranglerMore.
Import Py Schema Cargo Examples Notions.

Section Facts.

Context {regex : Type}.
Variable re_compile : string -> option regex.
Variable re_search : regex -> string -> bool.
Variable re_sub : regex -> string -> string -> result string.

Local Abbreviation wrangle := (wrangle re_search re_sub) (only parsing).
Local Abbreviation apply_output_wranglers :=
  (apply_output_wranglers re_search re_sub) (only parsing).

Lemma set_runtime_status_same :
  forall self : Cab regex, set_runtime_status self (self_runtime_status self) = self.
Proof. intros []. reflexivity. Qed.

(** ** Lines that no rule matches *)

Lemma wrangle_no_match :
  forall output rules w,
    (forall r replace actions,
        In (r, replace, actions) rules -> re_search r output = false) ->
    wrangle output rules w = (Ok w, runtime_status w).
Proof.
  intros output rules w. induction rules as [|[[r replace] actions] rules IH];
    intros H.
  - reflexivity.
  - cbn [Cargo.wrangle]. rewrite (H r replace actions (or_introl eq_refl)).
    apply IH. intros r' replace' actions' Hin. apply (H r' replace' actions').
    right. exact Hin.
Qed.

(** X1.  A line that none of the task's patterns matches comes back as it
    is, with the severity it was given, and leaves the task as it was. *)
Theorem unmatched_line_passes_through :
  forall (self : Cab regex) (output : string) (sev : Z),
    (forall r replace actions,
        In (r, replace, actions) (self_wranglers self) ->
        re_search r output = false) ->
    apply_output_wranglers self output sev = (Ok (Some output, sev), self).
Proof.
  intros self output sev H. unfold Cargo.apply_output_wranglers.
  rewrite (wrangle_no_match output _ _ H). cbn.
  rewrite set_runtime_status_same. reflexivity.
Qed.

(** ** Suppression *)

Lemma apply_action_keeps_suppress :
  forall w a, suppress w = true -> suppress (apply_action w a) = true.
Proof.
  intros w a H. destruct a; cbn; try exact H; try reflexivity;
    destruct (runtime_status w); exact H.
Qed.

Lemma actions_keep_suppress :
  forall actions w,
    suppress w = true -> suppress (fold_left apply_action actions w) = true.
Proof.
  induction actions as [|a actions IH]; intros w H; cbn; [exact H|].
  apply IH, apply_action_keeps_suppress, H.
Qed.

Lemma actions_suppress :
  forall actions w,
    In ACTION_SUPPRESS actions ->
    suppress (fold_left apply_action actions w) = true.
Proof.
  induction actions as [|a actions IH]; intros w Hin; [contradiction|].
  cbn [fold_left]. destruct Hin as [Ha|Hin].
  - subst a. apply actions_keep_suppress. reflexivity.
  - apply IH, Hin.
Qed.

Lemma wrangle_keeps_suppress :
  forall output rules w w' s,
    wrangle output rules w = (Ok w', s) ->
    suppress w = true -> suppress w' = true.
Proof.
  intros output rules. induction rules as [|[[r replace] actions] rules IH];
    intros w w' s H Hs.
  - injection H as <- _. exact Hs.
  - cbn [Cargo.wrangle] in H.
    destruct (re_search r output); [|exact (IH _ _ _ H Hs)].
    destruct (match replace with
              | Some repl => re_sub r repl output
              | None => Ok (modified_output w)
              end) as [m|e]; [|discriminate].
    apply (IH _ _ _ H). apply actions_keep_suppress. exact Hs.
Qed.

Lemma wrangle_suppress :
  forall output rules w w' s r replace actions,
    wrangle output rules w = (Ok w', s) ->
    In (r, replace, actions) rules ->
    re_search r output = true ->
    In ACTION_SUPPRESS actions ->
    suppress w' = true.
Proof.
  intros output rules. induction rules as [|[[r0 replace0] actions0] rules IH];
    intros w w' s r replace actions H Hin Hr Ha; [contradiction|].
  cbn [Cargo.wrangle] in H. destruct Hin as [[= -> -> ->]|Hin].
  - rewrite Hr in H.
    destruct (match replace with
              | Some repl => re_sub r repl output
              | None => Ok (modified_output w)
              end) as [m|e]; [|discriminate].
    apply (wrangle_keeps_suppress _ _ _ _ _ H). apply actions_suppress, Ha.
  - destruct (re_search r0 output).
    + destruct (match replace0 with
                | Some repl => re_sub r0 repl output
                | None => Ok (modified_output w)
                end) as [m|e]; [|discriminate].
      exact (IH _ _ _ _ _ _ H Hin Hr Ha).
    + exact (IH _ _ _ _ _ _ H Hin Hr Ha).
Qed.

(** X2.  When a rule that matches the line carries [SUPPRESS], the call
    returns [(None, 0)], whatever the other rules rewrite, declare or set
    as severity, and wherever the rule stands; the one other outcome is the
    exception of a replacement. *)
Theorem suppress_drops_the_line :
  forall (self : Cab regex) (output : string) (sev : Z) r replace actions,
    In (r, replace, actions) (self_wranglers self) ->
    re_search r output = true ->
    In ACTION_SUPPRESS actions ->
    fst (apply_output_wranglers self output sev) = Ok (None, 0%Z)
    \/ exists e, fst (apply_output_wranglers self output sev) = Raise e.
Proof.
  intros self output sev r replace actions Hin Hr Ha.
  unfold Cargo.apply_output_wranglers.
  destruct (wrangle output (self_wranglers self) _) as [[w'|e] s] eqn:E;
    cbn [fst]; [left | right; exists e; reflexivity].
  pose proof (wrangle_suppress _ _ _ _ _ _ _ _ E Hin Hr Ha) as Hs.
  destruct w' as [sup m sv st]. cbn in Hs. subst sup. reflexivity.
Qed.

(** ** Verdicts *)

Lemma apply_action_keeps_some :
  forall w a, runtime_status w <> None -> runtime_status (apply_action w a) <> None.
Proof.
  intros w a H. destruct a; cbn; try exact H;
    destruct (runtime_status w) eqn:E; cbn; congruence.
Qed.

Lemma actions_keep_some :
  forall actions w,
    runtime_status w <> None ->
    runtime_status (fold_left apply_action actions w) <> None.
Proof.
  induction actions as [|a actions IH]; intros w H; cbn; [exact H|].
  apply IH, apply_action_keeps_some, H.
Qed.

Lemma actions_declare :
  forall actions w,
    existsb declares actions = true ->
    runtime_status (fold_left apply_action actions w) <> None.
Proof.
  induction actions as [|a actions IH]; intros w H; cbn in H; [discriminate|].
  cbn [fold_left]. destruct (declares a) eqn:Ea.
  - apply actions_keep_some.
    destruct a; try discriminate; cbn; destruct (runtime_status w) eqn:E;
      cbn; congruence.
  - apply IH. exact H.
Qed.

Lemma wrangle_keeps_some :
  forall output rules w w' s,
    wrangle output rules w = (Ok w', s) ->
    runtime_status w <> None -> runtime_status w' <> None /\ s = runtime_status w'.
Proof.
  intros output rules. induction rules as [|[[r replace] actions] rules IH];
    intros w w' s H Hs.
  - injection H as <- <-. split; [exact Hs | reflexivity].
  - cbn [Cargo.wrangle] in H.
    destruct (re_search r output); [|exact (IH _ _ _ H Hs)].
    destruct (match replace with
              | Some repl => re_sub r repl output
              | None => Ok (modified_output w)
              end) as [m|e]; [|discriminate].
    apply (IH _ _ _ H). apply actions_keep_some. exact Hs.
Qed.

Lemma wrangle_declares :
  forall output rules w w' s r replace actions,
    wrangle output rules w = (Ok w', s) ->
    In (r, replace, actions) rules ->
    re_search r output = true ->
    existsb declares actions = true ->
    s <> None.
Proof.
  intros output rules. induction rules as [|[[r0 replace0] actions0] rules IH];
    intros w w' s r replace actions H Hin Hr Ha; [contradiction|].
  cbn [Cargo.wrangle] in H. destruct Hin as [[= -> -> ->]|Hin].
  - rewrite Hr in H.
    destruct (match replace with
              | Some repl => re_sub r repl output
              | None => Ok (modified_output w)
              end) as [m|e]; [|discriminate].
    destruct (wrangle_keeps_some _ _ _ _ _ H) as [H1 ->];
      [apply actions_declare, Ha | exact H1].
  - destruct (re_search r0 output).
    + destruct (match replace0 with
                | Some repl => re_sub r0 repl output
                | None => Ok (modified_output w)
                end) as [m|e]; [|discriminate].
      exact (IH _ _ _ _ _ _ H Hin Hr Ha).
    + exact (IH _ _ _ _ _ _ H Hin Hr Ha).
Qed.

(** X3.  After a call that returns, on a line matched by a rule that
    declares success or failure, the runtime status is no longer unknown:
    it is the verdict of that rule, or the one given before it. *)
Theorem matching_verdict_rule_gives_a_verdict :
  forall (self : Cab regex) (output : string) (sev : Z)
         r replace actions (returned : option string * Z),
    In (r, replace, actions) (self_wranglers self) ->
    re_search r output = true ->
    existsb declares actions = true ->
    fst (apply_output_wranglers self output sev) = Ok returned ->
    exists verdict : bool,
      self_runtime_status (snd (apply_output_wranglers self output sev))
      = Some verdict.
Proof.
  intros self output sev r replace actions returned Hin Hr Ha.
  unfold Cargo.apply_output_wranglers.
  destruct (wrangle output (self_wranglers self) _) as [[w'|e] s] eqn:E;
    cbn [fst snd]; [|discriminate].
  intros _. pose proof (wrangle_declares _ _ _ _ _ _ _ _ E Hin Hr Ha) as Hs.
  cbn. destruct s as [b|]; [exists b; reflexivity | congruence].
Qed.

(** ** Setting up the rules *)

(** X4.  The wrangler set-up, when it succeeds, gives one rule for each
    entry of the mapping, in the order of the mapping: the pattern of the
    entry compiled, with the actions of the entry that are known action
    names. *)
Theorem setup_wranglers_keeps_the_entries :
  forall (wranglers : dict (list string)) rules,
    setup_wranglers re_compile wranglers = Ok rules ->
    map (fun rule => Some (fst (fst rule))) rules
      = map (fun entry => re_compile (fst entry)) wranglers
    /\ map snd rules = map (fun entry => known_actions (snd entry)) wranglers.
Proof.
  induction wranglers as [|[pattern actions] wranglers IH]; intros rules H.
  - injection H as <-. split; reflexivity.
  - cbn [Cargo.setup_wranglers] in H.
    destruct (scan_actions pattern actions None) as [replace|]; [|discriminate].
    cbn [bind] in H.
    destruct (re_compile pattern) as [r|] eqn:Er; [|discriminate].
    destruct (setup_wranglers re_compile wranglers) as [ws|]; [|discriminate].
    injection H as <-. destruct (IH ws eq_refl) as [H1 H2].
    cbn [map fst snd]. rewrite Er, H1, H2. split; reflexivity.
Qed.

End Facts.

Lemma unmatched_line_passes_through_witness :
  apply_output_wranglers Literal.search Literal.sub cab_verdicts "working" 20%Z
  = (Ok (Some "working", 20%Z), cab_verdicts).
Proof.
  apply (unmatched_line_passes_through Literal.search Literal.sub).
  intros r replace actions [[= <- <- <-]|[[= <- <- <-]|[]]]; reflexivity.
Defined.

(** The rule that suppresses [noise] stands after one that rewrites it. *)
Lemma suppress_drops_the_line_witness :
  fst (apply_output_wranglers Literal.search Literal.sub cab_noise
         "some noise" 20%Z) = Ok (None, 0%Z)
  \/ exists e,
       fst (apply_output_wranglers Literal.search Literal.sub cab_noise
              "some noise" 20%Z) = Raise e.
Proof.
  apply (suppress_drops_the_line Literal.search Literal.sub cab_noise
           "some noise" 20%Z "noise" None [ACTION_SUPPRESS]);
    [right; left; reflexivity | reflexivity | left; reflexivity].
Defined.

Lemma matching_verdict_rule_gives_a_verdict_witness :
  exists verdict : bool,
    self_runtime_status
      (snd (apply_output_wranglers Literal.search Literal.sub cab_verdicts
              "task failed" 20%Z)) = Some verdict.
Proof.
  apply (matching_verdict_rule_gives_a_verdict Literal.search Literal.sub
           cab_verdicts "task failed" 20%Z "failed" None
           [ACTION_DECLARE_FAILURE] (Some "[FAILURE] task failed", 40%Z));
    [left; reflexivity | reflexivity | reflexivity | reflexivity].
Defined.

Lemma setup_wranglers_keeps_the_entries_witness :
  map (fun rule : string * option string * list action => Some (fst (fst rule)))
      [("failed", Some "x", [ACTION_DECLARE_FAILURE; Level 40])]
    = map (fun entry : string * list string => Literal.compile (fst entry))
        [("failed", ["DECLARE_FAILURE"; "replace:x"; "ERROR"])]
  /\ map snd [("failed", Some "x", [ACTION_DECLARE_FAILURE; Level 40])]
    = map (fun entry : string * list string => known_actions (snd entry))
        [("failed", ["DECLARE_FAILURE"; "replace:x"; "ERROR"])].
Proof.
  apply (setup_wranglers_keeps_the_entries Literal.compile
           [("failed", ["DECLARE_FAILURE"; "replace:x"; "ERROR"])]).
  reflexivity.
Defined.

End WranglerMore.

(* ================================================================== *)
(** * More on the command compiler and on the task *)
(* ================================================================== *)

Module CargoMore.
Import Py Schema Validate Cargo Task Examples Notions.

(** ** The compiler reads the policies through [get_policy] only *)

Lemma skipped_alike :
  forall p1 p2 n1 s1 n2 s2,
    alike p1 p2 (n1, s1) (n2, s2) -> skipped p1 s1 = skipped p2 s2.
Proof.
  intros p1 p2 n1 s1 n2 s2 (_ & _ & Hi & _ & _ & H). cbn in *.
  unfold skipped. rewrite (H SKIP), (H SKIP_IMPLICITS), Hi. reflexivity.
Qed.

Lemma stringify_argument_alike :
  forall p1 p2 n1 s1 n2 s2 value_dict name value o,
    alike p1 p2 (n1, s1) (n2, s2) ->
    stringify_argument p1 value_dict name value s1 o
    = stringify_argument p2 value_dict name value s2 o.
Proof.
  intros p1 p2 n1 s1 n2 s2 value_dict name value o (_ & Hd & _ & _ & _ & H).
  cbn in *. unfold stringify_argument.
  rewrite (H FORMAT), (H FORMAT_LIST), (H SPLIT), (H REPEAT), Hd. reflexivity.
Qed.

Lemma collect_positionals_alike :
  forall p1 p2 schemas1 schemas2 pos_args value_dict,
    Forall2 (alike p1 p2) schemas1 schemas2 ->
    collect_positionals p1 schemas1 pos_args value_dict
    = collect_positionals p2 schemas2 pos_args value_dict.
Proof.
  intros p1 p2 schemas1 schemas2 pos_args value_dict H.
  revert pos_args value_dict.
  induction H as [|[n1 s1] [n2 s2] l1 l2 Ha Hl IH]; intros pos_args value_dict.
  - reflexivity.
  - cbn [collect_positionals].
    pose proof (skipped_alike _ _ _ _ _ _ Ha) as Hs.
    pose proof (fun vd name value o =>
                  stringify_argument_alike _ _ _ _ _ _ vd name value o Ha) as Hst.
    destruct Ha as (Hn & _ & _ & _ & Hr & Hp). cbn in Hn, Hr, Hp. subst n2.
    rewrite Hr, (Hp POSITIONAL), (Hp POSITIONAL_HEAD), Hs.
    destruct (dict_get value_dict n1) as [v|]; [|rewrite IH; reflexivity].
    rewrite Hst.
    destruct (truthy_bool (get_policy p2 s2 POSITIONAL)
              || truthy_bool (get_policy p2 s2 POSITIONAL_HEAD)); [|apply IH].
    destruct (negb (skipped p2 s2)); cbn [bind]; [|apply IH].
    destruct (stringify_argument p2 value_dict n1 v s2 None); cbn [bind];
      [apply IH | reflexivity].
Qed.

Lemma dict_get_alike :
  forall p1 p2 schemas1 schemas2 name,
    Forall2 (alike p1 p2) schemas1 schemas2 ->
    match dict_get schemas1 name, dict_get schemas2 name with
    | Some s1, Some s2 => alike p1 p2 (name, s1) (name, s2)
    | None, None => True
    | _, _ => False
    end.
Proof.
  intros p1 p2 schemas1 schemas2 name H.
  induction H as [|[n1 s1] [n2 s2] l1 l2 Ha Hl IH]; [exact I|].
  cbn [dict_get]. pose proof Ha as (Hn & Hrest). cbn in Hn. subst n2.
  destruct (String.eqb n1 name) eqn:E; [|exact IH].
  split; [reflexivity | exact Hrest].
Qed.

Lemma collect_options_alike :
  forall p1 p2 schemas1 schemas2 value_dict items args,
    Forall2 (alike p1 p2) schemas1 schemas2 ->
    collect_options p1 schemas1 value_dict items args
    = collect_options p2 schemas2 value_dict items args.
Proof.
  intros p1 p2 schemas1 schemas2 value_dict items args H. revert args.
  induction items as [|[name value] items IH]; intros args; [reflexivity|].
  cbn [collect_options].
  pose proof (dict_get_alike _ _ _ _ name H) as Hg.
  destruct (dict_get schemas1 name) as [s1|], (dict_get schemas2 name) as [s2|];
    try contradiction; [|reflexivity].
  rewrite (skipped_alike _ _ _ _ _ _ Hg).
  rewrite (stringify_argument_alike _ _ _ _ _ _ value_dict name value _ Hg).
  destruct Hg as (_ & Hd & _ & Hal & _ & Hp). cbn in Hd, Hal, Hp.
  rewrite (Hp PREFIX), Hd, Hal.
  destruct (skipped p2 s2); [apply IH|].
  destruct (String.eqb (dtype s2) "bool" && truthy value); [apply IH|].
  destruct (stringify_argument p2 value_dict name value s2 _); cbn [bind];
    [apply IH | reflexivity].
Qed.

Lemma build_argument_list_alike :
  forall {regex} (self : Cab regex) p1 p2 schemas1 schemas2,
    Forall2 (alike p1 p2) schemas1 schemas2 ->
    build_argument_list (set_policies self p1 schemas1)
    = build_argument_list (set_policies self p2 schemas2).
Proof.
  intros regex self p1 p2 schemas1 schemas2 H. unfold build_argument_list.
  cbn [self_policies self_inputs_outputs self_params set_policies].
  rewrite (collect_positionals_alike _ _ _ _ _ _ H).
  destruct (collect_positionals p2 schemas2 _ _) as [[pos vd]|]; [|reflexivity].
  cbn [bind]. rewrite (collect_options_alike _ _ _ _ _ _ _ H). reflexivity.
Qed.

Lemma get_policy_effective :
  forall task schema policy,
    get_policy default_policies
      (with_policies schema (effective_policies task schema)) policy
    = get_policy task schema policy.
Proof.
  intros task schema policy. unfold get_policy at 1.
  destruct policy; cbn;
    match goal with
    | |- match ?x with _ => _ end = _ => destruct x; reflexivity
    | |- _ => reflexivity
    end.
Qed.

(** X5.  The task-level policies can be folded into the parameters: the
    argument list of a task is the one of the task without task-level
    policies in which every parameter carries, field by field, its own
    policy where it is set and the task's where it is not. *)
Theorem task_policies_fold_into_the_parameters :
  forall {regex} (self : Cab regex),
    build_argument_list self
    = build_argument_list
        (set_policies self default_policies
           (map (with_effective_policies (self_policies self))
                (self_inputs_outputs self))).
Proof.
  intros regex self.
  transitivity (build_argument_list
                  (set_policies self (self_policies self)
                     (self_inputs_outputs self)));
    [destruct self; reflexivity|].
  apply build_argument_list_alike.
  induction (self_inputs_outputs self) as [|[n s] l IH]; constructor; [|exact IH].
  repeat split. intros policy. cbn [snd with_effective_policies].
  symmetry. apply get_policy_effective.
Qed.

(** X6.  The task-level [skip] and [skip_implicits] are never used: the
    argument list of a task does not change with them.  (The fields of a
    parameter are plain [bool]s, hence always set.) *)
Theorem task_level_skip_is_never_used :
  forall {regex} (self : Cab regex) (s si : bool),
    build_argument_list
      (set_policies self (with_skip (self_policies self) s si)
         (self_inputs_outputs self))
    = build_argument_list self.
Proof.
  intros regex self s si.
  transitivity (build_argument_list
                  (set_policies self (self_policies self)
                     (self_inputs_outputs self)));
    [|destruct self; reflexivity].
  apply build_argument_list_alike.
  induction (self_inputs_outputs self) as [|[n sch] l IH]; constructor; [|exact IH].
  repeat split. intros policy. destruct policy; reflexivity.
Qed.

End CargoMore.

(* ================================================================== *)
(** * The resolution of the policies *)
(* ================================================================== *)

Module PolicyFacts.
Import Py Schema Cargo Examples Notions CargoMore.

(** What [get_policy] returns is the field of the resolved record. *)
Lemma get_policy_resolved :
  forall task schema policy,
    get_policy default_policies
      (with_policies schema (resolved_policies task (Schema.policies schema)))
      policy
    = get_policy task schema policy.
Proof.
  intros task schema policy. unfold get_policy.
  destruct policy; cbn [getitem Schema.policies with_policies
                          resolved_policies default_policies
                          positional positional_head repeat prefix skip
                          skip_implicits split Schema.format format_list];
    unfold first_set;
    repeat match goal with
           | |- context [match ?x with _ => _ end] =>
               lazymatch x with
               | context [match _ with _ => _ end] => fail
               | _ => destruct x
               end
           end; reflexivity.
Qed.

(** C6.  On the fields of the two records: for each of the nine policies,
    [get_policy] returns the parameter-level field when it is set and the
    task-level field when it is not, never a combination of the two; the
    parameter-level [skip] and [skip_implicits], plain [bool]s, are always
    set and always the ones returned.  And through the compiler: the
    argument list of a task is the one of the task without task-level
    policies whose parameters carry these resolved fields, so the
    resolved value is the policy used when a parameter is compiled. *)
Theorem policies_resolve_field_by_field :
  forall {regex} (self : Cab regex) (task : ParameterPolicies)
         (schema : ParameterSchema),
    (get_policy task schema POSITIONAL
       = first_set (positional (Schema.policies schema)) (positional task)
     /\ get_policy task schema POSITIONAL_HEAD
       = first_set (positional_head (Schema.policies schema))
           (positional_head task)
     /\ get_policy task schema REPEAT
       = first_set (repeat (Schema.policies schema)) (repeat task)
     /\ get_policy task schema PREFIX
       = first_set (prefix (Schema.policies schema)) (prefix task)
     /\ get_policy task schema SKIP = Some (skip (Schema.policies schema))
     /\ get_policy task schema SKIP_IMPLICITS
       = Some (skip_implicits (Schema.policies schema))
     /\ get_policy task schema SPLIT
       = first_set (split (Schema.policies schema)) (split task)
     /\ get_policy task schema FORMAT
       = first_set (Schema.format (Schema.policies schema)) (Schema.format task)
     /\ get_policy task schema FORMAT_LIST
       = first_set (format_list (Schema.policies schema)) (format_list task))
    /\ build_argument_list self
       = build_argument_list
           (set_policies self default_policies
              (map (with_resolved_policies (self_policies self))
                   (self_inputs_outputs self))).
Proof.
  intros regex self task schema. split.
  - unfold get_policy, first_set. cbn [getitem]. repeat split;
      match goal with
      | |- match ?x with _ => _ end = _ => destruct x; reflexivity
      | |- _ => reflexivity
      end.
  - transitivity (build_argument_list
                    (set_policies self (self_policies self)
                       (self_inputs_outputs self)));
      [destruct self; reflexivity|].
    apply build_argument_list_alike.
    induction (self_inputs_outputs self) as [|[n s] l IH]; constructor;
      [|exact IH].
    repeat split. intros policy. cbn [snd with_resolved_policies].
    symmetry. apply get_policy_resolved.
Qed.

(** The parameter-level prefix wins over the task-level one, and the
    task-level repeat policy is used where the parameter has none. *)
Lemma policies_resolve_in_the_arguments :
  build_argument_list
    (set_policies
       (cab_of default_policies [] [("n", VList [VInt 1; VInt 2])])
       {| positional := None; positional_head := None;
          repeat := Some ","; prefix := Some "++";
          skip := false; skip_implicits := true; split := None;
          format := None; format_list := None |}
       [("n", with_policies (parameter "List[int]" false)
                {| positional := None; positional_head := None;
                   repeat := None; prefix := Some "-";
                   skip := false; skip_implicits := true; split := None;
                   format := None; format_list := None |})])
  = Ok [VStr "-n"; VStr "1,2"].
Proof. vm_compute. reflexivity. Qed.

End PolicyFacts.

(* ================================================================== *)
(** * The task's views of its parameters *)
(* ================================================================== *)

Module TaskFacts.
Import Py Schema Validate Cargo Task Examples Notions ValidateFacts.

(** ** Dictionaries, continued *)

Lemma dict_set_new :
  forall {V} (d : dict V) k v,
    ~ In k (dict_keys d) -> dict_set d k v = (d ++ [(k, v)])%list.
Proof.
  intros V d k v. induction d as [|[k' v'] d IH]; intros H; [reflexivity|].
  cbn in H. cbn [dict_set app].
  destruct (String.eqb k' k) eqn:E.
  - apply String.eqb_eq in E. tauto.
  - rewrite IH by tauto. reflexivity.
Qed.

Lemma dict_update_disjoint :
  forall {V} (e d : dict V),
    NoDup (dict_keys e) ->
    (forall k, In k (dict_keys d) -> ~ In k (dict_keys e)) ->
    dict_update d e = (d ++ e)%list.
Proof.
  intros V e. induction e as [|[k v] e IH]; intros d Hnd Hdis.
  - cbn. rewrite app_nil_r. reflexivity.
  - cbn in Hnd. inversion Hnd as [|? ? Hk Hnd']. subst.
    unfold dict_update. cbn [fold_left fst snd].
    rewrite dict_set_new.
    + change (fold_left _ e ?x) with (dict_update x e).
      rewrite IH; [rewrite <- app_assoc; reflexivity | exact Hnd'|].
      intros k' Hin. unfold dict_keys in Hin. rewrite map_app in Hin.
      apply in_app_or in Hin. destruct Hin as [Hin|[<-|[]]].
      * intros Hin'. apply (Hdis k' Hin). right. exact Hin'.
      * exact Hk.
    + intros Hin. apply (Hdis k Hin). left. reflexivity.
Qed.

Lemma dict_mem_In :
  forall {V} (d : dict V) k, dict_mem d k = true <-> In k (dict_keys d).
Proof.
  intros V d k. unfold dict_mem. split.
  - destruct (dict_get d k) as [v|] eqn:E; [|discriminate]. intros _.
    change k with (fst (k, v)). apply in_map, dict_get_In, E.
  - intros H. destruct (dict_get d k) eqn:E; [reflexivity|].
    exfalso. exact (dict_get_None_not_In d k E H).
Qed.

(** ** Inputs and outputs *)

Lemma check_inputs_outputs_ok :
  forall inputs outputs,
    check_inputs_outputs inputs outputs = inr tt <->
    (forall name, In name (dict_keys inputs) -> ~ In name (dict_keys outputs)).
Proof.
  intros inputs outputs. induction inputs as [|[n s] inputs IH]; cbn.
  - split; [intros _ name [] | reflexivity].
  - destruct (dict_mem outputs n) eqn:E.
    + split; [discriminate|]. intros H. exfalso.
      apply (H n (or_introl eq_refl)). apply dict_mem_In, E.
    + rewrite IH. split.
      * intros H name [<-|Hin]; [|exact (H name Hin)].
        intros Hin. apply dict_mem_In in Hin. congruence.
      * intros H name Hin. apply H. right. exact Hin.
Qed.

(** X7.  [Cargo.__post_init__] accepts the inputs and outputs exactly when
    no name is in both; the merged view [inputs_outputs] is then the
    inputs followed by the outputs, each entry as declared. *)
Theorem inputs_outputs_of_an_accepted_task :
  forall (inputs outputs : dict ParameterSchema),
    NoDup (dict_keys outputs) ->
    (check_inputs_outputs inputs outputs = inr tt <->
     (forall name, In name (dict_keys inputs) -> ~ In name (dict_keys outputs)))
    /\ (check_inputs_outputs inputs outputs = inr tt ->
        inputs_outputs inputs outputs = (inputs ++ outputs)%list).
Proof.
  intros inputs outputs Hnd. split; [apply check_inputs_outputs_ok|].
  intros H. apply dict_update_disjoint; [exact Hnd|].
  apply check_inputs_outputs_ok, H.
Qed.

(** ** Missing parameters *)

Lemma dict_get_del_None :
  forall {V} (d : dict V) k k',
    dict_get d k' = None -> dict_get (dict_del d k) k' = None.
Proof.
  intros V d k k'. induction d as [|[k0 v0] d IH]; cbn; [reflexivity|].
  destruct (String.eqb k0 k') eqn:E; [discriminate|]. intros H.
  destruct (String.eqb k0 k); [exact H|]. cbn. rewrite E. exact (IH H).
Qed.

Lemma collect_positionals_missing :
  forall policies schemas pos_args value_dict name schema,
    In (name, schema) schemas ->
    required schema = true ->
    dict_get value_dict name = None ->
    exists e, collect_positionals policies schemas pos_args value_dict = Raise e.
Proof.
  intros policies schemas. induction schemas as [|[n s] schemas IH];
    intros pos_args value_dict name schema Hin Hreq Hget; [contradiction|].
  cbn [collect_positionals]. destruct Hin as [[= -> ->]|Hin].
  - rewrite Hget, Hreq. eexists. reflexivity.
  - destruct (dict_get value_dict n) as [v|].
    + destruct (truthy_bool (get_policy policies s POSITIONAL)
                || truthy_bool (get_policy policies s POSITIONAL_HEAD));
        [|exact (IH _ _ _ _ Hin Hreq Hget)].
      destruct (if negb (skipped policies s) then _ else _) as [pos'|e];
        cbn [bind]; [|eexists; reflexivity].
      apply (IH _ _ _ _ Hin Hreq). apply dict_get_del_None, Hget.
    + destruct (required s); [eexists; reflexivity|].
      exact (IH _ _ _ _ Hin Hreq Hget).
Qed.

(** X8.  A task with a missing parameter (a required schema entry whose
    name is not among the parameters) has no argument list:
    [build_argument_list] raises. *)
Theorem missing_param_stops_the_compilation :
  forall {regex} (self : Cab regex) (name : string) (schema : ParameterSchema),
    In (name, schema)
       (missing_params (self_inputs_outputs self) (self_params self)) ->
    exists e, build_argument_list self = Raise e.
Proof.
  intros regex self name schema Hin. unfold missing_params in Hin.
  apply filter_In in Hin. destruct Hin as [Hin Hc]. cbn [fst snd] in Hc.
  apply andb_true_iff in Hc. destruct Hc as [Hreq Hmem].
  unfold dict_mem in Hmem.
  destruct (dict_get (self_params self) name) eqn:E; [discriminate|].
  destruct (collect_positionals_missing (self_policies self) _ ([], [])
              _ _ _ Hin Hreq E) as [e He].
  exists e. unfold build_argument_list. rewrite He. reflexivity.
Qed.

(** ** The namespace of the task *)

Lemma dict_get_map_values :
  forall {V W} (f : V -> W) (d : dict V) k,
    dict_get (map (fun nv => (fst nv, f (snd nv))) d) k
    = option_map f (dict_get d k).
Proof.
  intros V W f d k. induction d as [|[k' v] d IH]; cbn; [reflexivity|].
  destruct (String.eqb k' k); [reflexivity | exact IH].
Qed.

Lemma dict_update_get_other :
  forall {V} (e d : dict V) k,
    ~ In k (dict_keys e) -> dict_get (dict_update d e) k = dict_get d k.
Proof.
  intros V e. induction e as [|[k' v] e IH]; intros d k H; [reflexivity|].
  cbn in H. unfold dict_update. cbn [fold_left fst snd].
  change (fold_left _ e ?x) with (dict_update x e).
  rewrite IH by tauto. apply dict_get_set_other. apply String.eqb_neq. tauto.
Qed.

Lemma dict_update_get_constant :
  forall {V} (e d : dict V) k v,
    (forall v', In (k, v') e -> v' = v) ->
    dict_get d k = Some v \/ In k (dict_keys e) ->
    dict_get (dict_update d e) k = Some v.
Proof.
  intros V e. induction e as [|[k' v'] e IH]; intros d k v Hall H.
  - destruct H as [H|[]]. exact H.
  - unfold dict_update. cbn [fold_left fst snd].
    change (fold_left _ e ?x) with (dict_update x e).
    apply IH; [intros v0 Hin; apply Hall; right; exact Hin|].
    destruct (String.eqb k' k) eqn:E.
    + apply String.eqb_eq in E. subst k'. left.
      rewrite (Hall v' (or_introl eq_refl)). apply dict_get_set_same.
    + rewrite dict_get_set_other by exact E.
      destruct H as [H|[H|H]]; [left; exact H | | right; exact H].
      apply String.eqb_neq in E. cbn in H. congruence.
Qed.

(** X9.  In the namespace [make_substitition_namespace] builds, a
    parameter that has a value is the text of that value, and a missing
    required parameter is the text [MISSING]; so every required parameter
    of the task has an entry, and every entry is a string. *)
Theorem substitition_namespace_entries :
  forall (inputs_outputs : dict ParameterSchema) (params : dict pyval),
    (forall name value,
        dict_get params name = Some value ->
        dict_get (substitition_entries inputs_outputs params) name
        = Some (VStr (str value)))
    /\ (forall name schema,
          In (name, schema) (missing_params inputs_outputs params) ->
          dict_get (substitition_entries inputs_outputs params) name
          = Some (VStr "MISSING"))
    /\ (forall name schema,
          In (name, schema) inputs_outputs -> required schema = true ->
          exists text,
            dict_get (substitition_entries inputs_outputs params) name
            = Some (VStr text)).
Proof.
  intros inputs_outputs params.
  assert (H1 : forall name value,
             dict_get params name = Some value ->
             dict_get (substitition_entries inputs_outputs params) name
             = Some (VStr (str value))).
  { intros name value H. unfold substitition_entries.
    rewrite dict_update_get_other.
    - rewrite (dict_get_map_values (fun v => VStr (str v))), H. reflexivity.
    - intros Hin. unfold dict_keys in Hin. rewrite map_map in Hin. cbn in Hin.
      apply in_map_iff in Hin. destruct Hin as [[n s] [Hn Hin]]. cbn in Hn.
      subst n. apply filter_In in Hin. destruct Hin as [_ Hc]. cbn in Hc.
      apply andb_true_iff in Hc. destruct Hc as [_ Hc].
      unfold dict_mem in Hc. rewrite H in Hc. discriminate. }
  assert (H2 : forall name schema,
             In (name, schema) (missing_params inputs_outputs params) ->
             dict_get (substitition_entries inputs_outputs params) name
             = Some (VStr "MISSING")).
  { intros name schema Hin. unfold substitition_entries.
    apply dict_update_get_constant.
    - intros v' Hv. apply in_map_iff in Hv. destruct Hv as [x [[= _ <-] _]].
      reflexivity.
    - right. unfold dict_keys. rewrite map_map. cbn.
      change name with (fst (name, schema)). apply in_map, Hin. }
  split; [exact H1|]. split; [exact H2|].
  intros name schema Hin Hreq.
  destruct (dict_get params name) as [v|] eqn:E.
  - exists (str v). apply H1, E.
  - exists "MISSING". apply (H2 name schema). unfold missing_params.
    apply filter_In. split; [exact Hin|]. cbn. unfold dict_mem.
    rewrite Hreq, E. reflexivity.
Qed.

(** A required output that is not given stops the compilation. *)
Lemma missing_param_stops_the_compilation_witness :
  exists e,
    build_argument_list
      (cab_of default_policies [("out", parameter "File" true)] []) = Raise e.
Proof.
  apply (missing_param_stops_the_compilation
           (cab_of default_policies [("out", parameter "File" true)] [])
           "out" (parameter "File" true)).
  left. reflexivity.
Defined.

Lemma inputs_outputs_of_an_accepted_task_witness :
  (check_inputs_outputs [("ms", parameter "MS" true)]
     [("out", parameter "File" false)] = inr tt <->
   (forall name, In name (dict_keys [("ms", parameter "MS" true)]) ->
                 ~ In name (dict_keys [("out", parameter "File" false)])))
  /\ (check_inputs_outputs [("ms", parameter "MS" true)]
        [("out", parameter "File" false)] = inr tt ->
      inputs_outputs [("ms", parameter "MS" true)] [("out", parameter "File" false)]
      = [("ms", parameter "MS" true); ("out", parameter "File" false)]).
Proof.
  apply (inputs_outputs_of_an_accepted_task
           [("ms", parameter "MS" true)] [("out", parameter "File" false)]).
  repeat constructor. cbn. tauto.
Defined.

End TaskFacts.

(* ================================================================== *)
(** * Options without policies *)
(* ================================================================== *)

Module OptionFacts.
Import Py Schema Validate Cargo Task Examples Notions ValidateFacts.

Lemma get_policy_default :
  forall dtype required policy,
    get_policy default_policies (parameter dtype required) policy
    = getitem default_policies policy.
Proof. intros. destruct policy; reflexivity. Qed.

Lemma collect_positionals_default :
  forall schemas pos_args value_dict,
    (forall name schema, In (name, schema) schemas ->
       schema = parameter (dtype schema) (required schema)) ->
    (forall name schema, In (name, schema) schemas ->
       required schema = true -> dict_mem value_dict name = true) ->
    collect_positionals default_policies schemas pos_args value_dict
    = Ok (pos_args, value_dict).
Proof.
  induction schemas as [|[n s] schemas IH]; intros pos_args value_dict Hs Hr;
    [reflexivity|].
  cbn [collect_positionals].
  assert (IH' : collect_positionals default_policies schemas pos_args value_dict
                = Ok (pos_args, value_dict)).
  { apply IH; intros name schema Hin; [apply (Hs name) | apply (Hr name)];
      right; exact Hin. }
  pose proof (Hs n s (or_introl eq_refl)) as Es.
  pose proof (Hr n s (or_introl eq_refl)) as Er. unfold dict_mem in Er.
  destruct (dict_get value_dict n) as [v|].
  - set (d := dtype s) in *. set (r := required s) in *.
    clearbody d r. subst s. rewrite !get_policy_default. cbn. exact IH'.
  - destruct (required s); [specialize (Er eq_refl); discriminate | exact IH'].
Qed.

Lemma skipped_default :
  forall dtype required, skipped default_policies (parameter dtype required) = false.
Proof. reflexivity. Qed.

Lemma stringify_scalar_default :
  forall value_dict name value dtype required o,
    iterate value = None ->
    is_None value = false ->
    String.eqb dtype "bool" && negb (truthy value) = false ->
    stringify_argument default_policies value_dict name value
      (parameter dtype required) (Some (String "-" o))
    = Ok (VList [VStr (String "-" o); VStr (str value)]).
Proof.
  intros value_dict name value dt req o Hit Hn Hb. unfold stringify_argument.
  rewrite Hn. cbn [Schema.dtype parameter]. rewrite Hb.
  rewrite !get_policy_default. cbn [getitem default_policies split
    Schema.format format_list repeat if_str if_list].
  replace (match value with VStr _ | _ => iterate value end) with (iterate value)
    by (destruct value; reflexivity).
  rewrite Hit. reflexivity.
Qed.

Lemma collect_options_default :
  forall schemas value_dict items args,
    (forall name value, In (name, value) items ->
       iterate value = None /\
       exists schema, dict_get schemas name = Some schema
                      /\ schema = parameter (dtype schema) (required schema)) ->
    collect_options default_policies schemas value_dict items args
    = Ok (args ++ flat_map (default_tokens schemas) items)%list.
Proof.
  intros schemas value_dict items. induction items as [|[n v] items IH];
    intros args H.
  - cbn. rewrite app_nil_r. reflexivity.
  - destruct (H n v (or_introl eq_refl)) as (Hit & s & Hget & Es).
    assert (IH' : forall args,
               collect_options default_policies schemas value_dict items args
               = Ok (args ++ flat_map (default_tokens schemas) items)%list).
    { intros args'. apply IH. intros name value Hin. apply H. right. exact Hin. }
    cbn [collect_options flat_map default_tokens]. rewrite Hget.
    set (d := dtype s) in *. set (r := required s) in *.
    clearbody d r. subst s.
    rewrite skipped_default, !get_policy_default.
    cbn [getitem default_policies prefix if_str alias parameter String.eqb
         Schema.dtype append].
    destruct (String.eqb d "bool") eqn:Eb; cbn [andb].
    + destruct (truthy v) eqn:Et.
      * rewrite IH', <- app_assoc. reflexivity.
      * unfold stringify_argument. cbn [Schema.dtype parameter].
        rewrite Eb, Et. cbn [negb andb].
        destruct (is_None v); cbn [bind add_tokens]; rewrite IH'; reflexivity.
    + destruct (is_None v) eqn:En.
      * unfold stringify_argument. rewrite En.
        cbn [bind add_tokens]. rewrite IH'. reflexivity.
      * rewrite stringify_scalar_default;
          [| exact Hit | exact En | rewrite Eb; reflexivity].
        cbn [bind add_tokens]. rewrite IH', <- app_assoc. reflexivity.
Qed.

(** X10.  In a task without task-level policies whose parameters are
    declared with a type and a requiredness only, and whose values are
    scalars, the argument list is, parameter by parameter in the order of
    the parameters: the bare flag [--name] for a true value of type
    [bool], nothing for a false one or for [None], and otherwise the flag
    followed by the text of the value. *)
Theorem options_without_policies :
  forall (schemas : dict ParameterSchema) (params : dict pyval),
    (forall name schema, In (name, schema) schemas ->
       schema = parameter (dtype schema) (required schema)) ->
    (forall name schema, In (name, schema) schemas ->
       required schema = true -> dict_mem params name = true) ->
    (forall name value, In (name, value) params ->
       iterate value = None /\ dict_mem schemas name = true) ->
    build_argument_list (cab_of default_policies schemas params)
    = Ok (flat_map (default_tokens schemas) params).
Proof.
  intros schemas params Hs Hr Hp. unfold build_argument_list.
  cbn [self_policies self_inputs_outputs self_params cab_of].
  rewrite collect_positionals_default by assumption. cbn [bind fst snd].
  rewrite collect_options_default;
    [cbn [bind app]; rewrite app_nil_r; reflexivity|].
  intros name value Hin. destruct (Hp name value Hin) as [Hit Hmem].
  split; [exact Hit|]. unfold dict_mem in Hmem.
  destruct (dict_get schemas name) as [s|] eqn:E; [|discriminate].
  exists s. split; [reflexivity|]. exact (Hs name s (dict_get_In _ _ _ E)).
Qed.

Lemma options_without_policies_witness :
  build_argument_list
    (cab_of default_policies
       [("verbose", parameter "bool" false); ("quiet", parameter "bool" false);
        ("n", parameter "int" true); ("label", parameter "str" false)]
       [("n", VInt 3); ("quiet", VBool false); ("verbose", VBool true);
        ("label", VStr "a b")])
  = Ok [VStr "--n"; VStr "3"; VStr "--verbose"; VStr "--label"; VStr "a b"].
Proof.
  apply (options_without_policies
           [("verbose", parameter "bool" false); ("quiet", parameter "bool" false);
            ("n", parameter "int" true); ("label", parameter "str" false)]
           [("n", VInt 3); ("quiet", VBool false); ("verbose", VBool true);
            ("label", VStr "a b")]).
  - intros name schema [[= <- <-]|[[= <- <-]|[[= <- <-]|[[= <- <-]|[]]]]];
      reflexivity.
  - intros name schema [[= <- <-]|[[= <- <-]|[[= <- <-]|[[= <- <-]|[]]]]];
      intros; reflexivity || discriminate.
  - intros name value [[= <- <-]|[[= <- <-]|[[= <- <-]|[[= <- <-]|[]]]]];
      split; reflexivity.
Defined.

End OptionFacts.

(* ================================================================== *)
(** * More on the validator *)
(* ================================================================== *)

Module ValidateMore.
Import Py Schema Validate Cargo Task Examples Notions ValidateFacts.

(** ** Unknown parameters *)

Lemma check_unknown_find :
  forall params schemas,
    check_unknown params schemas
    = match find (fun nv => negb (dict_mem schemas (fst nv))) params with
      | Some (name, _) =>
          Raise (ParameterValidationError ("unknown parameter '" ++ name ++ "'"))
      | None => Ok tt
      end.
Proof.
  intros params schemas. induction params as [|[n v] params IH]; [reflexivity|].
  cbn [check_unknown find fst]. destruct (dict_mem schemas n); [exact IH|].
  reflexivity.
Qed.

(** X11.  With [check_unknowns] set, the first parameter, in the order of
    the parameters, whose name is not in the schemas is reported by name
    in a [ParameterValidationError], before anything else is looked at:
    whatever the other parameters, the namespace and the flags, and with
    the file system untouched. *)
Theorem first_unknown_parameter_is_reported :
  forall (FS : Type) (sys : System FS) (fs : FS)
         (params : dict pyval) (schemas : dict ParameterSchema)
         (subst defaults : option (dict pyval))
         (check_required check_exist expand_globs create_dirs : bool)
         (name : string) (value : pyval),
    find (fun nv => negb (dict_mem schemas (fst nv))) params = Some (name, value) ->
    validate_parameters sys params schemas subst defaults
      true check_required check_exist expand_globs create_dirs fs
    = (Raise (ParameterValidationError ("unknown parameter '" ++ name ++ "'")), fs).
Proof.
  intros FS sys fs params schemas subst defaults cr ce eg cd name value H.
  unfold validate_parameters, io_bind, lift, resolve_inputs.
  rewrite check_unknown_find, H. reflexivity.
Qed.

Lemma first_unknown_parameter_is_reported_witness :
  validate_parameters no_files [("a", VStr "x"); ("c", VInt 1); ("d", VInt 2)]
    schemas_ab None None true true true true false tt
  = (Raise (ParameterValidationError "unknown parameter 'c'"), tt).
Proof.
  apply (first_unknown_parameter_is_reported unit no_files tt
           [("a", VStr "x"); ("c", VInt 1); ("d", VInt 2)] schemas_ab
           None None true true true false "c" (VInt 1)).
  reflexivity.
Defined.

(** ** Choices *)

(** X12.  A parameter of type [str] with a plain name, validated alone
    without a namespace and without [create_dirs] and holding a text
    without template, is returned unchanged when the schema has no choices
    or the text is one of them, and is otherwise refused by a
    [ParameterValidationError] that names the parameter and the text. *)
Theorem choices_are_enforced :
  forall (FS : Type) (sys : System FS) (fs : FS)
         (name text : string) (schema : ParameterSchema)
         (defaults : option (dict pyval))
         (check_unknowns check_required check_exist expand_globs : bool),
    eval_dtype (dtype schema) = Evaluated TStr ->
    has_substitution text = false ->
    field_name name = true ->
    validate_parameters sys [(name, VStr text)] [(name, schema)] None defaults
      check_unknowns check_required check_exist expand_globs false fs
    = if truthy (VList (choices schema))
         && negb (contains (choices schema) (VStr text))
      then (Raise (ParameterValidationError
                     (name ++ ": invalid value '" ++ text ++ "'")), fs)
      else (Ok [(name, VStr text)], fs).
Proof.
  intros FS sys fs name text schema defaults cu cr ce eg Ht Hs Hname.
  unfold validate_parameters, io_bind, lift.
  rewrite resolve_inputs_single by (reflexivity || exact Hs).
  rewrite (validate_resolved_single sys name schema cr ce eg TStr
             (VStr text) (VStr text) fs); try assumption; try reflexivity.
  cbn [to_container]. rewrite file_pass_single. reflexivity.
Qed.

Lemma choices_are_enforced_witness :
  validate_parameters no_files [("mode", VStr "z")]
    [("mode", with_choices (parameter "str" false) [VStr "x"; VStr "y"])]
    None None true true true true false tt
  = (Raise (ParameterValidationError "mode: invalid value 'z'"), tt).
Proof.
  apply (choices_are_enforced unit no_files tt "mode" "z"
           (with_choices (parameter "str" false) [VStr "x"; VStr "y"])
           None true true true true); reflexivity.
Defined.

(** ** What a substitution pass keeps *)

Lemma substitute_value_str :
  forall subst1 s newvalue mirror,
    substitute_value subst1 s = Ok (newvalue, mirror) ->
    is_str_instance newvalue = true.
Proof.
  intros subst1 s newvalue mirror H. unfold substitute_value in H.
  destruct (Py.format s [] subst1) as [t|e]; [injection H as <- _; reflexivity|].
  destruct e; try (injection H as <- _; reflexivity); discriminate.
Qed.

Lemma substitute_pass_substituted :
  forall subst1 inputs mirror changed inputs' mirror' changed',
    substitute_pass subst1 inputs mirror changed = Ok (inputs', mirror', changed') ->
    Forall2 substituted inputs inputs'.
Proof.
  intros subst1 inputs. induction inputs as [|[k value] rest IH];
    intros mirror changed inputs' mirror' changed' H.
  - injection H as <- _ _. constructor.
  - assert (Hskip :
      forall m c,
        bind (substitute_pass subst1 rest m c)
          (fun x => match x with
                    | (rest', self', changed') =>
                        Ok ((k, value) :: rest', self', changed')
                    end) = Ok (inputs', mirror', changed') ->
        Forall2 substituted ((k, value) :: rest) inputs').
    { intros m c H'.
      destruct (substitute_pass subst1 rest m c)
        as [[[rest' s'] c']|] eqn:E; [|discriminate].
      injection H' as <- _ _. constructor; [|exact (IH _ _ _ _ _ E)].
      split; [reflexivity|]. cbn. destruct value; reflexivity. }
    destruct value; try exact (Hskip _ _ H).
    cbn [substitute_pass] in H.
    destruct (substitute_value _ s) as [[newvalue m]|] eqn:Esv; [|discriminate].
    cbn [bind] in H. pose proof (substitute_value_str _ _ _ _ Esv) as Hn.
    destruct (negb (eq newvalue (VStr s)));
      (destruct (substitute_pass subst1 rest _ _)
         as [[[rest' s'] c']|] eqn:E; [|discriminate]);
      injection H as <- _ _; constructor;
      try exact (IH _ _ _ _ _ E); split; try reflexivity; exact Hn.
Qed.

Lemma substituted_trans :
  forall a b c, substituted a b -> substituted b c -> substituted a c.
Proof.
  intros [k1 v1] [k2 v2] [k3 v3] [Hk Hv] [Hk' Hv']. cbn in *.
  unfold substituted. cbn [fst snd]. split; [congruence|].
  destruct v1; try (rewrite Hv in Hv'; exact Hv').
  destruct v2; try discriminate; try exact Hv'. rewrite Hv'. reflexivity.
Qed.

Lemma Forall2_substituted_trans :
  forall l1 l2 l3,
    Forall2 substituted l1 l2 -> Forall2 substituted l2 l3 ->
    Forall2 substituted l1 l3.
Proof.
  intros l1 l2 l3 H. revert l3.
  induction H as [|a b l1 l2 Hab Hl IH]; intros l3 H3.
  - inversion H3. constructor.
  - inversion H3 as [|? c ? l3' Hbc Hl']. subst.
    constructor; [exact (substituted_trans _ _ _ Hab Hbc) | exact (IH _ Hl')].
Qed.

Lemma substitute_loop_substituted :
  forall n i subst1 inputs mirror r k,
    substitute_loop n i subst1 inputs mirror = Ok (r, k) ->
    Forall2 substituted inputs r.
Proof.
  induction n as [|n IH]; intros i subst1 inputs mirror r k H; [discriminate|].
  cbn [substitute_loop] in H.
  destruct (substitute_pass subst1 inputs mirror false)
    as [[[inputs' mirror'] changed]|] eqn:E; [|discriminate].
  cbn [bind] in H. pose proof (substitute_pass_substituted _ _ _ _ _ _ _ E) as H1.
  destruct changed.
  - exact (Forall2_substituted_trans _ _ _ H1 (IH _ _ _ _ _ _ H)).
  - injection H as <- _. exact H1.
Qed.

(** X13.  Substitution keeps the parameters and their order, and touches
    plain strings only: a value that is not a plain string (a number, a
    list, [None], an [Error]) is returned as it was, and a plain string is
    returned as a string or as an [Error]. *)
Theorem substitution_touches_strings_only :
  forall (subst inputs resolved : dict pyval) (passes : nat),
    substitute subst inputs = Ok (resolved, passes) ->
    dict_keys resolved = dict_keys inputs
    /\ Forall2 substituted inputs resolved.
Proof.
  intros subst inputs resolved passes H. unfold substitute in H.
  destruct (SubstitutionNamespace subst); [|discriminate]. cbn [bind] in H.
  destruct (SubstitutionNamespace inputs); [|discriminate]. cbn [bind] in H.
  pose proof (substitute_loop_substituted _ _ _ _ _ _ _ H) as HF.
  split; [|exact HF]. clear H. unfold dict_keys.
  induction HF as [|x y l1 l2 [Hk _] _ IH]; [reflexivity|].
  cbn. rewrite Hk, IH. reflexivity.
Qed.

Lemma substitution_touches_strings_only_witness :
  dict_keys [("n", VInt 3); ("a", VStr "3 files"); ("l", VList [VStr "{self.n}"])]
    = dict_keys [("n", VInt 3); ("a", VStr "{self.n} files");
                 ("l", VList [VStr "{self.n}"])]
  /\ Forall2 substituted
       [("n", VInt 3); ("a", VStr "{self.n} files"); ("l", VList [VStr "{self.n}"])]
       [("n", VInt 3); ("a", VStr "3 files"); ("l", VList [VStr "{self.n}"])].
Proof.
  apply (substitution_touches_strings_only []
           [("n", VInt 3); ("a", VStr "{self.n} files");
            ("l", VList [VStr "{self.n}"])]
           [("n", VInt 3); ("a", VStr "3 files"); ("l", VList [VStr "{self.n}"])]
           2).
  vm_compute. reflexivity.
Defined.

End ValidateMore.

(* ================================================================== *)
(** * Invariants of the validator *)
(* ================================================================== *)

Module ValidateInvariants.
Import Py Schema Validate Cargo Task Examples Notions ValidateFacts.

(** ** The result of the substitution loop is a fixed point *)

Lemma substitute_pass_changed :
  forall subst1 inputs mirror inputs' mirror' changed',
    substitute_pass subst1 inputs mirror true = Ok (inputs', mirror', changed') ->
    changed' = true.
Proof.
  intros subst1 inputs. induction inputs as [|[k value] rest IH];
    intros mirror inputs' mirror' changed' H.
  - injection H as _ _ <-. reflexivity.
  - assert (Hskip :
      forall m v,
        bind (substitute_pass subst1 rest m true)
          (fun x => match x with
                    | (rest', self', changed') =>
                        Ok ((k, v) :: rest', self', changed')
                    end) = Ok (inputs', mirror', changed') ->
        changed' = true).
    { intros m v H'.
      destruct (substitute_pass subst1 rest m true)
        as [[[rest' s'] c']|] eqn:E; [|discriminate].
      injection H' as _ _ <-. exact (IH _ _ _ _ E). }
    destruct value; try exact (Hskip _ _ H).
    cbn [substitute_pass] in H.
    destruct (substitute_value _ s) as [[newvalue m]|]; [|discriminate].
    cbn [bind] in H.
    destruct (negb (eq newvalue (VStr s))); exact (Hskip _ _ H).
Qed.

Lemma substitute_pass_unchanged :
  forall subst1 inputs mirror changed inputs' mirror',
    substitute_pass subst1 inputs mirror changed = Ok (inputs', mirror', false) ->
    inputs' = inputs.
Proof.
  intros subst1 inputs. induction inputs as [|[k value] rest IH];
    intros mirror changed inputs' mirror' H.
  - injection H as <- _ _. reflexivity.
  - assert (Hskip :
      forall m c,
        bind (substitute_pass subst1 rest m c)
          (fun x => match x with
                    | (rest', self', changed') =>
                        Ok ((k, value) :: rest', self', changed')
                    end) = Ok (inputs', mirror', false) ->
        inputs' = (k, value) :: rest).
    { intros m c H'.
      destruct (substitute_pass subst1 rest m c)
        as [[[rest' s'] c']|] eqn:E; [|discriminate].
      injection H' as <- _ ->. rewrite (IH _ _ _ _ E). reflexivity. }
    destruct value; try exact (Hskip _ _ H).
    cbn [substitute_pass] in H.
    destruct (substitute_value _ s) as [[newvalue m]|]; [|discriminate].
    cbn [bind] in H.
    destruct (negb (eq newvalue (VStr s))); [|exact (Hskip _ _ H)].
    destruct (substitute_pass subst1 rest _ true)
      as [[[rest' s'] c']|] eqn:E; [|discriminate].
    injection H as _ _ ->.
    pose proof (substitute_pass_changed _ _ _ _ _ _ E). discriminate.
Qed.

(** X14.  When the substitution loop returns, the values it returns are a
    fixed point: the loop made [passes - i] passes, all but the last
    changed a value, and the last pass, over the values returned and with
    the [self] namespace as the passes before it had left it, changed
    none of them. *)
Theorem substitution_returns_a_fixed_point :
  forall (n i : nat) (subst1 inputs mirror resolved : dict pyval) (passes : nat),
    substitute_loop n i subst1 inputs mirror = Ok (resolved, passes) ->
    exists mirror0 mirror1,
      i < passes /\ passes <= i + n
      /\ changing_passes (passes - S i) subst1 inputs mirror
         = Some (resolved, mirror0)
      /\ substitute_pass subst1 resolved mirror0 false
         = Ok (resolved, mirror1, false).
Proof.
  induction n as [|n IH]; intros i subst1 inputs mirror resolved passes H;
    [discriminate|].
  cbn [substitute_loop] in H.
  destruct (substitute_pass subst1 inputs mirror false)
    as [[[inputs' mirror'] changed]|] eqn:E; [|discriminate].
  cbn [bind] in H. destruct changed.
  - destruct (IH _ _ _ _ _ _ H) as (mirror0 & mirror1 & Hlt & Hle & Hk & Hfix).
    exists mirror0, mirror1. repeat split; [lia | lia | | exact Hfix].
    replace (passes - S i) with (S (passes - S (S i))) by lia.
    cbn [changing_passes]. rewrite E. exact Hk.
  - injection H as <- <-.
    pose proof (substitute_pass_unchanged _ _ _ _ _ _ E) as ->.
    exists mirror, mirror'. repeat split; [lia | lia | | exact E].
    replace (S i - S i) with 0 by lia. reflexivity.
Qed.

Lemma substitution_returns_a_fixed_point_witness :
  exists mirror0 mirror1,
    0 < 2 /\ 2 <= 0 + 10
    /\ changing_passes (2 - 1) []
         [("a", VStr "{self.b}"); ("b", VStr "literal")]
         [("a", VStr "{self.b}"); ("b", VStr "literal")]
       = Some ([("a", VStr "literal"); ("b", VStr "literal")], mirror0)
    /\ substitute_pass [] [("a", VStr "literal"); ("b", VStr "literal")]
         mirror0 false
       = Ok ([("a", VStr "literal"); ("b", VStr "literal")], mirror1, false).
Proof.
  apply (substitution_returns_a_fixed_point 10 0 []
           [("a", VStr "{self.b}"); ("b", VStr "literal")]
           [("a", VStr "{self.b}"); ("b", VStr "literal")]
           [("a", VStr "literal"); ("b", VStr "literal")] 2).
  vm_compute. reflexivity.
Defined.

(** ** The file system *)

Section FileSystem.

Context {FS : Type} (sys : System FS).

Lemma reads_only_ret : forall {A} (a : A), reads_only (@ret FS A a).
Proof. intros A a fs. reflexivity. Qed.

Lemma reads_only_raise : forall {A} e, reads_only (@raise FS A e).
Proof. intros A e fs. reflexivity. Qed.

Lemma reads_only_lift : forall {A} (r : result A), reads_only (@lift FS A r).
Proof. intros A r fs. reflexivity. Qed.

Lemma reads_only_bind :
  forall {A B} (m : @io FS A) (k : A -> @io FS B),
    reads_only m -> (forall a, reads_only (k a)) -> reads_only (io_bind m k).
Proof.
  intros A B m k Hm Hk fs. unfold io_bind. specialize (Hm fs).
  destruct (m fs) as [[a|e] fs']; cbn in Hm; subst fs'; [apply Hk | reflexivity].
Qed.

Lemma reads_only_path_isfile : forall v, reads_only (path_isfile sys v).
Proof. intros v fs. reflexivity. Qed.

Lemma reads_only_path_isdir : forall v, reads_only (path_isdir sys v).
Proof. intros v fs. reflexivity. Qed.

Lemma reads_only_all_paths :
  forall test files,
    (forall v, reads_only (test v)) -> reads_only (all_paths (FS := FS) test files).
Proof.
  intros test files Ht. induction files as [|f files IH]; cbn [all_paths].
  - apply reads_only_ret.
  - apply reads_only_bind; [apply Ht|]. intros []; [exact IH | apply reads_only_ret].
Qed.

Lemma reads_only_find_files :
  forall expand_globs name value, reads_only (find_files sys expand_globs name value).
Proof.
  intros eg name value fs. unfold find_files.
  destruct value; try reflexivity. destruct (yaml_safe_load sys s); reflexivity.
Qed.

Ltac reads_only_step :=
  first
    [ apply reads_only_ret | apply reads_only_raise | apply reads_only_lift
    | apply reads_only_path_isfile | apply reads_only_path_isdir
    | apply reads_only_find_files
    | apply reads_only_all_paths; intros ?
    | apply reads_only_bind; [|intros ?]
    | match goal with
      | |- reads_only (if ?b then _ else _) => destruct b
      | |- reads_only (match ?x with _ => _ end) => destruct x
      end ].

Lemma reads_only_check_files :
  forall check_exist expand_globs name value schema dtype,
    reads_only (check_files sys check_exist expand_globs false
                  name value schema dtype).
Proof.
  intros ce eg name value schema dtype. unfold check_files, fail, when.
  repeat reads_only_step.
Qed.

Lemma reads_only_file_pass :
  forall check_exist expand_globs schemas dtypes inputs,
    reads_only (file_pass sys check_exist expand_globs false schemas dtypes inputs).
Proof.
  intros ce eg schemas dtypes inputs. induction inputs as [|[name value] rest IH];
    cbn [file_pass]; [apply reads_only_ret|].
  assert (Hc : forall v,
             reads_only
               (io_bind (file_pass sys ce eg false schemas dtypes rest)
                  (fun rest' => ret ((name, v) :: rest')))).
  { intros v. apply reads_only_bind; [exact IH | intros; apply reads_only_ret]. }
  destruct (dict_get schemas name); [|apply Hc].
  destruct (is_None value || is_Error value); [apply Hc|].
  destruct (dict_get dtypes name); [|apply reads_only_raise].
  apply reads_only_bind; [apply reads_only_check_files | exact Hc].
Qed.

(** X15.  Without [create_dirs], [validate_parameters] leaves the file
    system as it found it, whether it returns or raises. *)
Theorem validation_without_create_dirs_reads_only :
  forall (params : dict pyval) (schemas : dict ParameterSchema)
         (subst defaults : option (dict pyval))
         (check_unknowns check_required check_exist expand_globs : bool) (fs : FS),
    snd (validate_parameters sys params schemas subst defaults
           check_unknowns check_required check_exist expand_globs false fs) = fs.
Proof.
  intros params schemas subst defaults cu cr ce eg.
  change (reads_only (validate_parameters sys params schemas subst defaults
                        cu cr ce eg false)).
  unfold validate_parameters. apply reads_only_bind; [apply reads_only_lift|].
  intros [[inputs unresolved] passes]. unfold validate_resolved, fail, when.
  apply reads_only_bind.
  { destruct (missing_required schemas inputs unresolved);
      [apply reads_only_ret|]. destruct cr; [apply reads_only_raise | apply reads_only_ret]. }
  intros _. apply reads_only_bind; [apply reads_only_lift|].
  intros [fields inputs']. apply reads_only_bind; [apply reads_only_lift|].
  intros _. apply reads_only_bind; [apply reads_only_lift|].
  intros _. apply reads_only_bind; [apply reads_only_file_pass|].
  intros inputs''. apply reads_only_bind; [apply reads_only_lift|].
  intros [validated errors]. destruct errors; [|apply reads_only_raise].
  apply reads_only_bind; [apply reads_only_lift|]. intros _.
  apply reads_only_bind; [apply reads_only_ret|]. intros _. apply reads_only_ret.
Qed.

End FileSystem.

End ValidateInvariants.

(* ================================================================== *)
(** * What a successful validation returns *)
(* ================================================================== *)

Module ValidatedFacts.
Import Py Schema Validate Cargo Task Examples Notions ValidateFacts TaskFacts.

(** ** The required-parameter check *)

Lemma missing_required_nil :
  forall schemas inputs unresolved name schema,
    missing_required schemas inputs unresolved = [] ->
    In (name, schema) schemas ->
    required schema = true ->
    get_is_None inputs name = false \/ dict_mem unresolved name = true.
Proof.
  intros schemas inputs unresolved name schema H Hin Hreq.
  unfold missing_required in H. apply map_eq_nil in H.
  destruct (get_is_None inputs name) eqn:En; [|left; reflexivity].
  destruct (dict_mem unresolved name) eqn:Eu; [right; reflexivity|].
  assert (Hf : In (name, schema)
                 (filter (fun ns : string * ParameterSchema =>
                            required (snd ns) && get_is_None inputs (fst ns)
                            && negb (dict_mem unresolved (fst ns))) schemas)).
  { apply filter_In. split; [exact Hin|]. cbn [fst snd].
    rewrite Hreq, En, Eu. reflexivity. }
  rewrite H in Hf. contradiction.
Qed.

(** ** The fields of the record *)

Lemma to_container_not_None :
  forall v, is_None v = false -> is_None (to_container v) = false.
Proof. intros [| | | | | | |[] d] H; try exact H; reflexivity. Qed.

Lemma make_fields_mem :
  forall schemas inputs fields inputs' name schema,
    make_fields schemas inputs = Ok (fields, inputs') ->
    In (name, schema) schemas ->
    get_is_None inputs name = false ->
    dict_mem fields name = true.
Proof.
  induction schemas as [|[n s] rest IH];
    intros inputs fields inputs' name schema H Hin Hn; [contradiction|].
  cbn [make_fields] in H.
  assert (Hskip :
    make_fields rest inputs = Ok (fields, inputs') ->
    get_is_None inputs n = true -> dict_mem fields name = true).
  { intros H' Hnone. destruct Hin as [Heq|Hin].
    - injection Heq as -> ->. rewrite Hnone in Hn. discriminate.
    - exact (IH _ _ _ _ _ H' Hin Hn). }
  assert (Hfield :
    forall value,
      dict_get inputs n = Some value ->
      match eval_dtype (dtype s) with
      | EvalRaises =>
          Raise (SchemaError ("invalid " ++ n ++ ".dtype = " ++ dtype s))
      | EvalOutside => Raise (OutsideModel "declared type")
      | Evaluated dtype_impl =>
          bind (make_fields rest (dict_set inputs n (to_container value)))
            (fun x => match x with
                      | (fields, inputs') =>
                          Ok ((n, dtype_impl) :: fields, inputs')
                      end)
      end = Ok (fields, inputs') ->
      dict_mem fields name = true).
  { intros value Ev H'. clear Hskip H.
    destruct (eval_dtype (dtype s)) as [t| |]; try discriminate.
    destruct (make_fields rest _) as [[fields0 inputs0]|] eqn:E; [|discriminate].
    injection H' as <- <-. unfold dict_mem. cbn [dict_get].
    destruct (String.eqb n name) eqn:En; [reflexivity|].
    destruct Hin as [Heq|Hin].
    - injection Heq as -> ->. rewrite String.eqb_refl in En. discriminate.
    - apply (IH _ _ _ _ _ E Hin).
      rewrite get_is_None_set_other by exact En. exact Hn. }
  unfold get_is_None in Hskip.
  destruct (dict_get inputs n) as [value|] eqn:Ev; [|exact (Hskip H eq_refl)].
  destruct value; try exact (Hfield _ eq_refl H). exact (Hskip H eq_refl).
Qed.

Lemma make_fields_keys :
  forall schemas inputs fields inputs' name,
    make_fields schemas inputs = Ok (fields, inputs') ->
    dict_mem fields name = true -> dict_mem schemas name = true.
Proof.
  induction schemas as [|[n s] rest IH]; intros inputs fields inputs' name H Hm.
  - injection H as <- _. discriminate.
  - cbn [make_fields] in H. unfold dict_mem. cbn [dict_get].
    destruct (String.eqb n name) eqn:En; [reflexivity|].
    assert (Hfield :
      forall value,
        match eval_dtype (dtype s) with
        | EvalRaises =>
            Raise (SchemaError ("invalid " ++ n ++ ".dtype = " ++ dtype s))
        | EvalOutside => Raise (OutsideModel "declared type")
        | Evaluated dtype_impl =>
            bind (make_fields rest (dict_set inputs n (to_container value)))
              (fun x => match x with
                        | (fields, inputs') =>
                            Ok ((n, dtype_impl) :: fields, inputs')
                        end)
        end = Ok (fields, inputs') ->
        dict_mem rest name = true).
    { intros value H'. clear H.
      destruct (eval_dtype (dtype s)) as [t| |]; try discriminate.
      destruct (make_fields rest _) as [[fields0 inputs0]|] eqn:E; [|discriminate].
      injection H' as <- <-. unfold dict_mem in Hm. cbn [dict_get] in Hm.
      rewrite En in Hm. exact (IH _ _ _ _ E Hm). }
    destruct (dict_get inputs n) as [value|]; [|exact (IH _ _ _ _ H Hm)].
    destruct value; try exact (Hfield _ H). exact (IH _ _ _ _ H Hm).
Qed.

(** ** The typed record *)

Lemma int_of_str_Invalid :
  forall s es, int_of_str s = Invalid es -> es <> [].
Proof.
  intros s es H. unfold int_of_str in H.
  repeat match type of H with
         | context [match ?x with _ => _ end] => destruct x
         | context [if ?b then _ else _] => destruct b
         end; try discriminate; injection H as <-; discriminate.
Qed.

Lemma validate_scalar_Invalid :
  forall t v es, validate_scalar t v = Invalid es -> es <> [].
Proof.
  intros t v es H.
  destruct t, v; cbn in H;
    try discriminate;
    try (injection H as <-; discriminate);
    try exact (int_of_str_Invalid _ _ H);
    repeat match type of H with
           | context [if ?b then _ else _] => destruct b
           | context [match ?x with _ => _ end] => destruct x
           end; try discriminate; injection H as <-; discriminate.
Qed.

Lemma validate_elements_Invalid :
  forall t l i es vs, validate_elements t i l = (Invalid es, vs) -> es <> [].
Proof.
  intros t l. induction l as [|x l IH]; intros i es vs H; [discriminate|].
  cbn [validate_elements] in H.
  destruct (validate_elements t (S i) l) as [o vs0] eqn:E.
  destruct (validate_scalar t x) as [v|e|w] eqn:Ex, o as [v'|es'|w'];
    try discriminate.
  - injection H as <- _. exact (IH _ _ _ E).
  - injection H as <- _. pose proof (validate_scalar_Invalid _ _ _ Ex).
    destruct e; [congruence | discriminate].
  - injection H as <- _. pose proof (validate_scalar_Invalid _ _ _ Ex).
    destruct e; [congruence | discriminate].
Qed.

Lemma validate_field_Invalid :
  forall t v es, validate_field t v = Invalid es -> es <> [].
Proof.
  intros t v es H.
  assert (Hs : validate_scalar t v = Invalid es -> es <> [])
    by apply validate_scalar_Invalid.
  destruct t; try exact (Hs H). cbn [validate_field] in H.
  destruct v; try (injection H as <-; discriminate).
  destruct (validate_elements t 0 l) as [[v'|es'|w] vs] eqn:E; try discriminate.
  injection H as <-. exact (validate_elements_Invalid _ _ _ _ _ E).
Qed.

Lemma int_of_str_Valid :
  forall s v, int_of_str s = Valid v -> is_None v = false.
Proof.
  intros s v H. unfold int_of_str in H.
  repeat match type of H with
         | context [match ?x with _ => _ end] => destruct x
         | context [if ?b then _ else _] => destruct b
         end; try discriminate; injection H as <-; reflexivity.
Qed.

Lemma validate_scalar_Valid :
  forall t v v', validate_scalar t v = Valid v' -> is_None v' = false.
Proof.
  intros t v v' H.
  destruct t, v; cbn in H;
    try discriminate;
    try (injection H as <-; reflexivity);
    try exact (int_of_str_Valid _ _ H);
    repeat match type of H with
           | context [if ?b then _ else _] => destruct b
           | context [match ?x with _ => _ end] => destruct x
           end; try discriminate; injection H as <-; reflexivity.
Qed.

Lemma validate_field_Valid :
  forall t v v', validate_field t v = Valid v' -> is_None v' = false.
Proof.
  intros t v v' H.
  assert (Hs : validate_scalar t v = Valid v' -> is_None v' = false)
    by apply validate_scalar_Valid.
  destruct t; try exact (Hs H). cbn [validate_field] in H.
  destruct v; try discriminate.
  destruct (validate_elements t 0 l) as [[v0|es'|w] vs]; try discriminate.
  injection H as <-. reflexivity.
Qed.

Lemma error_texts_nil :
  forall name es, error_texts name es = Ok [] -> es = [].
Proof.
  intros name [|e es] H; [reflexivity|]. cbn [error_texts] in H.
  destruct (error_text name e); [|discriminate]. cbn [bind] in H.
  destruct (error_texts name es); discriminate.
Qed.

(** A record that is built without an error has every field, in field
    order, and none of its values is [None]. *)
Lemma validate_fields_valid :
  forall fields inputs validated,
    validate_fields fields inputs = Ok (validated, []) ->
    dict_keys validated = dict_keys fields
    /\ Forall (fun nv => is_None (snd nv) = false) validated.
Proof.
  induction fields as [|[n t] fields IH]; intros inputs validated H.
  - injection H as <-. split; [reflexivity | constructor].
  - cbn [validate_fields] in H.
    assert (Hfield :
      forall v,
        match validate_field t v with
        | Unknown w => Raise (OutsideModel w)
        | Valid v' =>
            bind (validate_fields fields inputs)
              (fun x => match x with
                        | (vs, errs) => Ok ((n, v') :: vs, errs)
                        end)
        | Invalid es =>
            bind (validate_fields fields inputs)
              (fun x => match x with
                        | (vs, errs) =>
                            bind (error_texts n es)
                              (fun ts => Ok (vs, (ts ++ errs)%list))
                        end)
        end = Ok (validated, []) ->
        dict_keys validated = dict_keys (((n, t) :: fields) : dict dtype_impl)
        /\ Forall (fun nv => is_None (snd nv) = false) validated).
    { intros v H'. clear H.
      destruct (validate_field t v) as [v'|es|w] eqn:Ev; [| |discriminate].
      - destruct (validate_fields fields inputs) as [[vs errs]|] eqn:E;
          [|discriminate].
        injection H' as <- ->. destruct (IH _ _ E) as [Hk Hv].
        split; [cbn; f_equal; exact Hk|].
        constructor; [exact (validate_field_Valid _ _ _ Ev) | exact Hv].
      - destruct (validate_fields fields inputs) as [[vs errs]|]; [|discriminate].
        cbn [bind] in H'.
        destruct (error_texts n es) as [ts|] eqn:Et; [|discriminate].
        injection H' as _ Happ. apply app_eq_nil in Happ as [-> _].
        apply error_texts_nil in Et.
        destruct (validate_field_Invalid _ _ _ Ev Et). }
    destruct (dict_get inputs n) as [v|]; [|discriminate].
    destruct v; try exact (Hfield _ H). discriminate.
Qed.

(** ** The unresolved entries *)

Lemma Forall_dict_set :
  forall {V} (P : string * V -> Prop) (d : dict V) k v,
    P (k, v) -> Forall P d -> Forall P (dict_set d k v).
Proof.
  intros V P d k v Hv. induction d as [|[k' v'] d IH]; intros H.
  - constructor; [exact Hv | constructor].
  - cbn [dict_set]. inversion H as [|x l Hx Hl]; subst.
    destruct (String.eqb k' k) eqn:E.
    + apply String.eqb_eq in E. subst k'. constructor; assumption.
    + constructor; auto.
Qed.

Lemma Forall_dict_update :
  forall {V} (P : string * V -> Prop) (e d : dict V),
    Forall P d -> Forall P e -> Forall P (dict_update d e).
Proof.
  intros V P e. unfold dict_update.
  induction e as [|[k v] e IH]; intros d Hd He; [exact Hd|].
  cbn [fold_left fst snd]. inversion He as [|x l Hx Hl]; subst.
  apply IH; [|exact Hl]. apply Forall_dict_set; assumption.
Qed.

Lemma dict_mem_set :
  forall {V} (d : dict V) k v k',
    dict_mem (dict_set d k v) k' = String.eqb k k' || dict_mem d k'.
Proof.
  intros V d k v k'. unfold dict_mem.
  destruct (String.eqb k k') eqn:E.
  - apply String.eqb_eq in E. subst k'. rewrite dict_get_set_same. reflexivity.
  - rewrite dict_get_set_other by exact E. reflexivity.
Qed.

Lemma dict_mem_update :
  forall {V} (e d : dict V) k,
    dict_mem (dict_update d e) k = dict_mem d k || dict_mem e k.
Proof.
  intros V e. unfold dict_update.
  induction e as [|[k' v] e IH]; intros d k.
  - cbn. rewrite orb_false_r. reflexivity.
  - cbn [fold_left fst snd]. rewrite IH, dict_mem_set.
    unfold dict_mem at 4. cbn [dict_get].
    destruct (String.eqb k' k); cbn [orb].
    + rewrite orb_true_r. reflexivity.
    + reflexivity.
Qed.

Lemma dict_mem_keys :
  forall {V W} (d : dict V) (e : dict W) k,
    dict_keys d = dict_keys e -> dict_mem d k = dict_mem e k.
Proof.
  intros V W d. induction d as [|[n v] d IH]; intros [|[n' w] e] k H;
    try discriminate; [reflexivity|].
  injection H as -> H. unfold dict_mem in *. cbn [dict_get].
  destruct (String.eqb n' k); [reflexivity | exact (IH _ _ H)].
Qed.

Lemma move_unresolved_not_None :
  forall items inputs unresolved inputs' unresolved',
    move_unresolved items inputs unresolved = (inputs', unresolved') ->
    Forall (fun nv => is_None (snd nv) = false) unresolved ->
    Forall (fun nv => is_None (snd nv) = false) unresolved'.
Proof.
  induction items as [|[n v] items IH];
    intros inputs unresolved inputs' unresolved' H Hu.
  - injection H as _ <-. exact Hu.
  - cbn [move_unresolved] in H.
    destruct v; try exact (IH _ _ _ _ H Hu).
    destruct (has_substitution s); [|exact (IH _ _ _ _ H Hu)].
    apply (IH _ _ _ _ H). apply Forall_dict_set; [reflexivity | exact Hu].
Qed.

Lemma unresolved_not_None :
  forall params : dict pyval,
    Forall (fun nv => is_None (snd nv) = false)
      (filter (fun nv => is_Unresolved (snd nv)) params).
Proof.
  intros params. apply Forall_forall. intros [k v] H.
  apply filter_In in H as [_ H]. cbn [snd] in *. destruct v; try discriminate.
  reflexivity.
Qed.

(** The parts of a resolution that returns. *)
Lemma resolve_inputs_parts :
  forall params schemas subst defaults check_unknowns inputs unresolved passes,
    resolve_inputs params schemas subst defaults check_unknowns
    = Ok (inputs, unresolved, passes) ->
    (if check_unknowns then check_unknown params schemas else Ok tt) = Ok tt
    /\ exists inputs0,
         add_defaults schemas (match defaults with Some d => d | None => [] end)
           (filter (fun nv => negb (is_Unresolved (snd nv))) params)
         = Ok inputs0
         /\ match subst with
            | Some subst =>
                substitute subst inputs0 = Ok (inputs, passes)
                /\ unresolved = filter (fun nv => is_Unresolved (snd nv)) params
            | None =>
                move_unresolved inputs0 inputs0
                  (filter (fun nv => is_Unresolved (snd nv)) params)
                = (inputs, unresolved)
            end.
Proof.
  intros params schemas subst defaults cu inputs unresolved passes H.
  unfold resolve_inputs in H.
  destruct (if cu then check_unknown params schemas else Ok tt) as [[]|];
    [|discriminate].
  split; [reflexivity|]. cbn [bind] in H.
  destruct (add_defaults schemas _ _) as [inputs0|]; [|discriminate].
  exists inputs0. split; [reflexivity|]. cbn [bind] in H.
  destruct subst as [subst|].
  - destruct (substitute subst inputs0) as [[inputs1 n]|]; [|discriminate].
    injection H as <- <- <-. split; reflexivity.
  - destruct (move_unresolved inputs0 inputs0 _) as [inputs1 unresolved1].
    injection H as <- <- _. reflexivity.
Qed.

Lemma resolve_inputs_unresolved :
  forall params schemas subst defaults check_unknowns inputs unresolved passes,
    resolve_inputs params schemas subst defaults check_unknowns
    = Ok (inputs, unresolved, passes) ->
    Forall (fun nv => is_None (snd nv) = false) unresolved.
Proof.
  intros params schemas subst defaults cu inputs unresolved passes H.
  apply resolve_inputs_parts in H as (_ & inputs0 & _ & H).
  destruct subst as [subst|].
  - destruct H as [_ ->]. apply unresolved_not_None.
  - exact (move_unresolved_not_None _ _ _ _ _ H (unresolved_not_None _)).
Qed.

(** ** The parts of a successful validation *)

Section Stages.

Context {FS : Type} (sys : System FS).

Lemma validate_parameters_stages :
  forall params schemas subst defaults cu cr ce eg cd (fs fs' : FS) result,
    validate_parameters sys params schemas subst defaults cu cr ce eg cd fs
    = (Ok result, fs') ->
    exists inputs unresolved passes fields inputs1 inputs2 validated,
      resolve_inputs params schemas subst defaults cu
      = Ok (inputs, unresolved, passes)
      /\ (cr = true -> missing_required schemas inputs unresolved = [])
      /\ make_fields schemas inputs = Ok (fields, inputs1)
      /\ validate_fields fields inputs2 = Ok (validated, [])
      /\ check_choices schemas validated = Ok tt
      /\ result = dict_update validated unresolved.
Proof.
  intros params schemas subst defaults cu cr ce eg cd fs fs' result H.
  unfold validate_parameters, io_bind, lift in H.
  destruct (resolve_inputs params schemas subst defaults cu)
    as [[[inputs unresolved] passes]|]; [|discriminate].
  exists inputs, unresolved, passes.
  unfold validate_resolved, io_bind, lift, fail, raise, ret in H.
  destruct (missing_required schemas inputs unresolved) as [|m ms] eqn:Em;
    [|destruct cr; [discriminate|]].
  all: destruct (make_fields schemas inputs) as [[fields inputs1]|];
    [|discriminate].
  all: destruct (make_dataclass fields); [|discriminate].
  all: destruct (pydantic_dataclass fields); [|discriminate].
  all: destruct (file_pass sys ce eg cd schemas fields inputs1 fs)
    as [[inputs2|] fs2]; [|discriminate].
  all: destruct (validate_fields fields inputs2) as [[validated errors]|] eqn:Ev;
    [|discriminate].
  all: destruct errors; [|discriminate].
  all: destruct (check_choices schemas validated) as [[]|] eqn:Ec; [|discriminate].
  all: destruct (when cd (mkdir_pass sys schemas validated) fs2) as [[[]|] fs3];
    [|discriminate].
  all: injection H as <- _.
  all: exists fields, inputs1, inputs2, validated.
  all: repeat split; try assumption; try reflexivity; discriminate.
Qed.

Lemma validated_not_None :
  forall params schemas subst defaults cu cr ce eg cd (fs fs' : FS) result,
    validate_parameters sys params schemas subst defaults cu cr ce eg cd fs
    = (Ok result, fs') ->
    Forall (fun nv => is_None (snd nv) = false) result.
Proof.
  intros params schemas subst defaults cu cr ce eg cd fs fs' result H.
  apply validate_parameters_stages in H
    as (inputs & unresolved & passes & fields & inputs1 & inputs2 & validated
        & Hr & _ & _ & Hv & _ & ->).
  apply validate_fields_valid in Hv as [_ Hv].
  apply Forall_dict_update; [exact Hv|].
  exact (resolve_inputs_unresolved _ _ _ _ _ _ _ _ Hr).
Qed.

Lemma validated_required :
  forall params schemas subst defaults cu ce eg cd (fs fs' : FS) result
         name schema,
    validate_parameters sys params schemas subst defaults cu true ce eg cd fs
    = (Ok result, fs') ->
    In (name, schema) schemas -> required schema = true ->
    dict_mem result name = true.
Proof.
  intros params schemas subst defaults cu ce eg cd fs fs' result name schema
    H Hin Hreq.
  apply validate_parameters_stages in H
    as (inputs & unresolved & passes & fields & inputs1 & inputs2 & validated
        & Hr & Hm & Hf & Hv & _ & ->).
  apply validate_fields_valid in Hv as [Hk _]. rewrite dict_mem_update.
  destruct (missing_required_nil _ _ _ _ _ (Hm eq_refl) Hin Hreq) as [Hn|Hu].
  - rewrite (dict_mem_keys _ _ _ Hk), (make_fields_mem _ _ _ _ _ _ Hf Hin Hn).
    reflexivity.
  - rewrite Hu. apply orb_true_r.
Qed.

(** X16.  When [validate_parameters] returns with [check_required] set,
    the dictionary it returns has an entry for every required parameter of
    the schemas, and the entry does not hold [None]. *)
Theorem required_parameters_are_returned :
  forall params schemas subst defaults
         (check_unknowns check_exist expand_globs create_dirs : bool)
         (fs fs' : FS) (result : dict pyval) name schema,
    validate_parameters sys params schemas subst defaults
      check_unknowns true check_exist expand_globs create_dirs fs
    = (Ok result, fs') ->
    In (name, schema) schemas ->
    required schema = true ->
    exists v, dict_get result name = Some v /\ is_None v = false.
Proof.
  intros params schemas subst defaults cu ce eg cd fs fs' result name schema
    H Hin Hreq.
  pose proof (validated_required _ _ _ _ _ _ _ _ _ _ _ _ _ H Hin Hreq) as Hm.
  pose proof (validated_not_None _ _ _ _ _ _ _ _ _ _ _ _ H) as Hv.
  unfold dict_mem in Hm. destruct (dict_get result name) as [v|] eqn:E;
    [|discriminate].
  exists v. split; [reflexivity|].
  apply dict_get_In in E. rewrite Forall_forall in Hv. exact (Hv _ E).
Qed.

(** X17.  After a [Cab.validate] that returns, no required parameter of
    the cab is missing: [missing_params] is empty. *)
Theorem validated_cab_misses_nothing :
  forall {regex} (self cab : Cab regex) (defaults params : dict pyval)
         (subst : option (dict pyval)) (fs fs' : FS),
    Task.validate sys self defaults params subst fs = (Ok cab, fs') ->
    missing_params (self_inputs_outputs cab) (self_params cab) = [].
Proof.
  intros regex self cab defaults params subst fs fs' H. unfold Task.validate in H.
  destruct (validate_parameters sys params (self_inputs_outputs self) subst
              (Some defaults) true true true true false fs)
    as [[validated|e] fs1] eqn:E; [|discriminate].
  injection H as <- _. cbn [set_params self_inputs_outputs self_params].
  unfold missing_params.
  assert (Hall : forall schemas0,
             incl schemas0 (self_inputs_outputs self) ->
             filter (fun ns : string * ParameterSchema =>
                       required (snd ns) && negb (dict_mem validated (fst ns)))
                    schemas0 = []).
  { induction schemas0 as [|[n s] rest IH]; intros Hincl; [reflexivity|].
    cbn [filter fst snd].
    assert (Hin : In (n, s) (self_inputs_outputs self))
      by (apply Hincl; left; reflexivity).
    destruct (required s) eqn:Er.
    - rewrite (validated_required _ _ _ _ _ _ _ _ _ _ _ _ _ E Hin Er).
      cbn [negb andb]. apply IH. intros x Hx. apply Hincl. right. exact Hx.
    - cbn [andb]. apply IH. intros x Hx. apply Hincl. right. exact Hx. }
  apply Hall. apply incl_refl.
Qed.

(** ** The names of the result *)

Lemma check_unknown_Ok :
  forall params schemas,
    check_unknown params schemas = Ok tt ->
    Forall (fun nv : string * pyval => In (fst nv) (dict_keys schemas)) params.
Proof.
  induction params as [|[n v] params IH]; intros schemas H; [constructor|].
  cbn [check_unknown] in H. destruct (dict_mem schemas n) eqn:E; [|discriminate].
  constructor; [apply dict_mem_In; exact E | exact (IH _ H)].
Qed.

Lemma Forall_filter :
  forall {A} (P : A -> Prop) (f : A -> bool) (l : list A),
    Forall P l -> Forall P (filter f l).
Proof.
  intros A P f l H. apply Forall_forall. intros x Hx.
  apply filter_In in Hx as [Hx _]. rewrite Forall_forall in H. exact (H _ Hx).
Qed.

Lemma add_defaults_keys :
  forall (names : list string) schemas defaults inputs inputs',
    incl (dict_keys schemas) names ->
    Forall (fun nv : string * pyval => In (fst nv) names) inputs ->
    add_defaults schemas defaults inputs = Ok inputs' ->
    Forall (fun nv : string * pyval => In (fst nv) names) inputs'.
Proof.
  intros names. induction schemas as [|[n s] schemas IH];
    intros defaults inputs inputs' Hincl Hi H.
  - injection H as <-. exact Hi.
  - cbn [add_defaults] in H.
    assert (Hn : In n names) by (apply Hincl; left; reflexivity).
    assert (Hrest : incl (dict_keys schemas) names)
      by (intros x Hx; apply Hincl; right; exact Hx).
    destruct (get_is_None inputs n); [|exact (IH _ _ _ Hrest Hi H)].
    destruct (dict_get defaults n); [|discriminate].
    apply (IH _ _ _ Hrest) in H; [exact H|].
    apply Forall_dict_set; assumption.
Qed.

Lemma move_unresolved_keys :
  forall (names : list string) items inputs unresolved inputs' unresolved',
    move_unresolved items inputs unresolved = (inputs', unresolved') ->
    Forall (fun nv : string * pyval => In (fst nv) names) items ->
    Forall (fun nv : string * pyval => In (fst nv) names) unresolved ->
    Forall (fun nv : string * pyval => In (fst nv) names) unresolved'.
Proof.
  intros names. induction items as [|[n v] items IH];
    intros inputs unresolved inputs' unresolved' H Hi Hu.
  - injection H as _ <-. exact Hu.
  - cbn [move_unresolved] in H. inversion Hi as [|x l Hx Hl]; subst.
    destruct v; try exact (IH _ _ _ _ H Hl Hu).
    destruct (has_substitution s); [|exact (IH _ _ _ _ H Hl Hu)].
    apply (IH _ _ _ _ H Hl). apply Forall_dict_set; assumption.
Qed.

Lemma resolve_inputs_keys :
  forall params schemas subst defaults inputs unresolved passes,
    resolve_inputs params schemas subst defaults true
    = Ok (inputs, unresolved, passes) ->
    Forall (fun nv : string * pyval => In (fst nv) (dict_keys schemas))
      unresolved.
Proof.
  intros params schemas subst defaults inputs unresolved passes H.
  apply resolve_inputs_parts in H as (Hc & inputs0 & Hd & H).
  destruct (check_unknown params schemas) as [[]|] eqn:Ec; [|discriminate].
  apply check_unknown_Ok in Ec. destruct subst as [subst|].
  - destruct H as [_ ->]. apply Forall_filter. exact Ec.
  - apply (move_unresolved_keys _ _ _ _ _ _ H).
    + apply (add_defaults_keys _ _ _ _ _ (incl_refl _)) with (2 := Hd).
      apply Forall_filter. exact Ec.
    + apply Forall_filter. exact Ec.
Qed.

(** X18.  When [validate_parameters] returns with [check_unknowns] set,
    every name of the dictionary it returns is the name of a schema. *)
Theorem only_declared_parameters_are_returned :
  forall params schemas subst defaults
         (check_required check_exist expand_globs create_dirs : bool)
         (fs fs' : FS) (result : dict pyval),
    validate_parameters sys params schemas subst defaults
      true check_required check_exist expand_globs create_dirs fs
    = (Ok result, fs') ->
    incl (dict_keys result) (dict_keys schemas).
Proof.
  intros params schemas subst defaults cr ce eg cd fs fs' result H.
  apply validate_parameters_stages in H
    as (inputs & unresolved & passes & fields & inputs1 & inputs2 & validated
        & Hr & _ & Hf & Hv & _ & ->).
  apply validate_fields_valid in Hv as [Hk _].
  assert (Hall : Forall (fun nv : string * pyval =>
                           In (fst nv) (dict_keys schemas))
                   (dict_update validated unresolved)).
  { apply Forall_dict_update; [|exact (resolve_inputs_keys _ _ _ _ _ _ _ Hr)].
    apply Forall_forall. intros [k v] Hin. cbn [fst].
    apply dict_mem_In. apply (make_fields_keys _ _ _ _ _ Hf).
    apply dict_mem_In. rewrite <- Hk. unfold dict_keys.
    apply in_map_iff. exists (k, v). split; [reflexivity | exact Hin]. }
  intros k Hin. unfold dict_keys in Hin. apply in_map_iff in Hin as [[k' v] [<- Hin]].
  rewrite Forall_forall in Hall. exact (Hall _ Hin).
Qed.

End Stages.

Lemma required_parameters_are_returned_witness :
  exists v, dict_get [("a", VStr "x")] "a" = Some v /\ is_None v = false.
Proof.
  apply (required_parameters_are_returned no_files
           [("a", VStr "x")] [("a", parameter "str" true)] None None
           true true true false tt tt [("a", VStr "x")]
           "a" (parameter "str" true)).
  - vm_compute. reflexivity.
  - left. reflexivity.
  - reflexivity.
Defined.

Lemma validated_cab_misses_nothing_witness :
  missing_params [("a", parameter "str" true)] [("a", VStr "x")] = [].
Proof.
  apply (validated_cab_misses_nothing no_files
           (cab_of default_policies [("a", parameter "str" true)] [])
           (cab_of default_policies [("a", parameter "str" true)] [("a", VStr "x")])
           [] [("a", VStr "x")] None tt tt).
  vm_compute. reflexivity.
Defined.

Lemma only_declared_parameters_are_returned_witness :
  incl (dict_keys [("a", VStr "x"); ("b", VUnresolved "{y}")])
       (dict_keys schemas_ab).
Proof.
  apply (only_declared_parameters_are_returned no_files
           [("a", VStr "x"); ("b", VStr "{y}")] schemas_ab None None
           true true true false tt tt).
  vm_compute. reflexivity.
Defined.

End ValidatedFacts.

(* ================================================================== *)
(** * The check of files *)
(* ================================================================== *)

Module FileFacts.
Import Py Schema Validate Cargo Task Examples Notions ValidateFacts.

Section Files.

Context {FS : Type} (sys : System FS).

Lemma all_paths_isfile :
  forall files (fs fs' : FS),
    all_paths (path_isfile sys) files fs = (Ok true, fs') ->
    forallb (path_exists sys fs TFile) files = true.
Proof.
  induction files as [|f files IH]; intros fs fs' H; [reflexivity|].
  cbn [all_paths] in H. unfold io_bind, path_isfile at 1 in H.
  cbn [forallb]. unfold path_exists at 1.
  destruct (as_path f) as [p|]; [|discriminate]. cbn [bind] in H.
  destruct (isfile sys fs p); [|discriminate]. exact (IH _ _ H).
Qed.

Lemma all_paths_isdir :
  forall elem files (fs fs' : FS),
    elem <> TFile ->
    all_paths (path_isdir sys) files fs = (Ok true, fs') ->
    forallb (path_exists sys fs elem) files = true.
Proof.
  intros elem files. induction files as [|f files IH]; intros fs fs' He H;
    [reflexivity|].
  cbn [all_paths] in H. unfold io_bind, path_isdir at 1 in H.
  cbn [forallb]. unfold path_exists at 1.
  destruct (as_path f) as [p|]; [|discriminate]. cbn [bind] in H.
  destruct (isdir sys fs p) eqn:Ed; [|discriminate].
  rewrite (IH _ _ He H). destruct elem; try reflexivity. contradiction.
Qed.

Lemma find_files_state :
  forall eg name value (fs fs' : FS) r,
    find_files sys eg name value fs = (r, fs') -> fs' = fs.
Proof.
  intros eg name value fs fs' r H. unfold find_files in H.
  destruct value; try (injection H as _ <-; reflexivity).
  destruct (yaml_safe_load sys s); injection H as _ <-; reflexivity.
Qed.

(** The single path of a [File], [Directory] or [MS]. *)
Lemma check_files_scalar :
  forall eg cd name value schema dtype (fs fs' : FS) v,
    is_file dtype = true ->
    check_files sys true eg cd name value schema dtype fs = (Ok v, fs') ->
    (required schema = false /\ v = VStr "")
    \/ path_exists sys fs dtype v = true.
Proof.
  intros eg cd name value schema dtype fs fs' v Hd H.
  unfold check_files in H. rewrite Hd in H. cbn [orb] in H.
  unfold io_bind at 1 in H.
  destruct (find_files sys eg name value fs) as [[files|e] fs0] eqn:Ef;
    [|discriminate].
  apply find_files_state in Ef. subst fs0.
  destruct files as [|first others].
  - left. rewrite andb_true_r in H. destruct (required schema); [discriminate|].
    assert (is_file_list dtype = false) as Hl
      by (destruct dtype; try discriminate; reflexivity).
    rewrite Hl in H. injection H as <- _. split; reflexivity.
  - right. destruct others; [|discriminate].
    assert (Hpath :
      forall (test : FS -> string -> bool) msg,
        io_bind
          (io_bind
             (fun fs => (bind (as_path first) (fun p => Ok (test fs p)), fs))
             (fun b : bool => if b then ret tt else fail msg))
          (fun _ => io_bind (when cd (make_parent sys first))
                      (fun _ => ret first)) fs = (Ok v, fs') ->
        v = first /\ exists p, as_path first = Ok p /\ test fs p = true).
    { intros test msg H'. unfold io_bind in H'.
      destruct (as_path first) as [p|]; [|discriminate]. cbn [bind] in H'.
      destruct (test fs p) eqn:Et; [|discriminate]. cbn [ret] in H'.
      destruct (when cd (make_parent sys first) fs) as [[[]|] fs1];
        [|discriminate].
      injection H' as <- _. split; [reflexivity|]. exists p.
      split; [reflexivity | exact Et]. }
    unfold path_exists.
    destruct dtype; try discriminate; cbn [is_file] in H;
      apply Hpath in H as [-> (p & -> & Hp)]; exact Hp.
Qed.

(** The paths of a list of files or directories. *)
Lemma check_files_list :
  forall eg cd name value schema elem (fs fs' : FS) v,
    is_file elem = true ->
    check_files sys true eg cd name value schema (TList elem) fs = (Ok v, fs') ->
    exists files,
      v = VList files /\ forallb (path_exists sys fs elem) files = true.
Proof.
  intros eg cd name value schema elem fs fs' v Hd H.
  unfold check_files in H.
  assert (is_file_list (TList elem) = true) as Hl
    by (destruct elem; try discriminate; reflexivity).
  rewrite Hl in H. cbn [is_file orb] in H. unfold io_bind at 1 in H.
  destruct (find_files sys eg name value fs) as [[files|e] fs0] eqn:Ef;
    [|discriminate].
  apply find_files_state in Ef. subst fs0.
  destruct files as [|first others].
  - rewrite andb_true_r in H. destruct (required schema); [discriminate|].
    injection H as <- _. exists []. split; reflexivity.
  - exists (first :: others).
    assert (Hpaths :
      forall (test : pyval -> io bool) msg,
        io_bind
          (io_bind (all_paths test (first :: others))
             (fun b : bool => if b then ret tt else fail msg))
          (fun _ => io_bind (when cd (make_parents sys (first :: others)))
                      (fun _ => ret (VList (first :: others)))) fs
        = (Ok v, fs') ->
        v = VList (first :: others)
        /\ exists fs1, all_paths test (first :: others) fs = (Ok true, fs1)).
    { intros test msg H'. unfold io_bind at 1 2 in H'.
      destruct (all_paths test (first :: others) fs) as [[[]|] fs1];
        try discriminate.
      cbn [ret] in H'. unfold io_bind in H'.
      destruct (when cd (make_parents sys (first :: others)) fs1) as [[[]|] fs2];
        [|discriminate].
      injection H' as <- _. split; [reflexivity|]. exists fs1. reflexivity. }
    destruct elem; try discriminate;
      apply Hpaths in H as [-> [fs1 H]]; split; try reflexivity.
    + exact (all_paths_isfile _ _ _ H).
    + apply all_paths_isdir with (fs' := fs1); [discriminate | exact H].
    + apply all_paths_isdir with (fs' := fs1); [discriminate | exact H].
Qed.

(** X19.  With [check_exist], the value the check of files leaves for a
    parameter of a file type is the empty string of an optional parameter
    for which nothing was found, or a path that exists in the file system
    the check started from, as a regular file for [File] and as a
    directory for [Directory] and [MS]; for a list of these it is a list
    of such paths.  A value of another type is left as it is. *)
Theorem checked_paths_exist :
  forall (expand_globs create_dirs : bool) name value schema dtype
         (fs fs' : FS) (v : pyval),
    check_files sys true expand_globs create_dirs name value schema dtype fs
    = (Ok v, fs') ->
    if is_file dtype
    then (required schema = false /\ v = VStr "")
         \/ path_exists sys fs dtype v = true
    else match dtype with
         | TList elem =>
             if is_file elem
             then exists files,
                 v = VList files
                 /\ forallb (path_exists sys fs elem) files = true
             else v = value
         | _ => v = value
         end.
Proof.
  intros eg cd name value schema dtype fs fs' v H.
  destruct (is_file dtype) eqn:Ed.
  - exact (check_files_scalar _ _ _ _ _ _ _ _ _ Ed H).
  - destruct dtype as [| | | | | |elem]; try discriminate;
      try (cbn in H; injection H as <- _; reflexivity).
    destruct (is_file elem) eqn:Ee.
    + exact (check_files_list _ _ _ _ _ _ _ _ _ Ee H).
    + destruct elem; try discriminate; cbn in H; injection H as <- _;
        reflexivity.
Qed.

End Files.

Lemma checked_paths_exist_witness :
  (required (parameter "File" true) = false /\ VStr "data.txt" = VStr "")
  \/ path_exists small_disk tt TFile (VStr "data.txt") = true.
Proof.
  apply (checked_paths_exist small_disk true false "f" (VStr "data.txt")
           (parameter "File" true) TFile tt tt (VStr "data.txt")).
  vm_compute. reflexivity.
Defined.

End FileFacts.

(* ================================================================== *)
(** * Validation without a substitution namespace *)
(* ================================================================== *)

Module UnresolvedFacts.
Import Py Schema Validate Cargo Task Examples Notions ValidateFacts TaskFacts.
Import ValidatedFacts.

Lemma dict_keys_set :
  forall {V} (d : dict V) k v,
    dict_keys (dict_set d k v)
    = if dict_mem d k then dict_keys d else (dict_keys d ++ [k])%list.
Proof.
  intros V d k v. unfold dict_mem, dict_keys.
  induction d as [|[k' v'] d IH]; [reflexivity|].
  cbn [dict_set dict_get]. destruct (String.eqb k' k); [reflexivity|].
  cbn [map fst]. rewrite IH. destruct (dict_get d k); reflexivity.
Qed.

Lemma NoDup_dict_set :
  forall {V} (d : dict V) k v,
    NoDup (dict_keys d) -> NoDup (dict_keys (dict_set d k v)).
Proof.
  intros V d k v H. rewrite dict_keys_set.
  destruct (dict_mem d k) eqn:E; [exact H|].
  assert (Hn : ~ In k (dict_keys d)).
  { intros Hin. apply dict_mem_In in Hin. congruence. }
  clear E. induction d as [|[k' v'] d IH]; cbn.
  - constructor; [intros [] | constructor].
  - cbn in H, Hn. inversion H as [|x l Hx Hl]; subst. constructor.
    + intros Hin. apply in_app_or in Hin as [Hin|[Hin|[]]]; [tauto|].
      subst. tauto.
    + apply IH; [exact Hl | tauto].
Qed.

Lemma NoDup_keys_filter :
  forall {V} (f : string * V -> bool) (d : dict V),
    NoDup (dict_keys d) -> NoDup (dict_keys (filter f d)).
Proof.
  intros V f d. induction d as [|[k v] d IH]; intros H; [constructor|].
  cbn in H. inversion H as [|x l Hx Hl]; subst. cbn [filter].
  destruct (f (k, v)); [|exact (IH Hl)].
  cbn. constructor; [|exact (IH Hl)].
  intros Hin. apply Hx. unfold dict_keys in Hin.
  apply in_map_iff in Hin as [[k' v'] [Hk Hin]]. cbn in Hk. subst k'.
  apply filter_In in Hin as [Hin _].
  apply in_map_iff. exists (k, v'). split; [reflexivity | exact Hin].
Qed.

Lemma NoDup_add_defaults :
  forall schemas defaults inputs inputs',
    NoDup (dict_keys inputs) ->
    add_defaults schemas defaults inputs = Ok inputs' ->
    NoDup (dict_keys inputs').
Proof.
  induction schemas as [|[n s] schemas IH]; intros defaults inputs inputs' Hnd H.
  - injection H as <-. exact Hnd.
  - cbn [add_defaults] in H.
    destruct (get_is_None inputs n); [|exact (IH _ _ _ Hnd H)].
    destruct (dict_get defaults n); [|discriminate].
    apply (IH _ _ _) with (2 := H). apply NoDup_dict_set. exact Hnd.
Qed.

Lemma add_defaults_keeps :
  forall schemas defaults inputs inputs' name v,
    dict_get inputs name = Some v -> is_None v = false ->
    add_defaults schemas defaults inputs = Ok inputs' ->
    dict_get inputs' name = Some v.
Proof.
  induction schemas as [|[n s] schemas IH];
    intros defaults inputs inputs' name v Hg Hv H.
  - injection H as <-. exact Hg.
  - cbn [add_defaults] in H.
    destruct (get_is_None inputs n) eqn:En; [|exact (IH _ _ _ _ _ Hg Hv H)].
    destruct (dict_get defaults n); [|discriminate].
    apply (IH _ _ _ _ _) with (3 := H); [|exact Hv].
    destruct (String.eqb n name) eqn:E.
    + apply String.eqb_eq in E. subst n. unfold get_is_None in En.
      rewrite Hg in En. destruct v; discriminate.
    + rewrite dict_get_set_other by exact E. exact Hg.
Qed.

Lemma NoDup_move_unresolved :
  forall items inputs unresolved inputs' unresolved',
    move_unresolved items inputs unresolved = (inputs', unresolved') ->
    NoDup (dict_keys unresolved) -> NoDup (dict_keys unresolved').
Proof.
  induction items as [|[n v] items IH];
    intros inputs unresolved inputs' unresolved' H Hu.
  - injection H as _ <-. exact Hu.
  - cbn [move_unresolved] in H. destruct v; try exact (IH _ _ _ _ H Hu).
    destruct (has_substitution s); [|exact (IH _ _ _ _ H Hu)].
    apply (IH _ _ _ _ H). apply NoDup_dict_set. exact Hu.
Qed.

(** A string with a substitution ends among the unresolved entries. *)
Lemma move_unresolved_get :
  forall name s items inputs unresolved inputs' unresolved',
    move_unresolved items inputs unresolved = (inputs', unresolved') ->
    NoDup (dict_keys items) ->
    has_substitution s = true ->
    In (name, VStr s) items
    \/ (~ In name (dict_keys items)
        /\ dict_get unresolved name = Some (VUnresolved s)) ->
    dict_get unresolved' name = Some (VUnresolved s).
Proof.
  intros name s. induction items as [|[n v] items IH];
    intros inputs unresolved inputs' unresolved' H Hnd Hs Hcase.
  - injection H as _ <-. destruct Hcase as [[]|[_ Hg]]. exact Hg.
  - cbn in Hnd. inversion Hnd as [|x l Hx Hl]; subst.
    cbn [move_unresolved] in H.
    destruct Hcase as [[Heq|Hin]|[Hn Hg]].
    + injection Heq as -> ->. rewrite Hs in H.
      apply (IH _ _ _ _ H Hl Hs). right. split; [exact Hx|].
      apply dict_get_set_same.
    + assert (Hrest : forall i u,
                 move_unresolved items i u = (inputs', unresolved') ->
                 dict_get unresolved' name = Some (VUnresolved s)).
      { intros i u H'. apply (IH _ _ _ _ H' Hl Hs). left. exact Hin. }
      destruct v; try exact (Hrest _ _ H).
      destruct (has_substitution s0); exact (Hrest _ _ H).
    + assert (En : String.eqb n name = false).
      { apply String.eqb_neq. intros ->. apply Hn. left. reflexivity. }
      assert (Hrest : forall i u,
                 move_unresolved items i u = (inputs', unresolved') ->
                 dict_get u name = Some (VUnresolved s) ->
                 dict_get unresolved' name = Some (VUnresolved s)).
      { intros i u H' Hu. apply (IH _ _ _ _ H' Hl Hs). right.
        split; [|exact Hu]. intros Hin. apply Hn. right. exact Hin. }
      destruct v; try exact (Hrest _ _ H Hg).
      destruct (has_substitution s0); [|exact (Hrest _ _ H Hg)].
      apply (Hrest _ _ H). rewrite dict_get_set_other by exact En. exact Hg.
Qed.

Lemma dict_update_get :
  forall {V} (e d : dict V) k v,
    NoDup (dict_keys e) -> dict_get e k = Some v ->
    dict_get (dict_update d e) k = Some v.
Proof.
  intros V e d k v Hnd Hg. apply dict_update_get_constant.
  - intros v' Hin. apply (In_dict_get _ _ _ Hnd) in Hin. congruence.
  - right. apply dict_get_In in Hg. unfold dict_keys.
    apply in_map_iff. exists (k, v). split; [reflexivity | exact Hg].
Qed.

Section NoNamespace.

Context {FS : Type} (sys : System FS).

(** X20.  Without a substitution namespace, a string parameter that holds
    a substitution is not validated: when [validate_parameters] returns,
    it returns the string wrapped as [Unresolved], whatever the type and
    the choices its schema declares. *)
Theorem templates_are_returned_unresolved :
  forall params schemas defaults
         (check_unknowns check_required check_exist expand_globs create_dirs : bool)
         (fs fs' : FS) (result : dict pyval) name s,
    NoDup (dict_keys params) ->
    In (name, VStr s) params ->
    has_substitution s = true ->
    validate_parameters sys params schemas None defaults
      check_unknowns check_required check_exist expand_globs create_dirs fs
    = (Ok result, fs') ->
    dict_get result name = Some (VUnresolved s).
Proof.
  intros params schemas defaults cu cr ce eg cd fs fs' result name s
    Hnd Hin Hs H.
  apply validate_parameters_stages in H
    as (inputs & unresolved & passes & fields & inputs1 & inputs2 & validated
        & Hr & _ & _ & _ & _ & ->).
  apply resolve_inputs_parts in Hr as (_ & inputs0 & Hd & E).
  set (concrete := filter (fun nv : string * pyval =>
                             negb (is_Unresolved (snd nv))) params) in *.
  assert (Hc : NoDup (dict_keys concrete)) by (apply NoDup_keys_filter; exact Hnd).
  assert (Hg : dict_get concrete name = Some (VStr s)).
  { apply In_dict_get; [exact Hc|]. apply filter_In. split; [exact Hin|].
    reflexivity. }
  apply dict_update_get.
  - apply (NoDup_move_unresolved _ _ _ _ _ E). apply NoDup_keys_filter. exact Hnd.
  - apply (move_unresolved_get _ _ _ _ _ _ _ E).
    + exact (NoDup_add_defaults _ _ _ _ Hc Hd).
    + exact Hs.
    + left. apply dict_get_In.
      exact (add_defaults_keeps _ _ _ _ _ _ Hg eq_refl Hd).
Qed.

End NoNamespace.

Lemma templates_are_returned_unresolved_witness :
  dict_get [("n", VUnresolved "{recipe.n}")] "n" = Some (VUnresolved "{recipe.n}").
Proof.
  apply (templates_are_returned_unresolved no_files
           [("n", VStr "{recipe.n}")]
           [("n", with_choices (parameter "int" true) [VInt 1; VInt 2])]
           None true true true true false tt tt
           [("n", VUnresolved "{recipe.n}")] "n" "{recipe.n}").
  - repeat constructor. intros [].
  - left. reflexivity.
  - reflexivity.
  - vm_compute. reflexivity.
Defined.

End UnresolvedFacts.
